(** * The player controller of [src/player.tsx]

    A shallow embedding of the [Player] component: its event handlers, the
    aim-camera effect, the bullet collision test and the per-frame callback
    handed to [useFrame], followed by the properties of the specification
    that concern them.

    Conventions of the embedding.

    - JavaScript numbers are read as exact rationals ([Q]); a decimal literal
      of the source is the rational it denotes.  [Math.PI] is the rational
      value of the double the constant holds.
    - Every hook of the component ([useState], [useRef]) and the two host
      objects the component mutates ([camera], [playerRef.current]) are fields
      of one record [State].  A handler reads the values of the last render
      and queues its updates; the record after the handler is the next
      render.  The aim-camera effect runs after a render whose dependencies
      differ from those of the previous one.
    - The component is modelled once mounted with an object ref (the way
      [App] mounts it), so [playerRef.current] is present.
    - What three.js and the JavaScript runtime compute (trigonometry, square
      root, quaternions, [lookAt], ray casting, world matrices) is taken from
      a record [Runtime] of functions.
    - The calls of the optional [onBossHit] callback are counted in the field
      [bossHitCalls].
    - A call that throws is a value [TypeError] of the type [Result].  The
      update of the bullets runs in the render that follows a frame; when
      it throws, the render fails and the component is torn down with its
      bullets, which the field [crashed] records.
    - Pose synthesis of the limbs, the gun bobbing and the recoil animation
      write only to meshes that nothing here reads; they are left out of
      [State].  The progress of the recoil is followed beside it. *)

From Stdlib Require Import QArith Qminmax Qabs Qround Lqa ZArith Lia.
From Stdlib Require Import List Sorted Bool String.
Import ListNotations.

#[local] Open Scope string_scope.
#[local] Open Scope Q_scope.
#[local] Open Scope list_scope.

(** ** Numbers *)

(** [Math.PI]: the double 0x400921FB54442D18 as a fraction. *)
Definition Math_PI : Q := 884279719003555 # 281474976710656.

Definition Math_max (a b : Q) : Q := Qmax a b.
Definition Math_min (a b : Q) : Q := Qmin a b.

(** [a < b] and [a <= b] as the tests of the source. *)
Definition Qleb (a b : Q) : bool := Qle_bool a b.
Definition Qltb (a b : Q) : bool := negb (Qle_bool b a).

(** ** three.js values *)

Record Vector3 : Type := vec3 { vx : Q; vy : Q; vz : Q }.

Record Euler : Type := euler { ex : Q; ey : Q; ez : Q }.

Record Box3 : Type := box3 { bmin : Vector3; bmax : Vector3 }.

(** A mesh of the scene: its identity and the box [Box3.setFromObject]
    computes for it. *)
Record Mesh : Type := mesh { meshId : nat; setFromObject : Box3 }.

Definition add (a b : Vector3) : Vector3 :=
  vec3 (vx a + vx b) (vy a + vy b) (vz a + vz b).

Definition sub (a b : Vector3) : Vector3 :=
  vec3 (vx a - vx b) (vy a - vy b) (vz a - vz b).

Definition multiplyScalar (a : Vector3) (k : Q) : Vector3 :=
  vec3 (vx a * k) (vy a * k) (vz a * k).

Definition crossVectors (a b : Vector3) : Vector3 :=
  vec3 (vy a * vz b - vz a * vy b)
       (vz a * vx b - vx a * vz b)
       (vx a * vy b - vy a * vx b).

Definition lengthSq (a : Vector3) : Q :=
  vx a * vx a + vy a * vy a + vz a * vz a.

(** [v.lerp(t, alpha)]: [v += (t - v) * alpha]. *)
Definition lerp (v t : Vector3) (alpha : Q) : Vector3 :=
  vec3 (vx v + (vx t - vx v) * alpha)
       (vy v + (vy t - vy v) * alpha)
       (vz v + (vz t - vz v) * alpha).

Definition set_vy (v : Q) (a : Vector3) : Vector3 := vec3 (vx a) v (vz a).

Definition set_ex (v : Q) (e : Euler) : Euler := euler v (ey e) (ez e).

(** [box.containsPoint(p)]. *)
Definition containsPoint (b : Box3) (p : Vector3) : bool :=
  negb (Qltb (vx p) (vx (bmin b)) || Qltb (vx (bmax b)) (vx p)
        || Qltb (vy p) (vy (bmin b)) || Qltb (vy (bmax b)) (vy p)
        || Qltb (vz p) (vz (bmin b)) || Qltb (vz (bmax b)) (vz p)).

(** Componentwise equality of vectors up to the equality of fractions. *)
Definition veq (a b : Vector3) : Prop :=
  vx a == vx b /\ vy a == vy b /\ vz a == vz b.

Infix "=v=" := veq (at level 70, no associativity).

(** ** Calls that may throw *)

(** What a call ends in: the value it returns, or the [TypeError] raised on
    reading a property of [null]. *)
Inductive Result (A : Type) : Type :=
| Ok (a : A)
| TypeError.

Arguments Ok {A} a.
Arguments TypeError {A}.

(** ** The component's data *)

Record Bullet : Type := mkBullet {
  b_id : nat;
  b_position : Vector3;
  b_direction : Vector3;
  b_velocity : Q;
  b_lifespan : Q
}.

Record Keys : Type := mkKeys {
  key_w : bool; key_a : bool; key_s : bool; key_d : bool;
  key_space : bool; key_shift : bool
}.

(** [camera.position] and [camera.rotation]; also the shape of
    [savedCameraState.current]. *)
Record CameraPose : Type := mkPose { position : Vector3; rotation : Euler }.

(** [playerRef.current]: the group's position and [rotation.y]; the group is
    never rotated about another axis. *)
Record PlayerGroup : Type := mkGroup { pg_position : Vector3; pg_rotation_y : Q }.

(** The props of [Player].  [bossRef] is [None] when the prop is absent or
    its [current] is null; an entry of [walls] is [None] when its [current]
    is null; [onBossHit] tells whether the callback was supplied. *)
Record PlayerProps : Type := mkProps {
  initialPosition : Vector3;
  bossRef : option Mesh;
  walls : list (option Mesh);
  onBossHit : bool
}.

(** What the host libraries compute. *)
Record Runtime : Type := mkRuntime {
  Math_sin : Q -> Q;
  Math_cos : Q -> Q;
  Math_sqrt : Q -> Q;
  (** [v.applyQuaternion(o.quaternion)] for an object of rotation [e] *)
  applyQuaternion : Vector3 -> Euler -> Vector3;
  (** the rotation [camera.lookAt(target)] gives a camera placed at [eye] *)
  lookAt : Vector3 -> Vector3 -> Euler;
  (** [raycaster.intersectObjects(targets, true)] with the given origin,
      direction and [far], for targets that are all objects: the identities
      of the objects hit, nearest first *)
  intersectObjects : Vector3 -> Vector3 -> Q -> list Mesh -> list nat;
  (** [gunRef.current.getWorldPosition], [None] when [gunRef.current] is
      null.  The position follows from the pose of the group and from the
      local pose of the gun, which the frame callback writes from the clock,
      the crouch and the recoil (lines 455-480) and which is not followed
      here: the function stands for the gun as it is posed when it is asked.
      No theorem below depends on where a bullet starts; the examples
      carry the gun where [Sample] puts it. *)
  gunWorldPosition : PlayerGroup -> option Vector3
}.

Record State : Type := mkState {
  keys : Keys;
  bullets : list Bullet;
  bulletId : nat;
  isAiming : bool;
  isFiring : bool;
  lastFireTime : Q;
  savedCameraState : option CameraPose;
  isMouseDown : bool;
  mouseX : Q;
  mouseY : Q;
  rotationX : Q;
  rotationY : Q;
  initialRotationSet : bool;
  isJumping : bool;
  jumpVelocity : Q;
  isCrouching : bool;
  originalCameraPositionY : Q;
  cameraDistance : Q;
  cameraCurrentPosition : Vector3;
  camera : CameraPose;
  playerGroup : PlayerGroup;
  bossHitCalls : nat;
  crashed : bool
}.

(** *** Field updates *)

Definition set_keys (v : Keys) (st : State) : State :=
  {| keys := v; bullets := bullets st; bulletId := bulletId st;
     isAiming := isAiming st; isFiring := isFiring st;
     lastFireTime := lastFireTime st;
     savedCameraState := savedCameraState st; isMouseDown := isMouseDown st;
     mouseX := mouseX st; mouseY := mouseY st; rotationX := rotationX st;
     rotationY := rotationY st; initialRotationSet := initialRotationSet st;
     isJumping := isJumping st; jumpVelocity := jumpVelocity st;
     isCrouching := isCrouching st;
     originalCameraPositionY := originalCameraPositionY st;
     cameraDistance := cameraDistance st;
     cameraCurrentPosition := cameraCurrentPosition st; camera := camera st;
     playerGroup := playerGroup st; bossHitCalls := bossHitCalls st;
     crashed := crashed st |}.

Definition set_bullets (v : list Bullet) (st : State) : State :=
  {| keys := keys st; bullets := v; bulletId := bulletId st;
     isAiming := isAiming st; isFiring := isFiring st;
     lastFireTime := lastFireTime st;
     savedCameraState := savedCameraState st; isMouseDown := isMouseDown st;
     mouseX := mouseX st; mouseY := mouseY st; rotationX := rotationX st;
     rotationY := rotationY st; initialRotationSet := initialRotationSet st;
     isJumping := isJumping st; jumpVelocity := jumpVelocity st;
     isCrouching := isCrouching st;
     originalCameraPositionY := originalCameraPositionY st;
     cameraDistance := cameraDistance st;
     cameraCurrentPosition := cameraCurrentPosition st; camera := camera st;
     playerGroup := playerGroup st; bossHitCalls := bossHitCalls st;
     crashed := crashed st |}.

Definition set_bulletId (v : nat) (st : State) : State :=
  {| keys := keys st; bullets := bullets st; bulletId := v;
     isAiming := isAiming st; isFiring := isFiring st;
     lastFireTime := lastFireTime st;
     savedCameraState := savedCameraState st; isMouseDown := isMouseDown st;
     mouseX := mouseX st; mouseY := mouseY st; rotationX := rotationX st;
     rotationY := rotationY st; initialRotationSet := initialRotationSet st;
     isJumping := isJumping st; jumpVelocity := jumpVelocity st;
     isCrouching := isCrouching st;
     originalCameraPositionY := originalCameraPositionY st;
     cameraDistance := cameraDistance st;
     cameraCurrentPosition := cameraCurrentPosition st; camera := camera st;
     playerGroup := playerGroup st; bossHitCalls := bossHitCalls st;
     crashed := crashed st |}.

Definition set_isAiming (v : bool) (st : State) : State :=
  {| keys := keys st; bullets := bullets st; bulletId := bulletId st;
     isAiming := v; isFiring := isFiring st; lastFireTime := lastFireTime st;
     savedCameraState := savedCameraState st; isMouseDown := isMouseDown st;
     mouseX := mouseX st; mouseY := mouseY st; rotationX := rotationX st;
     rotationY := rotationY st; initialRotationSet := initialRotationSet st;
     isJumping := isJumping st; jumpVelocity := jumpVelocity st;
     isCrouching := isCrouching st;
     originalCameraPositionY := originalCameraPositionY st;
     cameraDistance := cameraDistance st;
     cameraCurrentPosition := cameraCurrentPosition st; camera := camera st;
     playerGroup := playerGroup st; bossHitCalls := bossHitCalls st;
     crashed := crashed st |}.

Definition set_isFiring (v : bool) (st : State) : State :=
  {| keys := keys st; bullets := bullets st; bulletId := bulletId st;
     isAiming := isAiming st; isFiring := v; lastFireTime := lastFireTime st;
     savedCameraState := savedCameraState st; isMouseDown := isMouseDown st;
     mouseX := mouseX st; mouseY := mouseY st; rotationX := rotationX st;
     rotationY := rotationY st; initialRotationSet := initialRotationSet st;
     isJumping := isJumping st; jumpVelocity := jumpVelocity st;
     isCrouching := isCrouching st;
     originalCameraPositionY := originalCameraPositionY st;
     cameraDistance := cameraDistance st;
     cameraCurrentPosition := cameraCurrentPosition st; camera := camera st;
     playerGroup := playerGroup st; bossHitCalls := bossHitCalls st;
     crashed := crashed st |}.

Definition set_lastFireTime (v : Q) (st : State) : State :=
  {| keys := keys st; bullets := bullets st; bulletId := bulletId st;
     isAiming := isAiming st; isFiring := isFiring st; lastFireTime := v;
     savedCameraState := savedCameraState st; isMouseDown := isMouseDown st;
     mouseX := mouseX st; mouseY := mouseY st; rotationX := rotationX st;
     rotationY := rotationY st; initialRotationSet := initialRotationSet st;
     isJumping := isJumping st; jumpVelocity := jumpVelocity st;
     isCrouching := isCrouching st;
     originalCameraPositionY := originalCameraPositionY st;
     cameraDistance := cameraDistance st;
     cameraCurrentPosition := cameraCurrentPosition st; camera := camera st;
     playerGroup := playerGroup st; bossHitCalls := bossHitCalls st;
     crashed := crashed st |}.

Definition set_savedCameraState (v : option CameraPose) (st : State) : State :=
  {| keys := keys st; bullets := bullets st; bulletId := bulletId st;
     isAiming := isAiming st; isFiring := isFiring st;
     lastFireTime := lastFireTime st; savedCameraState := v;
     isMouseDown := isMouseDown st; mouseX := mouseX st; mouseY := mouseY st;
     rotationX := rotationX st; rotationY := rotationY st;
     initialRotationSet := initialRotationSet st; isJumping := isJumping st;
     jumpVelocity := jumpVelocity st; isCrouching := isCrouching st;
     originalCameraPositionY := originalCameraPositionY st;
     cameraDistance := cameraDistance st;
     cameraCurrentPosition := cameraCurrentPosition st; camera := camera st;
     playerGroup := playerGroup st; bossHitCalls := bossHitCalls st;
     crashed := crashed st |}.

Definition set_isMouseDown (v : bool) (st : State) : State :=
  {| keys := keys st; bullets := bullets st; bulletId := bulletId st;
     isAiming := isAiming st; isFiring := isFiring st;
     lastFireTime := lastFireTime st;
     savedCameraState := savedCameraState st; isMouseDown := v;
     mouseX := mouseX st; mouseY := mouseY st; rotationX := rotationX st;
     rotationY := rotationY st; initialRotationSet := initialRotationSet st;
     isJumping := isJumping st; jumpVelocity := jumpVelocity st;
     isCrouching := isCrouching st;
     originalCameraPositionY := originalCameraPositionY st;
     cameraDistance := cameraDistance st;
     cameraCurrentPosition := cameraCurrentPosition st; camera := camera st;
     playerGroup := playerGroup st; bossHitCalls := bossHitCalls st;
     crashed := crashed st |}.

Definition set_mouseX (v : Q) (st : State) : State :=
  {| keys := keys st; bullets := bullets st; bulletId := bulletId st;
     isAiming := isAiming st; isFiring := isFiring st;
     lastFireTime := lastFireTime st;
     savedCameraState := savedCameraState st; isMouseDown := isMouseDown st;
     mouseX := v; mouseY := mouseY st; rotationX := rotationX st;
     rotationY := rotationY st; initialRotationSet := initialRotationSet st;
     isJumping := isJumping st; jumpVelocity := jumpVelocity st;
     isCrouching := isCrouching st;
     originalCameraPositionY := originalCameraPositionY st;
     cameraDistance := cameraDistance st;
     cameraCurrentPosition := cameraCurrentPosition st; camera := camera st;
     playerGroup := playerGroup st; bossHitCalls := bossHitCalls st;
     crashed := crashed st |}.

Definition set_mouseY (v : Q) (st : State) : State :=
  {| keys := keys st; bullets := bullets st; bulletId := bulletId st;
     isAiming := isAiming st; isFiring := isFiring st;
     lastFireTime := lastFireTime st;
     savedCameraState := savedCameraState st; isMouseDown := isMouseDown st;
     mouseX := mouseX st; mouseY := v; rotationX := rotationX st;
     rotationY := rotationY st; initialRotationSet := initialRotationSet st;
     isJumping := isJumping st; jumpVelocity := jumpVelocity st;
     isCrouching := isCrouching st;
     originalCameraPositionY := originalCameraPositionY st;
     cameraDistance := cameraDistance st;
     cameraCurrentPosition := cameraCurrentPosition st; camera := camera st;
     playerGroup := playerGroup st; bossHitCalls := bossHitCalls st;
     crashed := crashed st |}.

Definition set_rotationX (v : Q) (st : State) : State :=
  {| keys := keys st; bullets := bullets st; bulletId := bulletId st;
     isAiming := isAiming st; isFiring := isFiring st;
     lastFireTime := lastFireTime st;
     savedCameraState := savedCameraState st; isMouseDown := isMouseDown st;
     mouseX := mouseX st; mouseY := mouseY st; rotationX := v;
     rotationY := rotationY st; initialRotationSet := initialRotationSet st;
     isJumping := isJumping st; jumpVelocity := jumpVelocity st;
     isCrouching := isCrouching st;
     originalCameraPositionY := originalCameraPositionY st;
     cameraDistance := cameraDistance st;
     cameraCurrentPosition := cameraCurrentPosition st; camera := camera st;
     playerGroup := playerGroup st; bossHitCalls := bossHitCalls st;
     crashed := crashed st |}.

Definition set_rotationY (v : Q) (st : State) : State :=
  {| keys := keys st; bullets := bullets st; bulletId := bulletId st;
     isAiming := isAiming st; isFiring := isFiring st;
     lastFireTime := lastFireTime st;
     savedCameraState := savedCameraState st; isMouseDown := isMouseDown st;
     mouseX := mouseX st; mouseY := mouseY st; rotationX := rotationX st;
     rotationY := v; initialRotationSet := initialRotationSet st;
     isJumping := isJumping st; jumpVelocity := jumpVelocity st;
     isCrouching := isCrouching st;
     originalCameraPositionY := originalCameraPositionY st;
     cameraDistance := cameraDistance st;
     cameraCurrentPosition := cameraCurrentPosition st; camera := camera st;
     playerGroup := playerGroup st; bossHitCalls := bossHitCalls st;
     crashed := crashed st |}.

Definition set_initialRotationSet (v : bool) (st : State) : State :=
  {| keys := keys st; bullets := bullets st; bulletId := bulletId st;
     isAiming := isAiming st; isFiring := isFiring st;
     lastFireTime := lastFireTime st;
     savedCameraState := savedCameraState st; isMouseDown := isMouseDown st;
     mouseX := mouseX st; mouseY := mouseY st; rotationX := rotationX st;
     rotationY := rotationY st; initialRotationSet := v;
     isJumping := isJumping st; jumpVelocity := jumpVelocity st;
     isCrouching := isCrouching st;
     originalCameraPositionY := originalCameraPositionY st;
     cameraDistance := cameraDistance st;
     cameraCurrentPosition := cameraCurrentPosition st; camera := camera st;
     playerGroup := playerGroup st; bossHitCalls := bossHitCalls st;
     crashed := crashed st |}.

Definition set_isJumping (v : bool) (st : State) : State :=
  {| keys := keys st; bullets := bullets st; bulletId := bulletId st;
     isAiming := isAiming st; isFiring := isFiring st;
     lastFireTime := lastFireTime st;
     savedCameraState := savedCameraState st; isMouseDown := isMouseDown st;
     mouseX := mouseX st; mouseY := mouseY st; rotationX := rotationX st;
     rotationY := rotationY st; initialRotationSet := initialRotationSet st;
     isJumping := v; jumpVelocity := jumpVelocity st;
     isCrouching := isCrouching st;
     originalCameraPositionY := originalCameraPositionY st;
     cameraDistance := cameraDistance st;
     cameraCurrentPosition := cameraCurrentPosition st; camera := camera st;
     playerGroup := playerGroup st; bossHitCalls := bossHitCalls st;
     crashed := crashed st |}.

Definition set_jumpVelocity (v : Q) (st : State) : State :=
  {| keys := keys st; bullets := bullets st; bulletId := bulletId st;
     isAiming := isAiming st; isFiring := isFiring st;
     lastFireTime := lastFireTime st;
     savedCameraState := savedCameraState st; isMouseDown := isMouseDown st;
     mouseX := mouseX st; mouseY := mouseY st; rotationX := rotationX st;
     rotationY := rotationY st; initialRotationSet := initialRotationSet st;
     isJumping := isJumping st; jumpVelocity := v;
     isCrouching := isCrouching st;
     originalCameraPositionY := originalCameraPositionY st;
     cameraDistance := cameraDistance st;
     cameraCurrentPosition := cameraCurrentPosition st; camera := camera st;
     playerGroup := playerGroup st; bossHitCalls := bossHitCalls st;
     crashed := crashed st |}.

Definition set_isCrouching (v : bool) (st : State) : State :=
  {| keys := keys st; bullets := bullets st; bulletId := bulletId st;
     isAiming := isAiming st; isFiring := isFiring st;
     lastFireTime := lastFireTime st;
     savedCameraState := savedCameraState st; isMouseDown := isMouseDown st;
     mouseX := mouseX st; mouseY := mouseY st; rotationX := rotationX st;
     rotationY := rotationY st; initialRotationSet := initialRotationSet st;
     isJumping := isJumping st; jumpVelocity := jumpVelocity st;
     isCrouching := v; originalCameraPositionY := originalCameraPositionY st;
     cameraDistance := cameraDistance st;
     cameraCurrentPosition := cameraCurrentPosition st; camera := camera st;
     playerGroup := playerGroup st; bossHitCalls := bossHitCalls st;
     crashed := crashed st |}.

Definition set_originalCameraPositionY (v : Q) (st : State) : State :=
  {| keys := keys st; bullets := bullets st; bulletId := bulletId st;
     isAiming := isAiming st; isFiring := isFiring st;
     lastFireTime := lastFireTime st;
     savedCameraState := savedCameraState st; isMouseDown := isMouseDown st;
     mouseX := mouseX st; mouseY := mouseY st; rotationX := rotationX st;
     rotationY := rotationY st; initialRotationSet := initialRotationSet st;
     isJumping := isJumping st; jumpVelocity := jumpVelocity st;
     isCrouching := isCrouching st; originalCameraPositionY := v;
     cameraDistance := cameraDistance st;
     cameraCurrentPosition := cameraCurrentPosition st; camera := camera st;
     playerGroup := playerGroup st; bossHitCalls := bossHitCalls st;
     crashed := crashed st |}.

Definition set_cameraDistance (v : Q) (st : State) : State :=
  {| keys := keys st; bullets := bullets st; bulletId := bulletId st;
     isAiming := isAiming st; isFiring := isFiring st;
     lastFireTime := lastFireTime st;
     savedCameraState := savedCameraState st; isMouseDown := isMouseDown st;
     mouseX := mouseX st; mouseY := mouseY st; rotationX := rotationX st;
     rotationY := rotationY st; initialRotationSet := initialRotationSet st;
     isJumping := isJumping st; jumpVelocity := jumpVelocity st;
     isCrouching := isCrouching st;
     originalCameraPositionY := originalCameraPositionY st;
     cameraDistance := v; cameraCurrentPosition := cameraCurrentPosition st;
     camera := camera st; playerGroup := playerGroup st;
     bossHitCalls := bossHitCalls st; crashed := crashed st |}.

Definition set_cameraCurrentPosition (v : Vector3) (st : State) : State :=
  {| keys := keys st; bullets := bullets st; bulletId := bulletId st;
     isAiming := isAiming st; isFiring := isFiring st;
     lastFireTime := lastFireTime st;
     savedCameraState := savedCameraState st; isMouseDown := isMouseDown st;
     mouseX := mouseX st; mouseY := mouseY st; rotationX := rotationX st;
     rotationY := rotationY st; initialRotationSet := initialRotationSet st;
     isJumping := isJumping st; jumpVelocity := jumpVelocity st;
     isCrouching := isCrouching st;
     originalCameraPositionY := originalCameraPositionY st;
     cameraDistance := cameraDistance st; cameraCurrentPosition := v;
     camera := camera st; playerGroup := playerGroup st;
     bossHitCalls := bossHitCalls st; crashed := crashed st |}.

Definition set_camera (v : CameraPose) (st : State) : State :=
  {| keys := keys st; bullets := bullets st; bulletId := bulletId st;
     isAiming := isAiming st; isFiring := isFiring st;
     lastFireTime := lastFireTime st;
     savedCameraState := savedCameraState st; isMouseDown := isMouseDown st;
     mouseX := mouseX st; mouseY := mouseY st; rotationX := rotationX st;
     rotationY := rotationY st; initialRotationSet := initialRotationSet st;
     isJumping := isJumping st; jumpVelocity := jumpVelocity st;
     isCrouching := isCrouching st;
     originalCameraPositionY := originalCameraPositionY st;
     cameraDistance := cameraDistance st;
     cameraCurrentPosition := cameraCurrentPosition st; camera := v;
     playerGroup := playerGroup st; bossHitCalls := bossHitCalls st;
     crashed := crashed st |}.

Definition set_playerGroup (v : PlayerGroup) (st : State) : State :=
  {| keys := keys st; bullets := bullets st; bulletId := bulletId st;
     isAiming := isAiming st; isFiring := isFiring st;
     lastFireTime := lastFireTime st;
     savedCameraState := savedCameraState st; isMouseDown := isMouseDown st;
     mouseX := mouseX st; mouseY := mouseY st; rotationX := rotationX st;
     rotationY := rotationY st; initialRotationSet := initialRotationSet st;
     isJumping := isJumping st; jumpVelocity := jumpVelocity st;
     isCrouching := isCrouching st;
     originalCameraPositionY := originalCameraPositionY st;
     cameraDistance := cameraDistance st;
     cameraCurrentPosition := cameraCurrentPosition st; camera := camera st;
     playerGroup := v; bossHitCalls := bossHitCalls st;
     crashed := crashed st |}.

Definition set_bossHitCalls (v : nat) (st : State) : State :=
  {| keys := keys st; bullets := bullets st; bulletId := bulletId st;
     isAiming := isAiming st; isFiring := isFiring st;
     lastFireTime := lastFireTime st;
     savedCameraState := savedCameraState st; isMouseDown := isMouseDown st;
     mouseX := mouseX st; mouseY := mouseY st; rotationX := rotationX st;
     rotationY := rotationY st; initialRotationSet := initialRotationSet st;
     isJumping := isJumping st; jumpVelocity := jumpVelocity st;
     isCrouching := isCrouching st;
     originalCameraPositionY := originalCameraPositionY st;
     cameraDistance := cameraDistance st;
     cameraCurrentPosition := cameraCurrentPosition st; camera := camera st;
     playerGroup := playerGroup st; bossHitCalls := v;
     crashed := crashed st |}.

Definition set_crashed (v : bool) (st : State) : State :=
  {| keys := keys st; bullets := bullets st; bulletId := bulletId st;
     isAiming := isAiming st; isFiring := isFiring st;
     lastFireTime := lastFireTime st;
     savedCameraState := savedCameraState st; isMouseDown := isMouseDown st;
     mouseX := mouseX st; mouseY := mouseY st; rotationX := rotationX st;
     rotationY := rotationY st; initialRotationSet := initialRotationSet st;
     isJumping := isJumping st; jumpVelocity := jumpVelocity st;
     isCrouching := isCrouching st;
     originalCameraPositionY := originalCameraPositionY st;
     cameraDistance := cameraDistance st;
     cameraCurrentPosition := cameraCurrentPosition st; camera := camera st;
     playerGroup := playerGroup st; bossHitCalls := bossHitCalls st;
     crashed := v |}.

Definition set_w (v : bool) (k : Keys) : Keys :=
  mkKeys v (key_a k) (key_s k) (key_d k) (key_space k) (key_shift k).
Definition set_a (v : bool) (k : Keys) : Keys :=
  mkKeys (key_w k) v (key_s k) (key_d k) (key_space k) (key_shift k).
Definition set_s (v : bool) (k : Keys) : Keys :=
  mkKeys (key_w k) (key_a k) v (key_d k) (key_space k) (key_shift k).
Definition set_d (v : bool) (k : Keys) : Keys :=
  mkKeys (key_w k) (key_a k) (key_s k) v (key_space k) (key_shift k).
Definition set_space (v : bool) (k : Keys) : Keys :=
  mkKeys (key_w k) (key_a k) (key_s k) (key_d k) v (key_shift k).
Definition set_shift (v : bool) (k : Keys) : Keys :=
  mkKeys (key_w k) (key_a k) (key_s k) (key_d k) (key_space k) v.

(** [setKeys(prev => ...)] and [setCameraDistance(prev => ...)]: updates
    computed from the queued value. *)
Definition setKeys (f : Keys -> Keys) (st : State) : State :=
  set_keys (f (keys st)) st.
Definition setCameraDistance (f : Q -> Q) (st : State) : State :=
  set_cameraDistance (f (cameraDistance st)) st.

Definition set_camera_position (v : Vector3) (st : State) : State :=
  set_camera (mkPose v (rotation (camera st))) st.
Definition set_camera_rotation (v : Euler) (st : State) : State :=
  set_camera (mkPose (position (camera st)) v) st.
Definition set_player_position (v : Vector3) (st : State) : State :=
  set_playerGroup (mkGroup v (pg_rotation_y (playerGroup st))) st.
Definition set_player_rotation_y (v : Q) (st : State) : State :=
  set_playerGroup (mkGroup (pg_position (playerGroup st)) v) st.

(** A statement guarded by [if (c) ...]. *)
Definition when (c : bool) (f : State -> State) (st : State) : State :=
  if c then f st else st.

Notation "st |> f" := (f st) (at level 45, left associativity, only parsing).

(** ** Constants of the component *)

Definition fireRate : Q := 100.
Definition jumpForce : Q := 0.3.
Definition gravity : Q := 0.015.
Definition crouchSpeedMultiplier : Q := 0.5.
Definition normalSpeed : Q := 0.1.
Definition crouchHeight : Q := 0.5.
Definition minCameraDistance : Q := 3.
Definition maxCameraDistance : Q := 8.
Definition cameraHeight : Q := 1.5.
Definition cameraSmoothing : Q := 0.1.

(** ** Events *)

Inductive Event : Type :=
| KeyDown (key : string)
| KeyUp (key : string)
| MouseDown (button : Z) (clientX clientY : Q)
| MouseUp (button : Z)
| MouseMove (clientX clientY : Q)
| Wheel (deltaY : Q)
  (** one call of the [useFrame] callback: the elapsed [delta] and the value
      [performance.now()] returns during it *)
| Frame (delta now : Q).

(** ** Event handlers

    In each handler [st0] holds the values the closure captured at the last
    render; the updates are applied in the order of the source. *)

Definition handleKeyDown (key : string) (st0 : State) : State :=
  st0
  |> when (key =? "w") (setKeys (set_w true))
  |> when (key =? "a") (setKeys (set_a true))
  |> when (key =? "s") (setKeys (set_s true))
  |> when (key =? "d") (setKeys (set_d true))
  |> when ((key =? " ") && negb (isJumping st0))
       (fun st => st |> setKeys (set_space true)
                     |> set_isJumping true
                     |> set_jumpVelocity jumpForce)
  |> when (key =? "Shift")
       (fun st => st |> setKeys (set_shift true)
                     |> set_isCrouching true
                     |> when (negb (isCrouching st0) && isAiming st0)
                          (set_originalCameraPositionY
                             (vy (position (camera st0)))))
  |> when ((key =? "=") || (key =? "+"))
       (setCameraDistance (fun prev => Math_max minCameraDistance (prev - 0.5)))
  |> when ((key =? "-") || (key =? "_"))
       (setCameraDistance (fun prev => Math_min maxCameraDistance (prev + 0.5))).

Definition handleKeyUp (key : string) (st0 : State) : State :=
  st0
  |> when (key =? "w") (setKeys (set_w false))
  |> when (key =? "a") (setKeys (set_a false))
  |> when (key =? "s") (setKeys (set_s false))
  |> when (key =? "d") (setKeys (set_d false))
  |> when (key =? " ") (setKeys (set_space false))
  |> when (key =? "Shift")
       (fun st => st |> setKeys (set_shift false) |> set_isCrouching false).

Definition handleMouseDown (button : Z) (clientX clientY : Q) (st0 : State)
  : State :=
  st0
  |> (fun st =>
        if (button =? 0)%Z then set_isFiring true st
        else if (button =? 2)%Z then
          st |> set_savedCameraState
                  (Some (mkPose (position (camera st)) (rotation (camera st))))
             |> set_isAiming true
        else st)
  |> when (button =? 0)%Z
       (fun st => st |> set_isMouseDown true
                     |> set_mouseX clientX
                     |> set_mouseY clientY).

Definition handleMouseUp (button : Z) (st0 : State) : State :=
  st0
  |> (fun st =>
        if (button =? 0)%Z then set_isFiring false st
        else if (button =? 2)%Z then set_isAiming false st
        else st)
  |> when (button =? 0)%Z (set_isMouseDown false).

Definition handleMouseMove (clientX clientY : Q) (st0 : State) : State :=
  st0
  |> when (isMouseDown st0)
       (fun st =>
          let deltaX := clientX - mouseX st0 in
          let deltaY := clientY - mouseY st0 in
          st |> set_rotationY (rotationY st0 - deltaX * 0.01)
             |> set_rotationX
                  (Math_max (- Math_PI / 2)
                     (Math_min (Math_PI / 2) (rotationX st0 - deltaY * 0.01)))
             |> set_mouseX clientX
             |> set_mouseY clientY).

Definition handleWheel (deltaY : Q) (st0 : State) : State :=
  st0
  |> when (negb (isAiming st0))
       (fun st =>
          let delta := if Qltb 0 deltaY then 0.5 else - 0.5 in
          st |> setCameraDistance
                  (fun prev =>
                     Math_max minCameraDistance
                       (Math_min maxCameraDistance (prev + delta)))).

(** ** The aim-camera effect *)

Definition aimCameraEffect (st0 : State) : State :=
  if isAiming st0 then
    let headPosition := add (pg_position (playerGroup st0)) (vec3 0 0.9 0) in
    st0
    |> (fun st =>
          if isCrouching st0 && negb (Qeq_bool (originalCameraPositionY st0) 0)
          then set_camera_position
                 (set_vy (originalCameraPositionY st0 - crouchHeight)
                    (position (camera st))) st
          else set_camera_position headPosition st)
    |> set_camera_rotation (euler (rotationX st0) (rotationY st0) 0)
  else
    match savedCameraState st0 with
    | Some saved =>
        st0 |> set_camera_position (position saved)
            |> set_camera_rotation (rotation saved)
            |> set_savedCameraState None
    | None => st0
    end.

(** The dependency array of the effect, compared between two renders (the
    [camera] object itself never changes). *)
Definition aimDepsChanged (before after : State) : bool :=
  negb (Bool.eqb (isAiming before) (isAiming after)
        && Bool.eqb (isCrouching before) (isCrouching after)
        && Qeq_bool (originalCameraPositionY before)
                    (originalCameraPositionY after)
        && Qeq_bool (rotationX before) (rotationX after)
        && Qeq_bool (rotationY before) (rotationY after)).

(** ** Directions and bullet collision *)

Section Frame.

Variable rt : Runtime.
Variable props : PlayerProps.

(** [v.length()] and [v.normalize()], the latter dividing by
    [this.length() || 1]. *)
Definition length (v : Vector3) : Q := Math_sqrt rt (lengthSq v).

Definition normalize (v : Vector3) : Vector3 :=
  let l := length v in
  multiplyScalar v (1 / (if Qeq_bool l 0 then 1 else l)).

(** [getPlayerForward]: [(0, 0, -1)] turned by the group's quaternion, then
    normalized.  The group is rotated by [rotation.y] alone, which sends
    [(0, 0, -1)] to [(- sin y, 0, - cos y)]. *)
Definition getPlayerForward (pg : PlayerGroup) : Vector3 :=
  normalize (vec3 (- Math_sin rt (pg_rotation_y pg)) 0
                  (- Math_cos rt (pg_rotation_y pg))).

Definition boxHit (target : option Mesh) (p : Vector3) : bool :=
  match target with
  | Some m => containsPoint (setFromObject m) p
  | None => false
  end.

(** The targets handed to [intersectObjects], which reads [object.layers]
    of each of them in turn: a [null] among them is a [TypeError]. *)
Fixpoint mounted (targets : list (option Mesh)) : Result (list Mesh) :=
  match targets with
  | [] => Ok []
  | Some m :: rest =>
      match mounted rest with
      | Ok meshes => Ok (m :: meshes)
      | TypeError => TypeError
      end
  | None :: _ => TypeError
  end.

(** [checkBulletCollision]: the verdict, and the number of calls of
    [onBossHit] made while reaching it.  The two box tests skip a ref whose
    [current] is null; the ray cast does not: [filter(mesh => mesh !==
    undefined)] keeps the null entries, and the call throws on them. *)
Definition checkBulletCollision (bullet : Bullet) : Result (bool * nat) :=
  let notify := if onBossHit props then 1%nat else 0%nat in
  if boxHit (bossRef props) (b_position bullet) then Ok (true, notify)
  else if existsb (fun wallRef => boxHit wallRef (b_position bullet))
            (walls props)
  then Ok (true, 0%nat)
  else
    let wallMeshes := walls props in
    let bossMeshes :=
      match bossRef props with Some b => [Some b] | None => [] end in
    let allTargets := wallMeshes ++ bossMeshes in
    match mounted allTargets with
    | TypeError => TypeError
    | Ok targets =>
        match intersectObjects rt (b_position bullet) (b_direction bullet) 0.2
                targets with
        | [] => Ok (false, 0%nat)
        | first :: _ =>
            Ok (true,
                match bossRef props with
                | Some b => if (first =? meshId b)%nat then notify else 0%nat
                | None => 0%nat
                end)
        end
    end.

(** The bullet moved by one frame. *)
Definition updatedBullet (delta : Q) (bullet : Bullet) : Bullet :=
  mkBullet (b_id bullet)
    (add (b_position bullet)
         (multiplyScalar (b_direction bullet) (b_velocity bullet * delta)))
    (b_direction bullet) (b_velocity bullet) (b_lifespan bullet - delta).

(** The function mapped over the bullets: [None] marks a bullet to remove. *)
Definition updateBullet (delta : Q) (bullet : Bullet)
  : Result (option Bullet * nat) :=
  match checkBulletCollision bullet with
  | TypeError => TypeError
  | Ok (hit1, n1) =>
      if hit1 then Ok (None, n1)
      else
        match checkBulletCollision (updatedBullet delta bullet) with
        | TypeError => TypeError
        | Ok (hit2, n2) =>
            if hit2 then Ok (None, (n1 + n2)%nat)
            else Ok (Some (updatedBullet delta bullet), (n1 + n2)%nat)
        end
  end.

(** [bullet !== null && bullet.lifespan > 0]. *)
Definition keepBullet (r : option Bullet) : list Bullet :=
  match r with
  | Some b => if Qltb 0 (b_lifespan b) then [b] else []
  | None => []
  end.

(** [prev.map(...)], bullet by bullet: what the map returns, or that it
    threw, and the calls of [onBossHit] made until then. *)
Fixpoint mapBullets (delta : Q) (prev : list Bullet)
  : Result (list (option Bullet)) * nat :=
  match prev with
  | [] => (Ok [], 0%nat)
  | bullet :: rest =>
      match updateBullet delta bullet with
      | TypeError => (TypeError, 0%nat)
      | Ok (r, n) =>
          let (results, m) := mapBullets delta rest in
          (match results with
           | Ok rs => Ok (r :: rs)
           | TypeError => TypeError
           end, (n + m)%nat)
      end
  end.

(** The update handed to [setBullets]: the map, then the filter. *)
Definition updateBullets (delta : Q) (prev : list Bullet)
  : Result (list Bullet) * nat :=
  let (results, calls) := mapBullets delta prev in
  (match results with
   | Ok rs => Ok (flat_map keepBullet rs)
   | TypeError => TypeError
   end, calls).

(** ** The frame callback

    The callback of [useFrame] is cut along the comments of the source:
    the walk (lines 361-378), the jump (380-392), the camera (429-453),
    the bullets (517-544) and the shot (546-582).  Each part takes the
    values [st0] the closure captured and the state left by the part
    before it. *)

(** The speed of a frame, for a base speed and a crouch multiplier. *)
Definition speedFor (base multiplier : Q) (crouching : bool) : Q :=
  if crouching then base * multiplier else base.

Definition speed (st0 : State) : Q :=
  speedFor normalSpeed crouchSpeedMultiplier (isCrouching st0).

Definition movePlayer (displacement : Vector3) (st : State) : State :=
  set_player_position (add (pg_position (playerGroup st)) displacement) st.

Definition frame_move (st0 st : State) : State :=
  let forward := getPlayerForward (playerGroup st) in
  let right := normalize (crossVectors (vec3 0 1 0) forward) in
  st
  |> when (key_w (keys st0)) (movePlayer (multiplyScalar forward (speed st0)))
  |> when (key_s (keys st0)) (movePlayer (multiplyScalar forward (- speed st0)))
  |> when (key_a (keys st0)) (movePlayer (multiplyScalar right (- speed st0)))
  |> when (key_d (keys st0)) (movePlayer (multiplyScalar right (speed st0))).

Definition frame_jump (st0 st : State) : State :=
  st
  |> when (isJumping st0)
       (fun st =>
          st |> set_jumpVelocity (jumpVelocity st0 - gravity)
             |> (fun st =>
                   let p := pg_position (playerGroup st) in
                   set_player_position (set_vy (vy p + jumpVelocity st0) p) st)
             |> (fun st =>
                   let p := pg_position (playerGroup st) in
                   when (Qleb (vy p) (vy (initialPosition props)))
                     (fun st =>
                        st |> set_player_position
                                (set_vy (vy (initialPosition props)) p)
                           |> set_isJumping false
                           |> set_jumpVelocity 0) st)).

Definition frame_camera (st0 st : State) : State :=
  if isAiming st0 then
    set_camera_rotation (set_ex (rotationX st0) (rotation (camera st))) st
  else
    let targetPosition := pg_position (playerGroup st) in
    let offset :=
      vec3 (Math_sin rt (rotationY st0) * cameraDistance st0)
           (cameraHeight + (if isCrouching st0 then - crouchHeight / 2 else 0))
           (Math_cos rt (rotationY st0) * cameraDistance st0) in
    let cameraTargetPosition := add targetPosition offset in
    let current :=
      lerp (cameraCurrentPosition st) cameraTargetPosition cameraSmoothing in
    st |> set_cameraCurrentPosition current
       |> set_camera_position current
       |> set_camera_rotation (lookAt rt current targetPosition).

(** The update of the bullets.  It runs in the render the frame asks for;
    when it throws the render fails, the component is torn down and no
    bullet is drawn any more. *)
Definition frame_bullets (delta : Q) (st : State) : State :=
  match updateBullets delta (bullets st) with
  | (Ok live, calls) =>
      st |> set_bullets live |> set_bossHitCalls (bossHitCalls st + calls)%nat
  | (TypeError, calls) =>
      st |> set_bullets [] |> set_bossHitCalls (bossHitCalls st + calls)%nat
         |> set_crashed true
  end.

(** The shot.  [lastFireTime] is a ref, written by the callback itself; the
    bullet is added, and [bulletId] advanced, by a second update of the
    render, which a render that has failed does not reach. *)
Definition frame_fire (now : Q) (st0 st : State) : State :=
  st
  |> when (isFiring st0 && Qltb fireRate (now - lastFireTime st))
       (fun st =>
          let worldPosition :=
            if isAiming st0 then position (camera st)
            else match gunWorldPosition rt (playerGroup st) with
                 | Some p => p
                 | None => position (camera st)
                 end in
          let direction :=
            if isAiming st0
            then applyQuaternion rt (vec3 0 0 (- (1))) (rotation (camera st))
            else getPlayerForward (playerGroup st) in
          st |> set_lastFireTime now
             |> when (negb (crashed st))
                  (fun st =>
                     st |> set_bullets
                             (bullets st
                              ++ [mkBullet (bulletId st) worldPosition
                                    direction 20 1.5])
                        |> set_bulletId (S (bulletId st)))).

(** [delta] is the elapsed time handed to the callback, [now] the value of
    [performance.now()] read when the fire button is examined. *)
Definition useFrame (delta now : Q) (st0 : State) : State :=
  st0
  |> when (negb (initialRotationSet st0))
       (fun st => st |> set_player_rotation_y (rotationY st0)
                     |> set_initialRotationSet true)
  |> frame_move st0
  |> frame_jump st0
  |> set_player_rotation_y (rotationY st0)
  |> frame_camera st0
  |> frame_bullets delta
  |> frame_fire now st0.

(** ** Runs of the component *)

Definition handle (e : Event) (st : State) : State :=
  match e with
  | KeyDown key => handleKeyDown key st
  | KeyUp key => handleKeyUp key st
  | MouseDown button clientX clientY => handleMouseDown button clientX clientY st
  | MouseUp button => handleMouseUp button st
  | MouseMove clientX clientY => handleMouseMove clientX clientY st
  | Wheel deltaY => handleWheel deltaY st
  | Frame delta now => useFrame delta now st
  end.

(** One event: the handler, the render it causes, and the aim-camera effect
    when its dependencies changed. *)
Definition dispatch (e : Event) (st : State) : State :=
  let st' := handle e st in
  when (aimDepsChanged st st') aimCameraEffect st'.

Definition run (events : list Event) (st : State) : State :=
  fold_left (fun st e => dispatch e st) events st.

(** The state after mounting, for the pose the host gave the camera. *)
Definition initialState (hostCamera : CameraPose) : State :=
  {| keys := mkKeys false false false false false false;
     bullets := [];
     bulletId := 0;
     isAiming := false;
     isFiring := false;
     lastFireTime := 0;
     savedCameraState := None;
     isMouseDown := false;
     mouseX := 0;
     mouseY := 0;
     rotationX := 0;
     rotationY := 0;
     initialRotationSet := false;
     isJumping := false;
     jumpVelocity := 0;
     isCrouching := false;
     originalCameraPositionY := 0;
     cameraDistance := 5;
     cameraCurrentPosition := vec3 0 0 0;
     camera := hostCamera;
     playerGroup := mkGroup (initialPosition props) 0;
     bossHitCalls := 0;
     crashed := false |}.

End Frame.

(** ** A runtime for the examples

    Rational stand-ins for the host functions, exact where the examples
    need them: the trigonometric pair is the point of the unit circle whose
    half-angle tangent is [a / 2] (so [sin 0 = 0], [cos 0 = 1] and
    [sin^2 + cos^2 = 1] throughout), the square root is exact on squares of
    fractions, a quaternion turns about the vertical axis only, a ray hits
    the targets whose box holds its far end, and the gun is carried at a
    fixed offset from the player. *)

Module Sample.

Definition sin (a : Q) : Q := (2 * (a / 2)) / (1 + (a / 2) * (a / 2)).
Definition cos (a : Q) : Q := (1 - (a / 2) * (a / 2)) / (1 + (a / 2) * (a / 2)).

Definition sqrt (q : Q) : Q :=
  let r := Qred q in
  Z.sqrt (Qnum r) # Pos.sqrt (Qden r).

Definition rayEnd (origin direction : Vector3) (far : Q) : Vector3 :=
  add origin (multiplyScalar direction far).

Definition rayCast (origin direction : Vector3) (far : Q)
    (targets : list Mesh) : list nat :=
  flat_map
    (fun m =>
       if containsPoint (setFromObject m) (rayEnd origin direction far)
       then [meshId m] else [])
    targets.

Definition runtime : Runtime :=
  {| Math_sin := sin;
     Math_cos := cos;
     Math_sqrt := sqrt;
     applyQuaternion := fun v e =>
       vec3 (vz v * sin (ey e)) (vy v) (vz v * cos (ey e));
     lookAt := fun _ _ => euler 0 0 0;
     intersectObjects := rayCast;
     gunWorldPosition := fun pg =>
       Some (add (pg_position pg) (vec3 0.9 (- 0.7) 0.1)) |}.

(** The camera of [App]: [position: [0, 5, 15]]. *)
Definition hostCamera : CameraPose := mkPose (vec3 0 5 15) (euler 0 0 0).

(** [App] passes [position={[0, 0, 0]}] and neither boss, walls nor callback. *)
Definition appProps : PlayerProps := mkProps (vec3 0 0 0) None [] false.

Definition start : State := initialState appProps hostCamera.

End Sample.

(** ** Notions used by the statements *)

(** The pitch lies between the two bounds of [handleMouseMove]. *)
Definition pitchInRange (st : State) : Prop :=
  - Math_PI / 2 <= rotationX st /\ rotationX st <= Math_PI / 2.

Definition distanceInRange (st : State) : Prop :=
  minCameraDistance <= cameraDistance st /\ cameraDistance st <= maxCameraDistance.

(** A press or release of the aim (right) button. *)
Definition isAimButton (e : Event) : bool :=
  match e with
  | MouseDown button _ _ => (button =? 2)%Z
  | MouseUp button => (button =? 2)%Z
  | _ => false
  end.

(** The reading of the specification's sanity threshold: a mouse move
    whose horizontal or vertical delta exceeds [threshold] leaves both
    angles as they were. *)
Definition discardsOversizedDelta (threshold : Q) : Prop :=
  forall (st : State) (clientX clientY : Q),
    isMouseDown st = true ->
    threshold < Qabs (clientX - mouseX st)
    \/ threshold < Qabs (clientY - mouseY st) ->
    rotationX (handleMouseMove clientX clientY st) == rotationX st
    /\ rotationY (handleMouseMove clientX clientY st) == rotationY st.

(** The fields no frame writes: the state of the keys, buttons and pointer,
    the two angles, the aim and crouch flags, the saved pose and the orbit
    distance. *)
Definition controls (st : State) :=
  (keys st, isAiming st, isFiring st, savedCameraState st,
   (isMouseDown st, mouseX st, mouseY st), (rotationX st, rotationY st),
   (isCrouching st, originalCameraPositionY st), cameraDistance st).

(** The camera is in AIM mode and [c] is the pose kept for the return. *)
Definition aimHeld (c : CameraPose) (st : State) : Prop :=
  isAiming st = true /\ savedCameraState st = Some c.

(** The fields of the projectile system. *)
Definition arsenal (st : State) :=
  (bullets st, bossHitCalls st, (bulletId st, lastFireTime st), crashed st).

Section FrameNotions.

Variable rt : Runtime.
Variable props : PlayerProps.

(** The [rotation.y] the group has when a frame computes its forward
    vector: the one the previous frame gave it, or on the first frame the
    current yaw. *)
Definition frameYaw (st0 : State) : Q :=
  if initialRotationSet st0 then pg_rotation_y (playerGroup st0)
  else rotationY st0.

Definition frameForward (st0 : State) : Vector3 :=
  getPlayerForward rt (mkGroup (pg_position (playerGroup st0)) (frameYaw st0)).

Definition frameRight (st0 : State) : Vector3 :=
  normalize rt (crossVectors (vec3 0 1 0) (frameForward st0)).

(** The state a frame starts moving from. *)
Definition oriented (st0 : State) : State :=
  when (negb (initialRotationSet st0))
    (fun st => st |> set_player_rotation_y (rotationY st0)
                  |> set_initialRotationSet true) st0.

(** The position of the player once the walk of the frame is applied. *)
Definition movedPosition (st0 : State) : Vector3 :=
  pg_position (playerGroup (frame_move rt st0 (oriented st0))).

(** The state in which a frame updates its bullets. *)
Definition beforeBullets (st0 : State) : State :=
  frame_camera rt st0
    (set_player_rotation_y (rotationY st0)
       (frame_jump props st0 (frame_move rt st0 (oriented st0)))).

(** What a held key adds to the position. *)
Definition contribution (held : bool) (axis : Vector3) (amount : Q) : Vector3 :=
  if held then multiplyScalar axis amount else vec3 0 0 0.

(** The sum of the four directional contributions of a frame, each of
    size [amount]. *)
Definition walkBy (amount : Q) (st0 : State) : Vector3 :=
  add (add (add (contribution (key_w (keys st0)) (frameForward st0) amount)
                (contribution (key_s (keys st0)) (frameForward st0) (- amount)))
           (contribution (key_a (keys st0)) (frameRight st0) (- amount)))
      (contribution (key_d (keys st0)) (frameRight st0) amount).

Definition walkDisplacement (st0 : State) : Vector3 := walkBy (speed st0) st0.

Definition dot (a b : Vector3) : Q := vx a * vx b + vy a * vy b + vz a * vz b.

(** The displacement of the player during one frame. *)
Definition frameDisplacement (delta now : Q) (st0 : State) : Vector3 :=
  sub (pg_position (playerGroup (useFrame rt props delta now st0)))
      (pg_position (playerGroup st0)).

End FrameNotions.

(** ** Notions for the projectiles *)

Section ProjectileNotions.

Variable rt : Runtime.
Variable props : PlayerProps.


(** The test that lets a frame fire. *)
Definition mayFire (now : Q) (st : State) : bool :=
  isFiring st && Qltb fireRate (now - lastFireTime st).

(** What the update of a frame leaves of the bullets [prev], and whether
    it throws. *)
Definition survivors (delta : Q) (prev : list Bullet) : list Bullet :=
  match fst (updateBullets rt props delta prev) with
  | Ok live => live
  | TypeError => []
  end.

Definition throws (delta : Q) (prev : list Bullet) : bool :=
  match fst (updateBullets rt props delta prev) with
  | Ok _ => false
  | TypeError => true
  end.



(** What a collision test can hit. *)
Inductive Target : Type := Boss | Wall.

(** The collision test as the specification words it, first match wins:
    the box of the boss, the boxes of the walls in order, then the
    short ray cast against the same colliders, which throws when one of
    the walls is not mounted. *)
Definition spec_collisionTest (bullet : Bullet) : Result (option Target) :=
  if boxHit (bossRef props) (b_position bullet) then Ok (Some Boss)
  else if existsb (fun wallRef => boxHit wallRef (b_position bullet))
            (walls props)
  then Ok (Some Wall)
  else
    match mounted
            (walls props
             ++ match bossRef props with Some b => [Some b] | None => [] end)
    with
    | TypeError => TypeError
    | Ok targets =>
        match intersectObjects rt (b_position bullet) (b_direction bullet)
                0.2 targets with
        | [] => Ok None
        | first :: _ =>
            match bossRef props with
            | Some b =>
                if (first =? meshId b)%nat then Ok (Some Boss)
                else Ok (Some Wall)
            | None => Ok (Some Wall)
            end
        end
    end.

(** The two tests of a frame: at the current position and, when that one
    hits nothing, at the position after the advance. *)
Definition hitDuringFrame (delta : Q) (bullet : Bullet)
  : Result (option Target) :=
  match spec_collisionTest bullet with
  | Ok None => spec_collisionTest (updatedBullet delta bullet)
  | outcome => outcome
  end.

(** The calls of [onBossHit] a boss hit causes. *)
Definition bossHitNotifications : nat := if onBossHit props then 1 else 0.

End ProjectileNotions.

(** ** Inputs of the examples *)

Module Scenario.

Import Sample.

(** [n] frames, the first at [t0] ms of wall-clock time and one every
    [step] ms, each handed an elapsed time of a sixtieth of a second. *)
Definition frames (t0 step : Q) (n : nat) : list Event :=
  map (fun i => Frame (1 # 60) (t0 + step * inject_Z (Z.of_nat i))) (seq 0 n).

(** The left button held from a second after the page loaded, and frames
    every 17 ms over a window of 250 ms. *)
Definition heldFire : State := dispatch runtime appProps (MouseDown 0 0 0) start.
Definition frames17 : list Event := frames 1000 17 15.

(** The player just after the jump key went down. *)
Definition jumping : State := dispatch runtime appProps (KeyDown " ") start.

(** The camera in AIM mode, entered from the pose the host gave it. *)
Definition aiming : State := dispatch runtime appProps (MouseDown 2 0 0) start.

(** A jump taken while aiming, forty frames after the key went down: a
    frame away from the ground. *)
Definition descending : State :=
  run runtime appProps (KeyDown " " :: frames 0 17 40) aiming.

(** The left button held for looking around. *)
Definition looking : State := heldFire.

(** One directional key held alone, and W and S held together. *)
Definition holding (key : string) : State :=
  dispatch runtime appProps (KeyDown key) start.
Definition walking : State := holding "w".
Definition pulled : State := dispatch runtime appProps (KeyDown "s") walking.

(** A boss whose box holds the muzzle of the gun, no wall, and the state
    after the first shot, the bullet [inside] still at the muzzle; with and
    without the callback. *)
Definition boss : Mesh := mesh 7 (box3 (vec3 0 (- (2)) (- (1))) (vec3 2 2 1)).
Definition bossProps (callback : bool) : PlayerProps :=
  mkProps (vec3 0 0 0) (Some boss) [] callback.
Definition withBullet (callback : bool) : State :=
  run runtime (bossProps callback) [MouseDown 0 0 0; Frame (1 # 60) 1000]
    (initialState (bossProps callback) hostCamera).
Definition inside : Bullet :=
  Eval vm_compute in
    nth 0 (bullets (withBullet false)) (mkBullet 0 (vec3 0 0 0) (vec3 0 0 0) 0 0).

(** The same shot with the boss out of reach and the muzzle inside the
    second of two walls, the first one not mounted. *)
Definition farBoss : Mesh := mesh 7 (box3 (vec3 50 0 50) (vec3 52 4 52)).


End Scenario.

(** ** Notions for the further properties *)

(** The keys [handleKeyDown] and [handleKeyUp] test for. *)
Definition boundKeys : list string :=
  ["w"; "a"; "s"; "d"; " "; "Shift"; "="; "+"; "-"; "_"].

(** A press or release of the left button. *)
Definition isLeftButton (e : Event) : bool :=
  match e with
  | MouseDown button _ _ => (button =? 0)%Z
  | MouseUp button => (button =? 0)%Z
  | _ => false
  end.

(** A saved pose exists in AIM mode only. *)
Definition savedOnlyWhileAiming (st : State) : Prop :=
  isAiming st = false -> savedCameraState st = None.

(** The position of the head: [playerRef.current.position] raised by 0.9. *)
Definition headPosition (st : State) : Vector3 :=
  add (pg_position (playerGroup st)) (vec3 0 0.9 0).

(** The values the dependency array of the aim-camera effect holds. *)
Definition aimDeps (st : State) :=
  (isAiming st, isCrouching st, originalCameraPositionY st,
   (rotationX st, rotationY st)).

(** The state of the look-around drag. *)
Definition pointer (st : State) := (isMouseDown st, mouseX st, rotationY st).

(** The quantity a drag conserves: the yaw plus a hundredth of the
    horizontal position of the pointer. *)
Definition yawAnchor (st : State) : Q := rotationY st + mouseX st * 0.01.

Section MoreNotions.

Variable rt : Runtime.
Variable props : PlayerProps.

(** The height of the player above the origin, and the ground level. *)
Definition height (st : State) : Q := vy (pg_position (playerGroup st)).
Definition groundLevel : Q := vy (initialPosition props).

(** The player is never below the ground, and when not jumping stands on
    it with no vertical velocity. *)
Definition onOrAboveGround (st : State) : Prop :=
  groundLevel <= height st
  /\ (isJumping st = false -> height st == groundLevel /\ jumpVelocity st == 0).


(** Frames given by their elapsed time and their wall-clock time. *)
Definition framesOf (ticks : list (Q * Q)) : list Event :=
  map (fun t => Frame (fst t) (snd t)) ticks.

(** The game time a run lets pass: the sum of the elapsed times handed to
    its frames. *)
Fixpoint elapsed (events : list Event) : Q :=
  match events with
  | [] => 0
  | Frame delta _ :: rest => delta + elapsed rest
  | _ :: rest => elapsed rest
  end.

(** [b'] is [b] after [t] of game time in free flight. *)
Definition flown (t : Q) (b b' : Bullet) : Prop :=
  b_id b' = b_id b
  /\ b_direction b' = b_direction b
  /\ b_velocity b' = b_velocity b
  /\ b_lifespan b' == b_lifespan b - t
  /\ b_position b'
     =v= add (b_position b)
             (multiplyScalar (b_direction b) (b_velocity b * t)).

(** The bullets are listed in the order of their ids, all of them below
    the id the next bullet will take. *)
Definition idsInOrder (st : State) : Prop :=
  StronglySorted lt (map b_id (bullets st))
  /\ Forall (fun b => (b_id b < bulletId st)%nat) (bullets st).

(** Events that leave the dependencies of the aim-camera effect alone:
    frames, keys other than [Shift], the wheel and the left button. *)
Definition keepsAimCamera (e : Event) : bool :=
  match e with
  | Frame _ _ => true
  | KeyDown key | KeyUp key => negb (key =? "Shift")
  | Wheel _ => true
  | MouseDown button _ _ | MouseUp button => (button =? 0)%Z
  | MouseMove _ _ => false
  end.

(** The point the third-person camera is drawn to: the player's position
    plus an offset on the orbit. *)
Definition orbitOffset (st : State) : Vector3 :=
  vec3 (Math_sin rt (rotationY st) * cameraDistance st)
       (cameraHeight + (if isCrouching st then - crouchHeight / 2 else 0))
       (Math_cos rt (rotationY st) * cameraDistance st).

Definition orbitTarget (st : State) : Vector3 :=
  add (pg_position (playerGroup st)) (orbitOffset st).

(** The fields the camera step of a frame works on. *)
Definition view (st : State) :=
  (cameraCurrentPosition st, camera st, playerGroup st).

(** Nothing moves the player: no directional key is held and no jump is
    under way. *)
Definition idle (st : State) : Prop :=
  key_w (keys st) = false /\ key_a (keys st) = false
  /\ key_s (keys st) = false /\ key_d (keys st) = false
  /\ isJumping st = false.

(** The factor left of a gap after [n] frames of smoothing. *)
Fixpoint decay (n : nat) : Q :=
  match n with
  | O => 1
  | S k => (1 - cameraSmoothing) * decay k
  end.

(** A press of the fire (left) button. *)
Definition isFirePress (e : Event) : bool :=
  match e with
  | MouseDown button _ _ => (button =? 0)%Z
  | _ => false
  end.

(** No frame is handed a negative elapsed time. *)
Definition forwardInTime (events : list Event) : Prop :=
  Forall (fun e => match e with
                   | Frame delta _ => 0 <= delta
                   | _ => True
                   end) events.

(** A bullet as it can be found in flight: the speed it was spawned with
    and some of its lifespan left. *)
Definition inFlight (b : Bullet) : Prop :=
  b_velocity b = 20 /\ 0 < b_lifespan b /\ b_lifespan b <= 1.5.

(** The elapsed times of the frames of a run, in order. *)
Definition frameDeltas (events : list Event) : list Q :=
  flat_map (fun e => match e with
                     | Frame delta _ => [delta]
                     | _ => []
                     end) events.

(** The bullets the collision test is called on while [b] flies through
    frames of the given elapsed times: in each frame the bullet as it is
    and the bullet advanced. *)
Fixpoint tested (deltas : list Q) (b : Bullet) : list Bullet :=
  match deltas with
  | [] => []
  | delta :: rest =>
      b :: updatedBullet delta b :: tested rest (updatedBullet delta b)
  end.

(** Every test on the way of the bullet returns without a hit. *)
Definition missesAlong (deltas : list Q) (b : Bullet) : Prop :=
  Forall (fun p => checkBulletCollision rt props p = Ok (false, 0%nat))
    (tested deltas b).

(** Every call of [onBossHit] is paid for by a bullet that is gone. *)
Definition callsAccounted (st : State) : Prop :=
  (bossHitCalls st + List.length (bullets st) <= bulletId st)%nat.

(** A call of the frame callback. *)
Definition isFrame (e : Event) : bool :=
  match e with
  | Frame _ _ => true
  | _ => false
  end.

(** What the keys of a frame ask for along the forward and the right
    axis. *)
Definition along (st0 : State) : Q :=
  (if key_w (keys st0) then speed st0 else 0)
  - (if key_s (keys st0) then speed st0 else 0).

Definition across (st0 : State) : Q :=
  (if key_d (keys st0) then speed st0 else 0)
  - (if key_a (keys st0) then speed st0 else 0).

(** ** The recoil

    [recoilProgress] drives the recoil animation of the gun and is read by
    nothing else, so it is followed beside the state: a frame that finds
    it positive lowers it by ten times the elapsed time, not below 0
    (lines 465-467), and a frame that fires sets it to 1 (line 550), the
    later of the two updates of the frame. *)
Definition frame_recoil (delta : Q) (fires : bool) (recoilProgress : Q) : Q :=
  let decayed :=
    if Qltb 0 recoilProgress
    then Math_max 0 (recoilProgress - delta * 10)
    else recoilProgress in
  if fires then 1 else decayed.

(** [recoilProgress] after a run started at [st] with the value [r]. *)
Fixpoint recoilAfter (events : list Event) (st : State) (r : Q) : Q :=
  match events with
  | [] => r
  | e :: rest =>
      recoilAfter rest (dispatch rt props e st)
        match e with
        | Frame delta now => frame_recoil delta (mayFire now st) r
        | _ => r
        end
  end.

End MoreNotions.

(** ** Inputs of the further examples *)

Module Situation.

Import Sample Scenario.

(** The state after the first shot of [App]'s player, the bullet it
    spawned, and the first bullet a frame half a second later holds. *)
Definition shot : State :=
  run runtime appProps [MouseDown 0 0 0; Frame (1 # 60) 1000] start.
Definition round : Bullet :=
  Eval vm_compute in
    nth 0 (bullets shot) (mkBullet 0 (vec3 0 0 0) (vec3 0 0 0) 0 0).
Definition later : Bullet :=
  Eval vm_compute in
    nth 0 (bullets (run runtime appProps [Frame (1 # 2) 1500] shot))
      (mkBullet 0 (vec3 0 0 0) (vec3 0 0 0) 0 0).

(** The same shot in a scene with a boss and a wall, both mounted and both
    out of reach of a second of flight. *)
Definition farWall : Mesh := mesh 9 (box3 (vec3 (- (60)) 0 0) (vec3 (- (58)) 4 4)).
Definition rangeProps : PlayerProps :=
  mkProps (vec3 0 0 0) (Some farBoss) [Some farWall] true.
Definition rangeShot : State :=
  run runtime rangeProps [MouseDown 0 0 0; Frame (1 # 60) 1000]
    (initialState rangeProps hostCamera).

(** The trigger released after the shot. *)
Definition released : State := dispatch runtime appProps (MouseUp 0) shot.

(** W and D held together. *)
Definition diagonal : State := dispatch runtime appProps (KeyDown "d") walking.

(** A second of flight in two frames, with the trigger released first. *)
Definition flight : list Event :=
  [MouseUp 0; Frame (1 # 2) 1500; Frame (1 # 2) 2000].


(** Walking and jumping while aiming. *)
Definition roaming : list Event :=
  [KeyDown "w"; Frame (1 # 60) 0; KeyDown " "; Frame (1 # 60) 17;
   MouseDown 0 0 0; Wheel 1; Frame (1 # 60) 34].

End Situation.

(** * Properties *)

(** ** Reasoning about the handlers *)

(** Splits on every test a goal branches on. *)
Ltac split_tests :=
  repeat match goal with
    | |- context [if ?c then _ else _] => destruct c
    | |- context [match ?o with Some _ => _ | None => _ end] => destruct o
    | |- context [let (_, _) := ?p in _] => destruct p
    | |- context [match ?r with Ok _ => _ | TypeError => _ end] => destruct r
    end.

Ltac unfold_handlers :=
  unfold dispatch, handle, handleKeyDown, handleKeyUp, handleMouseDown,
    handleMouseUp, handleMouseMove, handleWheel, aimCameraEffect,
    frame_move, frame_jump, frame_camera, frame_bullets, frame_fire,
    movePlayer, setKeys, setCameraDistance, set_camera_position,
    set_camera_rotation, set_player_position, set_player_rotation_y, when.

(** A field that no branch of a handler writes. *)
Ltac untouched := intros; unfold_handlers; split_tests; reflexivity.

Lemma clamp_pitch (v : Q) :
  - Math_PI / 2 <= Math_max (- Math_PI / 2) (Math_min (Math_PI / 2) v)
  /\ Math_max (- Math_PI / 2) (Math_min (Math_PI / 2) v) <= Math_PI / 2.
Proof.
  unfold Math_max, Math_min. split.
  - apply Q.le_max_l.
  - apply Q.max_lub; [ discriminate | apply Q.le_min_l ].
Qed.

Section Handlers.

Variable rt : Runtime.
Variable props : PlayerProps.

(** *** What a frame leaves alone *)

Lemma frame_move_controls st0 st :
  controls (frame_move rt st0 st) = controls st.
Proof. untouched. Qed.

Lemma frame_jump_controls st0 st :
  controls (frame_jump props st0 st) = controls st.
Proof. untouched. Qed.

Lemma frame_camera_controls st0 st :
  controls (frame_camera rt st0 st) = controls st.
Proof. untouched. Qed.

Lemma frame_bullets_controls delta st :
  controls (frame_bullets rt props delta st) = controls st.
Proof. untouched. Qed.

Lemma frame_fire_controls now st0 st :
  controls (frame_fire rt now st0 st) = controls st.
Proof. untouched. Qed.

Lemma useFrame_controls delta now st :
  controls (useFrame rt props delta now st) = controls st.
Proof.
  unfold useFrame.
  rewrite frame_fire_controls, frame_bullets_controls, frame_camera_controls.
  transitivity (controls (frame_jump props st (frame_move rt st (oriented st)))).
  { reflexivity. }
  rewrite frame_jump_controls, frame_move_controls.
  unfold oriented, when. destruct (negb _); reflexivity.
Qed.

(** The fields of [controls], one by one. *)
Ltac by_controls :=
  intros;
  match goal with
  | |- context [useFrame ?rt ?props ?delta ?now ?st] =>
      let H := fresh in
      pose proof (useFrame_controls delta now st) as H;
      unfold controls in H; congruence
  end.

Lemma useFrame_rotationX delta now st :
  rotationX (useFrame rt props delta now st) = rotationX st.
Proof. by_controls. Qed.

Lemma useFrame_rotationY delta now st :
  rotationY (useFrame rt props delta now st) = rotationY st.
Proof. by_controls. Qed.

Lemma useFrame_isAiming delta now st :
  isAiming (useFrame rt props delta now st) = isAiming st.
Proof. by_controls. Qed.

Lemma useFrame_isCrouching delta now st :
  isCrouching (useFrame rt props delta now st) = isCrouching st.
Proof. by_controls. Qed.

Lemma useFrame_originalCameraPositionY delta now st :
  originalCameraPositionY (useFrame rt props delta now st)
  = originalCameraPositionY st.
Proof. by_controls. Qed.

(** A frame changes none of the dependencies of the aim-camera effect, so
    dispatching it is running the frame callback. *)
Lemma dispatch_Frame delta now st :
  dispatch rt props (Frame delta now) st = useFrame rt props delta now st.
Proof.
  unfold dispatch, aimDepsChanged, when. simpl handle.
  rewrite useFrame_isAiming, useFrame_isCrouching,
    useFrame_originalCameraPositionY, useFrame_rotationX, useFrame_rotationY.
  rewrite !Bool.eqb_reflx, !Qeq_bool_refl. reflexivity.
Qed.


(** *** The pitch *)

Lemma aimCameraEffect_rotationX st :
  rotationX (aimCameraEffect st) = rotationX st.
Proof. untouched. Qed.

Lemma handle_pitchInRange e st :
  pitchInRange st -> pitchInRange (handle rt props e st).
Proof.
  unfold pitchInRange. intros H.
  destruct e as [key|key|button x y|button|x y|deltaY|delta now];
    try (replace (rotationX (handle rt props _ st)) with (rotationX st);
         [ exact H | simpl handle; first [ by_controls | untouched ] ]).
  simpl. unfold handleMouseMove, when.
  destruct (isMouseDown st); [ apply clamp_pitch | exact H ].
Qed.

Lemma dispatch_pitchInRange e st :
  pitchInRange st -> pitchInRange (dispatch rt props e st).
Proof.
  intros H. apply (handle_pitchInRange e) in H.
  unfold dispatch, when, pitchInRange in *.
  destruct (aimDepsChanged _ _); [ rewrite aimCameraEffect_rotationX | ]; exact H.
Qed.

(** An invariant of [dispatch] holds after every run. *)
Lemma run_invariant (P : State -> Prop) :
  (forall e st, P st -> P (dispatch rt props e st)) ->
  forall events st, P st -> P (run rt props events st).
Proof.
  intros Hstep events. induction events as [|e events IH]; intros st H.
  - exact H.
  - apply IH, Hstep, H.
Qed.

(** C6: whatever the events and frames since mounting, the pitch
    [rotationX] lies in [[-PI/2, PI/2]]. *)
Theorem pitch_always_clamped (hostCamera : CameraPose) (events : list Event) :
  pitchInRange (run rt props events (initialState props hostCamera)).
Proof.
  apply run_invariant.
  - apply dispatch_pitchInRange.
  - split; discriminate.
Qed.


(** *** The aim toggle *)

Lemma run_app events1 events2 st :
  run rt props (events1 ++ events2) st
  = run rt props events2 (run rt props events1 st).
Proof. apply fold_left_app. Qed.

Lemma aimCameraEffect_aimHeld c st :
  aimHeld c st -> aimHeld c (aimCameraEffect st).
Proof.
  intros [Ha Hs]. unfold aimHeld, aimCameraEffect. rewrite Ha.
  split_tests; split; assumption.
Qed.

Lemma handle_aimHeld c e st :
  isAimButton e = false -> aimHeld c st -> aimHeld c (handle rt props e st).
Proof.
  intros He [Ha Hs]. unfold aimHeld.
  destruct e as [key|key|button x y|button|x y|deltaY|delta now];
    simpl handle; simpl in He;
    try (replace (isAiming _) with (isAiming st)
           by first [ by_controls | untouched ];
         replace (savedCameraState _) with (savedCameraState st)
           by first [ by_controls | untouched ];
         split; assumption).
  - unfold handleMouseDown, when. rewrite He.
    destruct (button =? 0)%Z; split; assumption.
  - unfold handleMouseUp, when. rewrite He.
    destruct (button =? 0)%Z; split; assumption.
Qed.

Lemma dispatch_aimHeld c e st :
  isAimButton e = false -> aimHeld c st -> aimHeld c (dispatch rt props e st).
Proof.
  intros He H. apply (handle_aimHeld c e st He) in H.
  unfold dispatch, when. destruct (aimDepsChanged _ _); [ | exact H ].
  apply aimCameraEffect_aimHeld, H.
Qed.

Lemma run_aimHeld c events st :
  Forall (fun e => isAimButton e = false) events ->
  aimHeld c st -> aimHeld c (run rt props events st).
Proof.
  intros Hev. revert st.
  induction Hev as [|e events He _ IH]; intros st H; [ exact H | ].
  apply IH, dispatch_aimHeld; assumption.
Qed.

Lemma aim_down_aimHeld x y st :
  aimHeld (mkPose (position (camera st)) (rotation (camera st)))
    (dispatch rt props (MouseDown 2 x y) st).
Proof.
  unfold dispatch, when.
  assert (H : aimHeld (mkPose (position (camera st)) (rotation (camera st)))
                (handle rt props (MouseDown 2 x y) st))
    by (split; reflexivity).
  destruct (aimDepsChanged _ _); [ apply aimCameraEffect_aimHeld | ]; exact H.
Qed.

Lemma aim_up_restores c st :
  aimHeld c st ->
  position (camera (dispatch rt props (MouseUp 2) st)) = position c
  /\ rotation (camera (dispatch rt props (MouseUp 2) st)) = rotation c
  /\ savedCameraState (dispatch rt props (MouseUp 2) st) = None
  /\ isAiming (dispatch rt props (MouseUp 2) st) = false.
Proof.
  intros [Ha Hs].
  unfold dispatch, aimDepsChanged, when, aimCameraEffect. simpl.
  rewrite Ha, Hs. simpl. repeat split.
Qed.

(** C5: from any state, pressing the aim button and releasing it, with any
    events in between other than the aim button itself (so in particular
    with no mouse movement), gives the camera the position and rotation it
    had before the press, and leaves no saved pose. *)
Theorem aim_toggle_restores_camera (st : State) (x y : Q) (between : list Event) :
  Forall (fun e => isAimButton e = false) between ->
  let st' := run rt props (MouseDown 2 x y :: between ++ [MouseUp 2]) st in
  position (camera st') = position (camera st)
  /\ rotation (camera st') = rotation (camera st)
  /\ savedCameraState st' = None.
Proof.
  intros Hev st'. subst st'.
  change (run rt props (MouseDown 2 x y :: between ++ [MouseUp 2]) st)
    with (run rt props (between ++ [MouseUp 2])
            (dispatch rt props (MouseDown 2 x y) st)).
  rewrite run_app.
  pose proof (run_aimHeld _ between _ Hev (aim_down_aimHeld x y st)) as Hheld.
  set (held := run rt props between _) in *.
  change (run rt props [MouseUp 2] held)
    with (dispatch rt props (MouseUp 2) held).
  destruct (aim_up_restores _ _ Hheld) as (Hp & Hr & Hs & _).
  rewrite Hp, Hr, Hs. auto.
Qed.


(** *** Repeated aim presses *)

(** A press of the aim button in AIM mode keeps the mode and the camera but
    replaces the saved pose by the pose of the camera at that moment. *)
Lemma aim_down_again x y st :
  isAiming st = true ->
  let st' := dispatch rt props (MouseDown 2 x y) st in
  isAiming st' = true /\ camera st' = camera st
  /\ savedCameraState st'
     = Some (mkPose (position (camera st)) (rotation (camera st))).
Proof.
  intros Ha. unfold dispatch, aimDepsChanged, when. simpl.
  rewrite Ha. simpl. rewrite Bool.eqb_reflx, !Qeq_bool_refl. simpl. auto.
Qed.

(** *** The orbit distance *)

Lemma aimDepsChanged_same st : aimDepsChanged st st = false.
Proof.
  unfold aimDepsChanged. rewrite !Bool.eqb_reflx, !Qeq_bool_refl. reflexivity.
Qed.

(** In AIM mode the wheel does nothing at all. *)
Lemma wheel_ignored_while_aiming deltaY st :
  isAiming st = true -> dispatch rt props (Wheel deltaY) st = st.
Proof.
  intros Ha.
  assert (H : handle rt props (Wheel deltaY) st = st).
  { simpl. unfold handleWheel, when. rewrite Ha. reflexivity. }
  unfold dispatch, when. rewrite H, aimDepsChanged_same. reflexivity.
Qed.

Lemma aimCameraEffect_cameraDistance st :
  cameraDistance (aimCameraEffect st) = cameraDistance st.
Proof. untouched. Qed.

Lemma clamp_distance (v : Q) :
  minCameraDistance
  <= Math_max minCameraDistance (Math_min maxCameraDistance v)
  /\ Math_max minCameraDistance (Math_min maxCameraDistance v)
     <= maxCameraDistance.
Proof.
  unfold Math_max, Math_min. split.
  - apply Q.le_max_l.
  - apply Q.max_lub; [ discriminate | apply Q.le_min_l ].
Qed.

Lemma handleKeyDown_cameraDistance key st :
  cameraDistance (handleKeyDown key st)
  = let d := if (key =? "=") || (key =? "+")
             then Math_max minCameraDistance (cameraDistance st - 0.5)
             else cameraDistance st in
    if (key =? "-") || (key =? "_")
    then Math_min maxCameraDistance (d + 0.5)
    else d.
Proof. untouched. Qed.

Lemma handle_distanceInRange e st :
  distanceInRange st -> distanceInRange (handle rt props e st).
Proof.
  unfold distanceInRange. intros [Hlo Hhi].
  destruct e as [key|key|button x y|button|x y|deltaY|delta now];
    try (replace (cameraDistance (handle rt props _ st))
           with (cameraDistance st);
         [ split; assumption
         | simpl handle; first [ by_controls | untouched ] ]).
  - simpl. rewrite handleKeyDown_cameraDistance.
    unfold Math_max, Math_min, minCameraDistance, maxCameraDistance in *.
    assert (H1 : 3 <= Qmax 3 (cameraDistance st - 0.5)
                 /\ Qmax 3 (cameraDistance st - 0.5) <= 8).
    { split; [ apply Q.le_max_l | apply Q.max_lub; lra ]. }
    cbv zeta.
    destruct ((key =? "=") || (key =? "+")), ((key =? "-") || (key =? "_"));
      split;
      try apply Q.le_min_l; try apply Q.min_glb; try lra; tauto.
  - simpl. unfold handleWheel, when, setCameraDistance.
    destruct (negb (isAiming st)); [ apply clamp_distance | split; assumption ].
Qed.

(** Since mounting the orbit distance has stayed within its bounds. *)
Lemma distance_always_in_range (hostCamera : CameraPose) (events : list Event) :
  distanceInRange (run rt props events (initialState props hostCamera)).
Proof.
  apply run_invariant.
  - intros e st H. apply (handle_distanceInRange e) in H.
    unfold dispatch, when, distanceInRange in *.
    destruct (aimDepsChanged _ _);
      [ rewrite aimCameraEffect_cameraDistance | ]; exact H.
  - split; discriminate.
Qed.

(** *** Mouse movement *)

Lemma aimCameraEffect_rotationY st :
  rotationY (aimCameraEffect st) = rotationY st.
Proof. untouched. Qed.

(** C8, as the code has it: there is no sanity threshold.  While the left
    button is held every mouse move is applied, whatever its size: the yaw
    decreases by a hundredth of the horizontal delta, the pitch by a
    hundredth of the vertical delta (then clamped to [[-PI/2, PI/2]]), and
    the pointer position is recorded. *)
Theorem mouse_move_applies_every_delta (st : State) (clientX clientY : Q) :
  isMouseDown st = true ->
  let st' := dispatch rt props (MouseMove clientX clientY) st in
  rotationY st' = rotationY st - (clientX - mouseX st) * 0.01
  /\ rotationX st'
     = Math_max (- Math_PI / 2)
         (Math_min (Math_PI / 2) (rotationX st - (clientY - mouseY st) * 0.01))
  /\ mouseX st' = clientX /\ mouseY st' = clientY.
Proof.
  intros Hd st'. subst st'. unfold dispatch, when.
  assert (H : handle rt props (MouseMove clientX clientY) st
              = st |> set_rotationY (rotationY st - (clientX - mouseX st) * 0.01)
                   |> set_rotationX
                        (Math_max (- Math_PI / 2)
                           (Math_min (Math_PI / 2)
                              (rotationX st - (clientY - mouseY st) * 0.01)))
                   |> set_mouseX clientX
                   |> set_mouseY clientY).
  { simpl. unfold handleMouseMove, when. rewrite Hd. reflexivity. }
  rewrite H.
  destruct (aimDepsChanged _ _).
  - rewrite aimCameraEffect_rotationX, aimCameraEffect_rotationY.
    repeat split; untouched.
  - repeat split.
Qed.

End Handlers.

(** ** The frame callback *)

Section Frames.

Variable rt : Runtime.
Variable props : PlayerProps.

Lemma forward_level st0 : vy (frameForward rt st0) == 0.
Proof.
  unfold frameForward, getPlayerForward, normalize, multiplyScalar; simpl.
  ring.
Qed.

Lemma right_level st0 : vy (frameRight rt st0) == 0.
Proof.
  unfold frameRight, normalize, multiplyScalar, crossVectors; simpl. ring.
Qed.

Lemma walk_level st0 : vy (walkDisplacement rt st0) == 0.
Proof.
  pose proof (forward_level st0) as Hf. pose proof (right_level st0) as Hr.
  unfold walkDisplacement, walkBy, contribution.
  destruct (key_w _), (key_s _), (key_a _), (key_d _);
    unfold add, multiplyScalar; simpl; rewrite ?Hf, ?Hr; ring.
Qed.

Lemma oriented_forward st0 :
  getPlayerForward rt (playerGroup (oriented st0)) = frameForward rt st0.
Proof.
  unfold oriented, frameForward, frameYaw, getPlayerForward, when.
  destruct (initialRotationSet st0); reflexivity.
Qed.

Lemma oriented_position st0 :
  pg_position (playerGroup (oriented st0)) = pg_position (playerGroup st0).
Proof. unfold oriented, when. destruct (initialRotationSet st0); reflexivity. Qed.

Lemma frame_move_position st0 :
  movedPosition rt st0
  =v= add (pg_position (playerGroup st0)) (walkDisplacement rt st0).
Proof.
  unfold movedPosition, frame_move, walkDisplacement, walkBy, frameRight.
  rewrite oriented_forward.
  set (f := frameForward rt st0).
  set (r := normalize rt (crossVectors (vec3 0 1 0) f)).
  unfold when, movePlayer, contribution.
  destruct (key_w _), (key_s _), (key_a _), (key_d _); simpl;
    rewrite oriented_position;
    unfold veq, add, multiplyScalar; simpl; repeat split; ring.
Qed.

(** *** The jump *)

Lemma after_jump_playerGroup delta now st0 st :
  pg_position
    (playerGroup
       (frame_fire rt now st0
          (frame_bullets rt props delta
             (frame_camera rt st0 (set_player_rotation_y (rotationY st0) st)))))
  = pg_position (playerGroup st).
Proof. untouched. Qed.

Lemma after_jump_jumpVelocity delta now st0 st :
  jumpVelocity
    (frame_fire rt now st0
       (frame_bullets rt props delta
          (frame_camera rt st0 (set_player_rotation_y (rotationY st0) st))))
  = jumpVelocity st.
Proof. untouched. Qed.

Lemma after_jump_isJumping delta now st0 st :
  isJumping
    (frame_fire rt now st0
       (frame_bullets rt props delta
          (frame_camera rt st0 (set_player_rotation_y (rotationY st0) st))))
  = isJumping st.
Proof. untouched. Qed.

Lemma frame_move_isJumping st0 st :
  isJumping (frame_move rt st0 st) = isJumping st.
Proof. untouched. Qed.

Lemma oriented_isJumping st0 : isJumping (oriented st0) = isJumping st0.
Proof. unfold oriented. untouched. Qed.

(** One frame of an airborne player, in terms of the height [y] reached by
    the walk of the same frame. *)
Lemma useFrame_airborne delta now st0 :
  isJumping st0 = true ->
  let y := vy (movedPosition rt st0) in
  let st' := useFrame rt props delta now st0 in
  if Qleb (y + jumpVelocity st0) (vy (initialPosition props))
  then vy (pg_position (playerGroup st')) = vy (initialPosition props)
       /\ jumpVelocity st' = 0 /\ isJumping st' = false
  else vy (pg_position (playerGroup st')) = y + jumpVelocity st0
       /\ jumpVelocity st' = jumpVelocity st0 - gravity
       /\ isJumping st' = true.
Proof.
  intros Hj y st'. subst y st'. unfold useFrame. fold (oriented st0).
  rewrite after_jump_playerGroup, after_jump_jumpVelocity, after_jump_isJumping.
  unfold movedPosition.
  pose proof (frame_move_isJumping st0 (oriented st0)) as Hm.
  rewrite oriented_isJumping, Hj in Hm.
  set (st := frame_move rt st0 (oriented st0)) in *.
  unfold frame_jump, when. rewrite Hj. simpl.
  destruct (Qleb _ _); simpl; auto.
Qed.


Lemma moved_height st0 :
  vy (movedPosition rt st0) == vy (pg_position (playerGroup st0)).
Proof.
  destruct (frame_move_position st0) as (_ & Hy & _).
  rewrite Hy. unfold add. cbn [vy]. rewrite walk_level. ring.
Qed.

(** C3, as the code has it: a frame of an airborne player lowers the
    vertical velocity by [gravity] and raises the height by the velocity
    the frame started with, whatever the elapsed [delta]; when the height
    so reached is at or below the ground level, the height is the ground
    level, the velocity is zero and the player is grounded again. *)
Theorem jump_integrates_per_frame (delta now : Q) (st0 : State) :
  isJumping st0 = true ->
  let y := vy (pg_position (playerGroup st0)) in
  let v := jumpVelocity st0 in
  let ground := vy (initialPosition props) in
  let st' := useFrame rt props delta now st0 in
  (ground < y + v ->
   vy (pg_position (playerGroup st')) == y + v
   /\ jumpVelocity st' == v - gravity
   /\ isJumping st' = true)
  /\ (y + v <= ground ->
      vy (pg_position (playerGroup st')) == ground
      /\ jumpVelocity st' == 0
      /\ isJumping st' = false).
Proof.
  intros Hj y v ground st'. subst y v ground st'.
  pose proof (useFrame_airborne delta now st0 Hj) as H. cbv zeta in H.
  pose proof (moved_height st0) as Hy.
  unfold Qleb in H.
  destruct (Qle_bool _ _) eqn:Hland.
  - apply Qle_bool_iff in Hland. rewrite Hy in Hland.
    destruct H as (H1 & H2 & H3). rewrite H1, H2, H3. split.
    + intros Hlt. lra.
    + intros _. repeat split; reflexivity.
  - assert (Hair : ~ vy (movedPosition rt st0) + jumpVelocity st0
                     <= vy (initialPosition props)).
    { intros Hle. apply Qle_bool_iff in Hle. congruence. }
    rewrite Hy in Hair.
    destruct H as (H1 & H2 & H3). rewrite H1, H2, H3, Hy. split.
    + intros _. repeat split; reflexivity.
    + intros Hle. contradiction.
Qed.

(** *** The walk *)

Lemma useFrame_horizontal delta now st0 :
  vx (pg_position (playerGroup (useFrame rt props delta now st0)))
  = vx (movedPosition rt st0)
  /\ vz (pg_position (playerGroup (useFrame rt props delta now st0)))
     = vz (movedPosition rt st0).
Proof.
  unfold useFrame. fold (oriented st0). rewrite after_jump_playerGroup.
  unfold movedPosition, frame_jump, when.
  split; split_tests; reflexivity.
Qed.

(** The horizontal displacement of a frame is the sum of the contributions
    of the keys held. *)
Lemma frame_walk delta now st0 :
  vx (frameDisplacement rt props delta now st0) == vx (walkDisplacement rt st0)
  /\ vz (frameDisplacement rt props delta now st0) == vz (walkDisplacement rt st0).
Proof.
  destruct (useFrame_horizontal delta now st0) as [Hx Hz].
  destruct (frame_move_position st0) as (Mx & _ & Mz).
  unfold frameDisplacement; simpl. rewrite Hx, Hz, Mx, Mz. simpl.
  split; ring.
Qed.

(** The position a frame gives the player does not depend on the elapsed
    time handed to the frame. *)
Lemma frame_position_ignores_delta delta now delta' now' st0 :
  frameDisplacement rt props delta now st0
  = frameDisplacement rt props delta' now' st0.
Proof.
  unfold frameDisplacement, useFrame. fold (oriented st0).
  rewrite !after_jump_playerGroup. reflexivity.
Qed.

(** C9: the speed of a frame is [normalSpeed * crouchSpeedMultiplier] when
    the player crouches and [normalSpeed] otherwise, and the horizontal
    displacement of the frame is made of contributions of that size; for a
    crouch multiplier [m < 1] the crouched speed [normalSpeed * m] is
    strictly below [normalSpeed], as it is for the multiplier of the code. *)
Theorem crouch_speed (m : Q) (delta now : Q) (st0 : State) :
  m < 1 ->
  let used := if isCrouching st0 then normalSpeed * crouchSpeedMultiplier
              else normalSpeed in
  speed st0 = used
  /\ vx (frameDisplacement rt props delta now st0) == vx (walkBy rt used st0)
  /\ vz (frameDisplacement rt props delta now st0) == vz (walkBy rt used st0)
  /\ speedFor normalSpeed m true == normalSpeed * m
  /\ speedFor normalSpeed m true < speedFor normalSpeed m false
  /\ speedFor normalSpeed crouchSpeedMultiplier true
     < speedFor normalSpeed crouchSpeedMultiplier false.
Proof.
  intros Hm used. destruct (frame_walk delta now st0) as [Hx Hz].
  repeat split; try assumption; try reflexivity.
  unfold speedFor, normalSpeed. lra.
Qed.

Lemma right_orthogonal st0 :
  dot (frameForward rt st0) (frameRight rt st0) == 0.
Proof.
  unfold frameRight, normalize, dot, crossVectors, multiplyScalar; simpl. ring.
Qed.

(** The walk of a frame, as a combination of the two axes. *)
Lemma walk_components st0 :
  let f := frameForward rt st0 in
  let r := frameRight rt st0 in
  let along := (if key_w (keys st0) then speed st0 else 0)
               - (if key_s (keys st0) then speed st0 else 0) in
  let across := (if key_d (keys st0) then speed st0 else 0)
                - (if key_a (keys st0) then speed st0 else 0) in
  vx (walkDisplacement rt st0) == along * vx f + across * vx r
  /\ vz (walkDisplacement rt st0) == along * vz f + across * vz r.
Proof.
  unfold walkDisplacement, walkBy, contribution.
  destruct (key_w _), (key_s _), (key_a _), (key_d _);
    unfold add, multiplyScalar; simpl; split; ring.
Qed.

(** The part of [p * u + q * v] along the unit vector [u], for [v]
    orthogonal to [u], whatever the vertical part [h]. *)
Lemma combination_along (ux uz wx wz p q h : Q) :
  ux * ux + uz * uz == 1 -> wx * ux + wz * uz == 0 ->
  (p * ux + q * wx) * ux + h * 0 + (p * uz + q * wz) * uz == p.
Proof.
  intros H1 H2.
  transitivity (p * (ux * ux + uz * uz) + q * (wx * ux + wz * uz)); [ ring | ].
  rewrite H1, H2. ring.
Qed.

Lemma combination_across (ux uz wx wz p q h : Q) :
  wx * wx + wz * wz == 1 -> ux * wx + uz * wz == 0 ->
  (p * ux + q * wx) * wx + h * 0 + (p * uz + q * wz) * wz == q.
Proof.
  intros H1 H2.
  transitivity (q * (wx * wx + wz * wz) + p * (ux * wx + uz * wz)); [ ring | ].
  rewrite H1, H2. ring.
Qed.

(** C10, as the code has it: in a frame where a directional key is held and
    the opposite key is not, the displacement of the player along the axis
    of the key ([forward] for W and S, [right] for A and D, each a unit
    vector) is the speed of the frame, with the sign of the key; where both
    keys of an axis are held their contributions cancel and the
    displacement along the axis is zero; and the displacement does not
    depend on the elapsed time handed to the frame. *)
Theorem walk_step_per_frame (delta now : Q) (st0 : State) :
  lengthSq (frameForward rt st0) == 1 ->
  lengthSq (frameRight rt st0) == 1 ->
  let d := frameDisplacement rt props delta now st0 in
  (key_w (keys st0) = true -> key_s (keys st0) = false ->
   dot d (frameForward rt st0) == speed st0)
  /\ (key_s (keys st0) = true -> key_w (keys st0) = false ->
      dot d (frameForward rt st0) == - speed st0)
  /\ (key_a (keys st0) = true -> key_d (keys st0) = false ->
      dot d (frameRight rt st0) == - speed st0)
  /\ (key_d (keys st0) = true -> key_a (keys st0) = false ->
      dot d (frameRight rt st0) == speed st0)
  /\ (key_w (keys st0) = true -> key_s (keys st0) = true ->
      dot d (frameForward rt st0) == 0)
  /\ (key_a (keys st0) = true -> key_d (keys st0) = true ->
      dot d (frameRight rt st0) == 0)
  /\ (forall delta' now', frameDisplacement rt props delta' now' st0 = d).
Proof.
  intros Hf Hr d. subst d.
  destruct (frame_walk delta now st0) as [Hx Hz].
  destruct (walk_components st0) as [Wx Wz]. cbv zeta in Wx, Wz.
  pose proof (forward_level st0) as Fy. pose proof (right_level st0) as Ry.
  pose proof (right_orthogonal st0) as Ho.
  unfold dot, lengthSq in *. rewrite Hx, Hz, Fy, Ry, Wx, Wz.
  clear Hx Hz Wx Wz.
  rewrite Fy, Ry in Ho. rewrite Fy in Hf. rewrite Ry in Hr.
  set (f := frameForward rt st0) in *. set (r := frameRight rt st0) in *.
  assert (Hrf : vx r * vx f + vz r * vz f == 0) by (rewrite <- Ho; ring).
  assert (Hfr : vx f * vx r + vz f * vz r == 0) by (rewrite <- Ho; ring).
  assert (Hff : vx f * vx f + vz f * vz f == 1) by (rewrite <- Hf; ring).
  assert (Hrr : vx r * vx r + vz r * vz r == 1) by (rewrite <- Hr; ring).
  set (along := _ - _). set (across := _ - _).
  rewrite !(combination_along _ _ _ _ _ _ _ Hff Hrf).
  rewrite !(combination_across _ _ _ _ _ _ _ Hrr Hfr).
  subst along across. repeat split.
  - intros Hw Hs. rewrite Hw, Hs. ring.
  - intros Hs Hw. rewrite Hw, Hs. ring.
  - intros Ha Hd. rewrite Ha, Hd. ring.
  - intros Hd Ha. rewrite Ha, Hd. ring.
  - intros Hw Hs. rewrite Hw, Hs. ring.
  - intros Ha Hd. rewrite Ha, Hd. ring.
  - intros delta' now'. apply frame_position_ignores_delta.
Qed.


(** *** The projectile fields through a frame *)

Lemma frame_move_arsenal st0 st : arsenal (frame_move rt st0 st) = arsenal st.
Proof. untouched. Qed.

Lemma frame_jump_arsenal st0 st :
  arsenal (frame_jump props st0 st) = arsenal st.
Proof. untouched. Qed.

Lemma frame_camera_arsenal st0 st :
  arsenal (frame_camera rt st0 st) = arsenal st.
Proof. untouched. Qed.

Lemma oriented_arsenal st0 : arsenal (oriented st0) = arsenal st0.
Proof. unfold oriented. untouched. Qed.

Lemma beforeBullets_arsenal st0 : arsenal (beforeBullets rt props st0) = arsenal st0.
Proof.
  unfold beforeBullets. rewrite frame_camera_arsenal.
  transitivity (arsenal (frame_jump props st0 (frame_move rt st0 (oriented st0))));
    [ reflexivity | ].
  rewrite frame_jump_arsenal, frame_move_arsenal. apply oriented_arsenal.
Qed.

Lemma useFrame_steps delta now st0 :
  useFrame rt props delta now st0
  = frame_fire rt now st0 (frame_bullets rt props delta (beforeBullets rt props st0)).
Proof. reflexivity. Qed.

(** What the update of the bullets leaves in the state. *)
Lemma frame_bullets_fields delta st :
  let st' := frame_bullets rt props delta st in
  bullets st' = survivors rt props delta (bullets st)
  /\ bossHitCalls st'
     = (bossHitCalls st + snd (updateBullets rt props delta (bullets st)))%nat
  /\ crashed st' = crashed st || throws rt props delta (bullets st)
  /\ bulletId st' = bulletId st
  /\ lastFireTime st' = lastFireTime st.
Proof.
  unfold frame_bullets, survivors, throws.
  destruct (updateBullets rt props delta (bullets st)) as [[live|] calls];
    cbn; rewrite ?orb_false_r, ?orb_true_r; repeat split.
Qed.

(** What the shot leaves in the state. *)
Lemma frame_fire_fields now st0 st :
  let fires := isFiring st0 && Qltb fireRate (now - lastFireTime st) in
  let st' := frame_fire rt now st0 st in
  crashed st' = crashed st
  /\ bossHitCalls st' = bossHitCalls st
  /\ lastFireTime st' = (if fires then now else lastFireTime st)
  /\ bulletId st'
     = (if fires && negb (crashed st) then S (bulletId st) else bulletId st)
  /\ exists position direction,
       bullets st'
       = bullets st
         ++ (if fires && negb (crashed st)
             then [mkBullet (bulletId st) position direction 20 1.5]
             else []).
Proof.
  unfold frame_fire, when.
  destruct (isFiring st0 && _); cbn [andb].
  - destruct (crashed st) eqn:Hc; cbn [negb].
    + cbn. rewrite Hc. do 4 (split; [ reflexivity | ]).
      exists (vec3 0 0 0), (vec3 0 0 0). rewrite app_nil_r. reflexivity.
    + cbn. rewrite Hc. do 4 (split; [ reflexivity | ]).
      do 2 eexists. reflexivity.
  - do 4 (split; [ reflexivity | ]).
    exists (vec3 0 0 0), (vec3 0 0 0). rewrite app_nil_r. reflexivity.
Qed.

(** The projectile fields after a frame: the update of the bullets, then
    the shot, which adds a bullet when the frame may fire and the render
    has not failed. *)
Lemma useFrame_projectiles delta now st0 :
  let fires := mayFire now st0 in
  let dead := crashed st0 || throws rt props delta (bullets st0) in
  let st' := useFrame rt props delta now st0 in
  crashed st' = dead
  /\ bossHitCalls st'
     = (bossHitCalls st0 + snd (updateBullets rt props delta (bullets st0)))%nat
  /\ lastFireTime st' = (if fires then now else lastFireTime st0)
  /\ bulletId st'
     = (if fires && negb dead then S (bulletId st0) else bulletId st0)
  /\ exists position direction,
       bullets st'
       = survivors rt props delta (bullets st0)
         ++ (if fires && negb dead
             then [mkBullet (bulletId st0) position direction 20 1.5]
             else []).
Proof.
  intros fires dead st'. subst fires dead st'.
  rewrite (useFrame_steps delta now st0).
  pose proof (beforeBullets_arsenal st0) as Ha. unfold arsenal in Ha.
  remember (beforeBullets rt props st0) as s eqn:Hs. clear Hs.
  injection Ha as Hb Hcalls Hid Hlast Hcr.
  destruct (frame_bullets_fields delta s) as (Fb & Fcalls & Fcr & Fid & Flast).
  cbv zeta in *.
  remember (frame_bullets rt props delta s) as fb eqn:Hfb. clear Hfb.
  destruct (frame_fire_fields now st0 fb) as (Gcr & Gcalls & Glast & Gid & p & d & Gb).
  cbv zeta in *. unfold mayFire.
  rewrite Gcr, Gcalls, Glast, Gid, Gb, Fb, Fcalls, Fcr, Fid, Flast,
    Hb, Hcalls, Hid, Hlast, Hcr.
  repeat split. exists p, d. reflexivity.
Qed.

Lemma useFrame_bulletId delta now st0 :
  bulletId (useFrame rt props delta now st0)
  = if mayFire now st0 && negb (crashed (useFrame rt props delta now st0))
    then S (bulletId st0) else bulletId st0.
Proof.
  destruct (useFrame_projectiles delta now st0) as (Hc & _ & _ & Hid & _).
  cbv zeta in *. rewrite Hc. exact Hid.
Qed.

Lemma useFrame_lastFireTime delta now st0 :
  lastFireTime (useFrame rt props delta now st0)
  = if mayFire now st0 then now else lastFireTime st0.
Proof.
  destruct (useFrame_projectiles delta now st0) as (_ & _ & Hl & _).
  exact Hl.
Qed.

(** The bullets after a frame: the survivors of the update, then the one
    spawned. *)
Lemma useFrame_bullets_fired delta now st0 :
  exists position direction,
    bullets (useFrame rt props delta now st0)
    = survivors rt props delta (bullets st0)
      ++ (if mayFire now st0 && negb (crashed (useFrame rt props delta now st0))
          then [mkBullet (bulletId st0) position direction 20 1.5] else []).
Proof.
  destruct (useFrame_projectiles delta now st0) as (Hc & _ & _ & _ & p & d & Hb).
  cbv zeta in *. exists p, d. rewrite Hc. exact Hb.
Qed.


Lemma aimCameraEffect_arsenal st : arsenal (aimCameraEffect st) = arsenal st.
Proof. untouched. Qed.

Lemma handle_arsenal e st :
  (forall delta now, e <> Frame delta now) ->
  arsenal (handle rt props e st) = arsenal st.
Proof.
  destruct e as [key|key|button x y|button|x y|deltaY|delta now]; intros He;
    try (simpl handle; untouched).
  destruct (He delta now eq_refl).
Qed.

(** What one event does to the fire clock: nothing, or, at a frame more
    than [fireRate] after the last shot, a shot, which spawns a bullet
    unless the render has failed. *)
Lemma dispatch_fire e st :
  (bulletId (dispatch rt props e st) = bulletId st
   /\ lastFireTime (dispatch rt props e st) = lastFireTime st)
  \/ (exists delta now,
        e = Frame delta now
        /\ fireRate < now - lastFireTime st
        /\ lastFireTime (dispatch rt props e st) = now
        /\ (bulletId (dispatch rt props e st) = S (bulletId st)
            \/ bulletId (dispatch rt props e st) = bulletId st)).
Proof.
  assert (Hother : (forall delta now, e <> Frame delta now) ->
                   arsenal (dispatch rt props e st) = arsenal st).
  { intros He. unfold dispatch, when.
    destruct (aimDepsChanged _ _); [ rewrite aimCameraEffect_arsenal | ];
      apply handle_arsenal, He. }
  destruct e as [key|key|button x y|button|x y|deltaY|delta now];
    try (left; unfold arsenal in Hother;
         assert (H := Hother ltac:(discriminate)); split; congruence).
  clear Hother.
  rewrite dispatch_Frame, useFrame_bulletId, useFrame_lastFireTime.
  destruct (mayFire now st) eqn:Hfire; [ right | left; auto ].
  exists delta, now. split; [ reflexivity | ]. split.
  - unfold mayFire, Qltb in Hfire.
    apply andb_prop in Hfire. destruct Hfire as [_ Hlt].
    apply Qnot_le_lt. intros Hle. apply Qle_bool_iff in Hle.
    rewrite Hle in Hlt. discriminate.
  - split; [ reflexivity | ].
    destruct (crashed _); [ right | left ]; reflexivity.
Qed.

Lemma bulletId_run events st :
  (bulletId st <= bulletId (run rt props events st))%nat.
Proof.
  revert st. induction events as [|e events IH]; intros st; [ apply le_n | ].
  simpl. specialize (IH (dispatch rt props e st)).
  destruct (dispatch_fire e st)
    as [[Hb _] | (? & ? & _ & _ & _ & [Hb | Hb])]; lia.
Qed.


Lemma inject_succ (n : nat) :
  inject_Z (Z.of_nat (S n)) == inject_Z (Z.of_nat n) + 1.
Proof.
  rewrite Nat2Z.inj_succ. unfold Z.succ. rewrite inject_Z_plus. reflexivity.
Qed.





(** *** Bullets and the boss-hit callback *)

(** The collision test of the code against the wording of the
    specification: same verdict, the callback is called on a boss hit
    only, once if it was supplied, and the same throw. *)
Lemma checkBulletCollision_spec bullet :
  checkBulletCollision rt props bullet
  = match spec_collisionTest rt props bullet with
    | Ok (Some Boss) => Ok (true, bossHitNotifications props)
    | Ok (Some Wall) => Ok (true, 0%nat)
    | Ok None => Ok (false, 0%nat)
    | TypeError => TypeError
    end.
Proof.
  unfold checkBulletCollision, spec_collisionTest, bossHitNotifications.
  destruct (boxHit (bossRef props) _); [ reflexivity | ].
  destruct (existsb _ _); [ reflexivity | ].
  destruct (mounted _) as [targets|]; [ | reflexivity ].
  destruct (intersectObjects rt _ _ _ _) as [|first rest]; [ reflexivity | ].
  destruct (bossRef props) as [b|]; [ | reflexivity ].
  destruct (first =? meshId b)%nat; reflexivity.
Qed.

Lemma updateBullet_spec delta bullet :
  updateBullet rt props delta bullet
  = match hitDuringFrame rt props delta bullet with
    | Ok (Some Boss) => Ok (None, bossHitNotifications props)
    | Ok (Some Wall) => Ok (None, 0%nat)
    | Ok None => Ok (Some (updatedBullet delta bullet), 0%nat)
    | TypeError => TypeError
    end.
Proof.
  unfold updateBullet, hitDuringFrame. rewrite !checkBulletCollision_spec.
  destruct (spec_collisionTest rt props bullet) as [[[|]|]|]; try reflexivity.
  destruct (spec_collisionTest rt props (updatedBullet delta bullet))
    as [[[|]|]|]; reflexivity.
Qed.

(** The update, bullet by bullet. *)
Lemma updateBullets_cons delta bullet rest :
  updateBullets rt props delta (bullet :: rest)
  = match updateBullet rt props delta bullet with
    | TypeError => (TypeError, 0%nat)
    | Ok (r, n) =>
        match updateBullets rt props delta rest with
        | (Ok live, m) => (Ok (keepBullet r ++ live), (n + m)%nat)
        | (TypeError, m) => (TypeError, (n + m)%nat)
        end
    end.
Proof.
  unfold updateBullets. cbn [mapBullets].
  destruct (updateBullet rt props delta bullet) as [[r n]|]; [ | reflexivity ].
  destruct (mapBullets rt props delta rest) as [[rs|] m]; reflexivity.
Qed.





End Frames.

(** ** The examples *)

Section Examples.

Import Sample Scenario.


(** *** C1 *)



(** *** C2 *)



(** *** C3 *)

(** C3 fails as stated: in a frame of half a second the airborne player
    loses [gravity], not [gravity / 2], of velocity and rises by the whole
    velocity, not by half of it. *)
Lemma jump_ignores_delta :
  let delta := 1 # 2 in
  let st' := useFrame runtime appProps delta 0 jumping in
  let y := fun st => vy (pg_position (playerGroup st)) in
  isJumping jumping = true
  /\ isJumping st' = true
  /\ jumpVelocity st' == jumpVelocity jumping - gravity
  /\ ~ jumpVelocity st' == jumpVelocity jumping - gravity * delta
  /\ y st' == y jumping + jumpVelocity jumping
  /\ ~ y st' == y jumping + jumpVelocity jumping * delta
  /\ ~ y st' == y jumping + jumpVelocity st' * delta.
Proof. vm_compute. repeat split; discriminate. Qed.

(** A frame in the air, and the frame of the landing. *)
Lemma jump_integrates_per_frame_witness :
  let height := fun st => vy (pg_position (playerGroup st)) in
  let ground := vy (initialPosition appProps) in
  let st' := useFrame runtime appProps (1 # 2) 0 jumping in
  let landed := useFrame runtime appProps (1 # 2) 0 descending in
  (isJumping jumping = true
   /\ ground < height jumping + jumpVelocity jumping
   /\ height st' == height jumping + jumpVelocity jumping
   /\ jumpVelocity st' == jumpVelocity jumping - gravity
   /\ isJumping st' = true)
  /\ (isJumping descending = true
      /\ height descending + jumpVelocity descending <= ground
      /\ height landed == ground
      /\ jumpVelocity landed == 0
      /\ isJumping landed = false).
Proof.
  intros height ground st' landed. split.
  - assert (Hj : isJumping jumping = true) by reflexivity.
    assert (Hup : ground < height jumping + jumpVelocity jumping)
      by reflexivity.
    split; [ exact Hj | ]. split; [ exact Hup | ].
    destruct (jump_integrates_per_frame runtime appProps (1 # 2) 0 jumping Hj)
      as [Hair _].
    exact (Hair Hup).
  - assert (Hj : isJumping descending = true) by (vm_compute; reflexivity).
    assert (Hdown : height descending + jumpVelocity descending <= ground)
      by (vm_compute; discriminate).
    split; [ exact Hj | ]. split; [ exact Hdown | ].
    destruct (jump_integrates_per_frame runtime appProps (1 # 2) 0 descending
                Hj) as [_ Hland].
    exact (Hland Hdown).
Defined.

(** *** C4 *)

(** C4: a second press of the aim button while in AIM mode keeps the mode
    and the camera but overwrites the saved pose with the first-person
    pose, so that the release no longer recovers the pose held before
    aiming. *)
Theorem repeated_aim_down_overwrites_saved_pose :
  let again := dispatch runtime appProps (MouseDown 2 0 0) aiming in
  let released := dispatch runtime appProps (MouseUp 2) again in
  isAiming aiming = true
  /\ savedCameraState aiming = Some hostCamera
  /\ isAiming again = true
  /\ camera again = camera aiming
  /\ savedCameraState again = Some (camera aiming)
  /\ savedCameraState again <> savedCameraState aiming
  /\ position (camera released) <> position hostCamera.
Proof. vm_compute. repeat split; discriminate. Qed.

(** *** C5 *)

(** Aim, walk for two frames, release: the camera is back where the host
    had put it. *)
Lemma aim_toggle_restores_camera_witness :
  let between := [Frame (1 # 60) 16; KeyDown "w"; Frame (1 # 60) 33] in
  let st' := run runtime appProps
               (MouseDown 2 0 0 :: between ++ [MouseUp 2]) start in
  Forall (fun e => isAimButton e = false) between
  /\ position (camera st') = position (camera start)
  /\ rotation (camera st') = rotation (camera start)
  /\ savedCameraState st' = None.
Proof.
  intros between st'.
  assert (Hb : Forall (fun e => isAimButton e = false) between)
    by (repeat constructor).
  split; [ exact Hb | ].
  exact (aim_toggle_restores_camera runtime appProps start 0 0 between Hb).
Defined.

(** *** C7 *)

(** C7: in AIM mode the wheel leaves the orbit distance alone, but the
    [-] and [+] keys still change it. *)
Theorem distance_keys_active_while_aiming :
  isAiming aiming = true
  /\ cameraDistance aiming == 5
  /\ cameraDistance (dispatch runtime appProps (Wheel 100) aiming) == 5
  /\ cameraDistance (dispatch runtime appProps (KeyDown "-") aiming) == 5.5
  /\ cameraDistance (dispatch runtime appProps (KeyDown "+") aiming) == 4.5
  /\ isAiming (dispatch runtime appProps (KeyDown "-") aiming) = true.
Proof. vm_compute. repeat split. Qed.

(** *** C8 *)

(** C8 fails as stated: whatever the threshold, a mouse move beyond it is
    applied. *)
Lemma no_sanity_threshold : ~ exists threshold, discardsOversizedDelta threshold.
Proof.
  intros [threshold H].
  pose proof (Qabs_nonneg threshold) as Hpos.
  pose proof (Qle_Qabs threshold) as Hle.
  assert (Hbig : threshold < Qabs (Qabs threshold + 1 - mouseX looking)).
  { rewrite Qabs_pos; change (mouseX looking) with 0; lra. }
  destruct (H looking (Qabs threshold + 1) 0 eq_refl (or_introl Hbig))
    as [_ Hyaw].
  change (rotationY (handleMouseMove (Qabs threshold + 1) 0 looking))
    with (0 - (Qabs threshold + 1 - 0) * 0.01) in Hyaw.
  change (rotationY looking) with 0 in Hyaw. lra.
Qed.

(** A jump of the pointer by 100000 pixels turns the player by a thousand
    radians. *)
Lemma mouse_move_applies_every_delta_witness :
  let st' := dispatch runtime appProps (MouseMove 100000 0) looking in
  isMouseDown looking = true
  /\ rotationY st' = rotationY looking - (100000 - mouseX looking) * 0.01
  /\ rotationY st' == - (1000).
Proof.
  intros st'. split; [ reflexivity | ].
  destruct (mouse_move_applies_every_delta runtime appProps looking 100000 0
              eq_refl) as (Hyaw & _).
  split; [ exact Hyaw | ]. subst st'. rewrite Hyaw. reflexivity.
Defined.

(** *** C9 *)

(** The multiplier of the code. *)
Lemma crouch_speed_witness :
  (1 # 2) < 1
  /\ speedFor normalSpeed (1 # 2) true < speedFor normalSpeed (1 # 2) false.
Proof.
  assert (Hm : (1 # 2) < 1) by reflexivity.
  split; [ exact Hm | ].
  destruct (crouch_speed runtime appProps (1 # 2) (1 # 60) 0 start Hm)
    as (_ & _ & _ & _ & Hlt & _).
  exact Hlt.
Defined.

(** *** C10 *)

(** C10 fails as stated: with W and S held together the player does not
    move along the forward axis at all. *)
Lemma opposite_keys_cancel :
  let d := frameDisplacement runtime appProps (1 # 60) 0 pulled in
  key_w (keys pulled) = true
  /\ key_s (keys pulled) = true
  /\ lengthSq (frameForward runtime pulled) == 1
  /\ dot d (frameForward runtime pulled) == 0
  /\ ~ 0 == speed pulled
  /\ ~ 0 == - speed pulled.
Proof. vm_compute. repeat split; discriminate. Qed.

(** Each of the four keys held alone, and W and S held together, the
    player facing the way it does after mounting. *)
Lemma walk_step_per_frame_witness :
  let along := fun st =>
    dot (frameDisplacement runtime appProps (1 # 60) 0 st)
        (frameForward runtime st) in
  let across := fun st =>
    dot (frameDisplacement runtime appProps (1 # 60) 0 st)
        (frameRight runtime st) in
  lengthSq (frameForward runtime start) == 1
  /\ lengthSq (frameRight runtime start) == 1
  /\ along (holding "w") == speed (holding "w")
  /\ along (holding "s") == - speed (holding "s")
  /\ across (holding "a") == - speed (holding "a")
  /\ across (holding "d") == speed (holding "d")
  /\ along pulled == 0.
Proof.
  intros along across.
  assert (Hf : lengthSq (frameForward runtime start) == 1) by reflexivity.
  assert (Hr : lengthSq (frameRight runtime start) == 1) by reflexivity.
  split; [ exact Hf | ]. split; [ exact Hr | ].
  pose (H := fun st Hf Hr =>
              walk_step_per_frame runtime appProps (1 # 60) 0 st Hf Hr).
  split; [ exact (proj1 (H (holding "w") Hf Hr) eq_refl eq_refl) | ].
  split; [ exact (proj1 (proj2 (H (holding "s") Hf Hr)) eq_refl eq_refl) | ].
  split;
    [ exact (proj1 (proj2 (proj2 (H (holding "a") Hf Hr))) eq_refl eq_refl) | ].
  split;
    [ exact (proj1 (proj2 (proj2 (proj2 (H (holding "d") Hf Hr))))
               eq_refl eq_refl) | ].
  exact (proj1 (proj2 (proj2 (proj2 (proj2 (H pulled Hf Hr)))))
           eq_refl eq_refl).
Defined.

End Examples.

(** * Further properties of the handlers *)

Section MoreHandlers.

Variable rt : Runtime.
Variable props : PlayerProps.

(** An event whose handler returns the state it was given changes nothing:
    no dependency of the effect moved. *)
Lemma dispatch_noop e st :
  handle rt props e st = st -> dispatch rt props e st = st.
Proof.
  intros H. unfold dispatch, when. rewrite H, aimDepsChanged_same. reflexivity.
Qed.

(** *** Keys *)

Lemma unbound_tests key :
  ~ In key boundKeys ->
  (key =? "w") = false /\ (key =? "a") = false /\ (key =? "s") = false
  /\ (key =? "d") = false /\ (key =? " ") = false /\ (key =? "Shift") = false
  /\ (key =? "=") = false /\ (key =? "+") = false /\ (key =? "-") = false
  /\ (key =? "_") = false.
Proof.
  intros H. repeat split; apply String.eqb_neq; intros ->; apply H;
    simpl; tauto.
Qed.

(** X1: a key that is none of [w a s d], space, [Shift], [=], [+], [-],
    [_] is ignored, on the way down and on the way up; the test is on the
    exact string, so the upper-case letters are among the ignored keys. *)
Theorem unbound_key_ignored (key : string) (st : State) :
  ~ In key boundKeys ->
  dispatch rt props (KeyDown key) st = st
  /\ dispatch rt props (KeyUp key) st = st.
Proof.
  intros H.
  destruct (unbound_tests key H)
    as (Hw & Ha & Hs & Hd & Hsp & Hsh & He & Hp & Hm & Hu).
  split; apply dispatch_noop; simpl handle;
    unfold handleKeyDown, handleKeyUp, when;
    rewrite Hw, Ha, Hs, Hd, Hsp, Hsh, ?He, ?Hp, ?Hm, ?Hu; reflexivity.
Qed.


(** An event that leaves the dependencies of the effect alone is followed
    by no effect. *)
Lemma dispatch_same_deps e st :
  aimDeps (handle rt props e st) = aimDeps st ->
  dispatch rt props e st = handle rt props e st.
Proof.
  intros H. unfold aimDeps in H. injection H as H1 H2 H3 H4 H5.
  unfold dispatch, when, aimDepsChanged.
  rewrite H1, H2, H3, H4, H5, !Bool.eqb_reflx, !Qeq_bool_refl. reflexivity.
Qed.

(** X2: the jump key acts on every key-down event, not on the edge of the
    key: while the player is airborne a key-down of space changes nothing
    at all; while grounded it starts a jump with velocity [jumpForce] even
    when space is already recorded as held (as on keyboard auto-repeat);
    and a key-up of space leaves the jump under way untouched. *)
Theorem jump_key_down_and_up (st : State) :
  (isJumping st = true -> dispatch rt props (KeyDown " ") st = st)
  /\ (isJumping st = false ->
      let st' := dispatch rt props (KeyDown " ") st in
      isJumping st' = true /\ jumpVelocity st' = jumpForce
      /\ playerGroup st' = playerGroup st)
  /\ (let st' := dispatch rt props (KeyUp " ") st in
      isJumping st' = isJumping st /\ jumpVelocity st' = jumpVelocity st
      /\ playerGroup st' = playerGroup st).
Proof.
  split; [ | split ].
  - intros Hj. apply dispatch_noop. simpl. unfold handleKeyDown, when.
    rewrite Hj. reflexivity.
  - intros Hj st'. subst st'.
    assert (H : handle rt props (KeyDown " ") st
                = st |> setKeys (set_space true) |> set_isJumping true
                     |> set_jumpVelocity jumpForce).
    { simpl. unfold handleKeyDown, when. rewrite Hj. reflexivity. }
    rewrite dispatch_same_deps; rewrite H; repeat split.
  - intros st'. subst st'.
    rewrite dispatch_same_deps by reflexivity. repeat split.
Qed.

(** *** Crouch *)

Lemma aimCameraEffect_crouch st :
  isCrouching (aimCameraEffect st) = isCrouching st
  /\ keys (aimCameraEffect st) = keys st.
Proof. split; untouched. Qed.

Lemma shift_held_noop st :
  isCrouching st = true -> key_shift (keys st) = true ->
  dispatch rt props (KeyDown "Shift") st = st.
Proof.
  intros Hc Hk. apply dispatch_noop.
  destruct st as [k ? ? ? ? ? ? ? ? ? ? ? ? ? ? c ? ? ? ? ? ?].
  destruct k as [? ? ? ? ? sh]. simpl in Hc, Hk. subst c sh. reflexivity.
Qed.

(** X3: a repeated key-down of [Shift] (keyboard auto-repeat) changes
    nothing after the first one: the camera height saved on entering the
    crouch is not saved again. *)
Theorem shift_repeat_harmless (st : State) :
  dispatch rt props (KeyDown "Shift") (dispatch rt props (KeyDown "Shift") st)
  = dispatch rt props (KeyDown "Shift") st.
Proof.
  assert (H : isCrouching (handle rt props (KeyDown "Shift") st) = true
              /\ key_shift (keys (handle rt props (KeyDown "Shift") st)) = true).
  { simpl. unfold handleKeyDown, when, setKeys. simpl.
    destruct (negb (isCrouching st) && isAiming st); split; reflexivity. }
  destruct H as [Hc Hk].
  apply shift_held_noop; unfold dispatch, when;
    destruct (aimDepsChanged _ _);
    rewrite ?(proj1 (aimCameraEffect_crouch _)),
      ?(proj2 (aimCameraEffect_crouch _)); assumption.
Qed.


(** *** The saved pose *)

Lemma handle_saved_or_aiming e st :
  savedCameraState (handle rt props e st) = savedCameraState st
  \/ isAiming (handle rt props e st) = true.
Proof.
  destruct e as [key|key|button x y|button|x y|deltaY|delta now];
    simpl handle; try (left; untouched).
  - unfold handleMouseDown, when.
    destruct (button =? 0)%Z; [ left; reflexivity | ].
    destruct (button =? 2)%Z; [ right | left ]; reflexivity.
  - left. pose proof (useFrame_controls rt props delta now st) as H.
    unfold controls in H. congruence.
Qed.

Lemma aimCameraEffect_isAiming st :
  isAiming (aimCameraEffect st) = isAiming st.
Proof.
  unfold aimCameraEffect. destruct (isAiming st) eqn:Ha.
  - destruct (isCrouching st && _); exact Ha.
  - destruct (savedCameraState st); exact Ha.
Qed.

Lemma dispatch_savedOnlyWhileAiming e st :
  savedOnlyWhileAiming st -> savedOnlyWhileAiming (dispatch rt props e st).
Proof.
  unfold savedOnlyWhileAiming, dispatch, when. intros Hinv.
  set (st' := handle rt props e st).
  destruct (aimDepsChanged st st') eqn:Hdeps.
  - intros Ha. rewrite aimCameraEffect_isAiming in Ha.
    unfold aimCameraEffect. rewrite Ha.
    destruct (savedCameraState st') eqn:Hs; [ reflexivity | exact Hs ].
  - intros Ha.
    destruct (handle_saved_or_aiming e st) as [Hs | Haim];
      fold st' in Hs || fold st' in Haim; [ | congruence ].
    rewrite Hs. apply Hinv.
    unfold aimDepsChanged in Hdeps. rewrite Ha in Hdeps.
    destruct (isAiming st); [ discriminate | reflexivity ].
Qed.

(** X4: since mounting, a saved camera pose exists only while the camera
    is in AIM mode: every way out of AIM mode restores and clears it. *)
Theorem saved_pose_only_while_aiming
    (hostCamera : CameraPose) (events : list Event) :
  savedOnlyWhileAiming (run rt props events (initialState props hostCamera)).
Proof.
  apply run_invariant.
  - apply dispatch_savedOnlyWhileAiming.
  - intros _. reflexivity.
Qed.

(** *** The pointer *)

(** X5: a mouse move while the left button is up, and a press or a release
    of a button other than the left (0) and the right (2), change
    nothing. *)
Theorem pointer_events_ignored (st : State) (button : Z) (x y : Q) :
  (isMouseDown st = false -> dispatch rt props (MouseMove x y) st = st)
  /\ (button <> 0%Z -> button <> 2%Z ->
      dispatch rt props (MouseDown button x y) st = st
      /\ dispatch rt props (MouseUp button) st = st).
Proof.
  split.
  - intros Hup. apply dispatch_noop. simpl. unfold handleMouseMove, when.
    rewrite Hup. reflexivity.
  - intros H0 H2. apply Z.eqb_neq in H0, H2.
    split; apply dispatch_noop; simpl;
      unfold handleMouseDown, handleMouseUp, when; rewrite H0, H2; reflexivity.
Qed.

Lemma aimCameraEffect_pointer st : pointer (aimCameraEffect st) = pointer st.
Proof. untouched. Qed.

Lemma handle_pointer e st :
  isLeftButton e = false -> (forall x y, e <> MouseMove x y) ->
  pointer (handle rt props e st) = pointer st.
Proof.
  intros He Hm.
  destruct e as [key|key|button x y|button|x y|deltaY|delta now];
    simpl handle; simpl in He; try untouched.
  - unfold handleMouseDown, when. rewrite He.
    destruct (button =? 2)%Z; reflexivity.
  - unfold handleMouseUp, when. rewrite He.
    destruct (button =? 2)%Z; reflexivity.
  - destruct (Hm x y eq_refl).
  - pose proof (useFrame_controls rt props delta now st) as Hc.
    unfold controls in Hc. unfold pointer. congruence.
Qed.

Lemma pointer_yawAnchor st st' :
  pointer st' = pointer st ->
  isMouseDown st' = isMouseDown st /\ yawAnchor st' == yawAnchor st.
Proof.
  unfold pointer, yawAnchor. intros H. injection H as H1 H2 H3.
  rewrite H1, H2, H3. split; reflexivity.
Qed.

Lemma dispatch_yawAnchor e st :
  isLeftButton e = false -> isMouseDown st = true ->
  isMouseDown (dispatch rt props e st) = true
  /\ yawAnchor (dispatch rt props e st) == yawAnchor st.
Proof.
  intros He Hd.
  assert (H : isMouseDown (handle rt props e st) = true
              /\ yawAnchor (handle rt props e st) == yawAnchor st).
  { destruct e as [key|key|button x y|button|x y|deltaY|delta now];
      try (match goal with
           | |- context [handle rt props ?e st] =>
               destruct (pointer_yawAnchor st (handle rt props e st))
                 as [H1 H2];
               [ apply handle_pointer; [ exact He | discriminate ]
               | split; [ congruence | exact H2 ] ]
           end).
    simpl handle. unfold handleMouseMove, when. rewrite Hd.
    unfold yawAnchor. simpl. split; [ exact Hd | ring ]. }
  unfold dispatch, when. destruct (aimDepsChanged _ _); [ | exact H ].
  destruct (pointer_yawAnchor _ _
              (aimCameraEffect_pointer (handle rt props e st))) as [H1 H2].
  rewrite H1, H2. exact H.
Qed.

Lemma run_yawAnchor events st :
  Forall (fun e => isLeftButton e = false) events ->
  isMouseDown st = true ->
  isMouseDown (run rt props events st) = true
  /\ yawAnchor (run rt props events st) == yawAnchor st.
Proof.
  intros Hev. revert st.
  induction Hev as [|e events He _ IH]; intros st Hd.
  - split; [ exact Hd | reflexivity ].
  - destruct (dispatch_yawAnchor e st He Hd) as [Hd' Ha].
    destruct (IH _ Hd') as [Hd'' Ha'].
    split; [ exact Hd'' | ]. simpl. rewrite Ha'. exact Ha.
Qed.

(** X6: while the left button stays down, the yaw follows the pointer and
    forgets the path: after any events that are not left-button events and
    a final mouse move to [x], the yaw is the yaw at the start less a
    hundredth of the horizontal distance from the start to [x]. *)
Theorem yaw_follows_pointer (st : State) (events : list Event) (x y : Q) :
  isMouseDown st = true ->
  Forall (fun e => isLeftButton e = false) events ->
  rotationY (run rt props (events ++ [MouseMove x y]) st)
  == rotationY st - (x - mouseX st) * 0.01.
Proof.
  intros Hd Hev.
  assert (Hall : Forall (fun e => isLeftButton e = false)
                   (events ++ [MouseMove x y])).
  { apply Forall_app. split; [ exact Hev | repeat constructor ]. }
  destruct (run_yawAnchor _ st Hall Hd) as [_ Hanchor].
  destruct (run_yawAnchor _ st Hev Hd) as [Hd' _].
  assert (Hx : mouseX (run rt props (events ++ [MouseMove x y]) st) = x).
  { rewrite run_app.
    change (run rt props [MouseMove x y] ?s)
      with (dispatch rt props (MouseMove x y) s).
    set (s := run rt props events st) in *.
    unfold dispatch, when.
    assert (H : mouseX (handle rt props (MouseMove x y) s) = x).
    { simpl. unfold handleMouseMove, when. rewrite Hd'. reflexivity. }
    destruct (aimDepsChanged _ _); [ | exact H ].
    pose proof (aimCameraEffect_pointer (handle rt props (MouseMove x y) s))
      as Hp.
    unfold pointer in Hp. congruence. }
  unfold yawAnchor in Hanchor. rewrite Hx in Hanchor.
  lra.
Qed.


(** *** The wheel *)

Lemma wheel_third_person deltaY st :
  isAiming st = false ->
  dispatch rt props (Wheel deltaY) st
  = set_cameraDistance
      (Math_max minCameraDistance
         (Math_min maxCameraDistance
            (cameraDistance st + (if Qltb 0 deltaY then 0.5 else - 0.5)))) st.
Proof.
  intros Ha.
  assert (H : handle rt props (Wheel deltaY) st
              = set_cameraDistance
                  (Math_max minCameraDistance
                     (Math_min maxCameraDistance
                        (cameraDistance st
                         + (if Qltb 0 deltaY then 0.5 else - 0.5)))) st).
  { simpl. unfold handleWheel, when. rewrite Ha. reflexivity. }
  rewrite dispatch_same_deps; rewrite H; reflexivity.
Qed.

Lemma Qltb_true a b : a < b -> Qltb a b = true.
Proof.
  intros H. unfold Qltb. destruct (Qle_bool b a) eqn:E; [ | reflexivity ].
  apply Qle_bool_iff in E. lra.
Qed.

Lemma Qltb_false a b : b <= a -> Qltb a b = false.
Proof.
  intros H. unfold Qltb. apply Qle_bool_iff in H. rewrite H. reflexivity.
Qed.

Lemma steps_nonneg (n : nat) : 0 <= inject_Z (Z.of_nat n).
Proof.
  change 0 with (inject_Z 0). rewrite <- Zle_Qle. apply Nat2Z.is_nonneg.
Qed.

(** X7: in third-person view, [n] wheel events of one direction move the
    orbit distance by half a unit each until it meets its bound: scrolling
    out ([deltaY > 0]) gives [min 8 (d + n / 2)], any other wheel event,
    [deltaY = 0] included, zooms in and gives [max 3 (d - n / 2)]. *)
Theorem wheel_zoom (st : State) (deltaY : Q) (n : nat) :
  isAiming st = false ->
  distanceInRange st ->
  let st' := run rt props (repeat (Wheel deltaY) n) st in
  let travel := inject_Z (Z.of_nat n) * 0.5 in
  (0 < deltaY ->
   cameraDistance st' == Qmin maxCameraDistance (cameraDistance st + travel))
  /\ (deltaY <= 0 ->
      cameraDistance st' == Qmax minCameraDistance (cameraDistance st - travel)).
Proof.
  revert st. induction n as [|n IH]; intros st Ha [Hlo Hhi] st' travel;
    subst st' travel; unfold minCameraDistance, maxCameraDistance in *.
  - change (inject_Z (Z.of_nat 0)) with 0. simpl run.
    destruct (Q.min_spec 8 (cameraDistance st + 0 * 0.5)) as [[? E1]|[? E1]];
      destruct (Q.max_spec 3 (cameraDistance st - 0 * 0.5)) as [[? E2]|[? E2]];
      split; intros _; lra.
  - simpl repeat. simpl run. rewrite (wheel_third_person deltaY st Ha).
    set (d1 := Math_max minCameraDistance
                 (Math_min maxCameraDistance (cameraDistance st + _))).
    pose proof (clamp_distance
                  (cameraDistance st + (if Qltb 0 deltaY then 0.5 else - 0.5)))
      as [Hlo1 Hhi1]. fold d1 in Hlo1, Hhi1.
    destruct (IH (set_cameraDistance d1 st) Ha (conj Hlo1 Hhi1)) as [IHout IHin].
    cbv zeta in IHout, IHin. simpl cameraDistance in IHout, IHin.
    pose proof (steps_nonneg n) as Hn. rewrite inject_succ.
    unfold minCameraDistance, maxCameraDistance, Math_max, Math_min in *.
    split; intros Hdir.
    + rewrite (IHout Hdir). subst d1. rewrite (Qltb_true _ _ Hdir) in *.
      set (k := inject_Z (Z.of_nat n)) in *. set (d := cameraDistance st) in *.
      destruct (Q.min_spec 8 (d + 0.5)) as [[? E1]|[? E1]];
        destruct (Q.max_spec 3 (Qmin 8 (d + 0.5))) as [[? E2]|[? E2]];
        destruct (Q.min_spec 8 (Qmax 3 (Qmin 8 (d + 0.5)) + k * 0.5))
          as [[? E3]|[? E3]];
        destruct (Q.min_spec 8 (d + (k + 1) * 0.5)) as [[? E4]|[? E4]]; lra.
    + rewrite (IHin Hdir). subst d1. rewrite (Qltb_false _ _ Hdir) in *.
      set (k := inject_Z (Z.of_nat n)) in *. set (d := cameraDistance st) in *.
      destruct (Q.min_spec 8 (d + - 0.5)) as [[? E1]|[? E1]];
        destruct (Q.max_spec 3 (Qmin 8 (d + - 0.5))) as [[? E2]|[? E2]];
        destruct (Q.max_spec 3 (Qmax 3 (Qmin 8 (d + - 0.5)) - k * 0.5))
          as [[? E3]|[? E3]];
        destruct (Q.max_spec 3 (d - (k + 1) * 0.5)) as [[? E4]|[? E4]]; lra.
Qed.

(** *** The camera on entering AIM mode *)

(** X8: pressing the aim button in third-person view puts the camera at
    the head of the player (0.9 above the group) with the rotation
    [(rotationX, rotationY, 0)], unless the player crouches and a camera
    height was saved; in particular a player who crouched before aiming
    gets the standing head height. *)
Theorem aim_camera_at_head (st : State) (x y : Q) :
  isAiming st = false ->
  isCrouching st = false \/ originalCameraPositionY st == 0 ->
  let st' := dispatch rt props (MouseDown 2 x y) st in
  isAiming st' = true
  /\ position (camera st') = headPosition st
  /\ rotation (camera st') = euler (rotationX st) (rotationY st) 0.
Proof.
  intros Ha Hstand st'. subst st'.
  unfold dispatch, when, aimDepsChanged. simpl handle.
  unfold handleMouseDown, when. simpl. rewrite Ha. simpl.
  assert (Hc : isCrouching st && negb (Qeq_bool (originalCameraPositionY st) 0)
               = false).
  { destruct Hstand as [Hc | Hz]; [ rewrite Hc; reflexivity | ].
    apply Qeq_bool_iff in Hz. rewrite Hz. apply andb_false_r. }
  unfold aimCameraEffect. simpl. rewrite Hc. repeat split.
Qed.

(** X9: in AIM mode with the camera at a height other than 0, a key-down
    of [Shift] lowers the camera by [crouchHeight] where it stands, and the
    key-up puts it back at the head of the player. *)
Theorem crouch_lowers_aim_camera (st : State) :
  isAiming st = true ->
  isCrouching st = false ->
  ~ vy (position (camera st)) == 0 ->
  let down := dispatch rt props (KeyDown "Shift") st in
  let up := dispatch rt props (KeyUp "Shift") down in
  position (camera down)
  = set_vy (vy (position (camera st)) - crouchHeight) (position (camera st))
  /\ isCrouching down = true
  /\ position (camera up) = headPosition st
  /\ isCrouching up = false.
Proof.
  intros Ha Hc Hy down up.
  assert (Hnz : Qeq_bool (vy (position (camera st))) 0 = false).
  { destruct (Qeq_bool _ 0) eqn:E; [ | reflexivity ].
    apply Qeq_bool_iff in E. contradiction. }
  assert (Hdown : down
                  = st |> setKeys (set_shift true) |> set_isCrouching true
                       |> set_originalCameraPositionY (vy (position (camera st)))
                       |> set_camera_position
                            (set_vy (vy (position (camera st)) - crouchHeight)
                               (position (camera st)))
                       |> set_camera_rotation
                            (euler (rotationX st) (rotationY st) 0)).
  { subst down. unfold dispatch, when, aimDepsChanged. simpl handle.
    unfold handleKeyDown, when. simpl. rewrite Ha, Hc. simpl.
    unfold aimCameraEffect. simpl. rewrite Ha, Hnz. reflexivity. }
  subst up. rewrite Hdown.
  unfold dispatch, when, aimDepsChanged. simpl handle.
  unfold handleKeyUp, when. simpl. rewrite Ha. simpl.
  unfold aimCameraEffect. simpl. rewrite Ha. repeat split.
Qed.

End MoreHandlers.

(** * Further properties of the frame callback *)

Section MoreFrames.

Variable rt : Runtime.
Variable props : PlayerProps.

(** *** The ground *)

Lemma frame_move_jumpVelocity st0 st :
  jumpVelocity (frame_move rt st0 st) = jumpVelocity st.
Proof. untouched. Qed.

Lemma oriented_jumpVelocity st0 : jumpVelocity (oriented st0) = jumpVelocity st0.
Proof. unfold oriented. untouched. Qed.

(** A frame of a player who is not jumping. *)
Lemma useFrame_standing delta now st0 :
  isJumping st0 = false ->
  let st' := useFrame rt props delta now st0 in
  pg_position (playerGroup st') = movedPosition rt st0
  /\ jumpVelocity st' = jumpVelocity st0
  /\ isJumping st' = false.
Proof.
  intros Hj st'. subst st'. unfold useFrame. fold (oriented st0).
  rewrite after_jump_playerGroup, after_jump_jumpVelocity, after_jump_isJumping.
  unfold frame_jump, when. rewrite Hj.
  rewrite frame_move_jumpVelocity, oriented_jumpVelocity,
    frame_move_isJumping, oriented_isJumping.
  auto.
Qed.

(** A frame of a player who is jumping, in terms of the height and the
    velocity at the start of the frame. *)
Lemma useFrame_jump_cases delta now st0 :
  isJumping st0 = true ->
  let st' := useFrame rt props delta now st0 in
  (groundLevel props < height st0 + jumpVelocity st0 ->
   height st' == height st0 + jumpVelocity st0
   /\ jumpVelocity st' == jumpVelocity st0 - gravity
   /\ isJumping st' = true)
  /\ (height st0 + jumpVelocity st0 <= groundLevel props ->
      height st' == groundLevel props
      /\ jumpVelocity st' == 0
      /\ isJumping st' = false).
Proof.
  intros Hj st'. subst st'. unfold height, groundLevel.
  pose proof (useFrame_airborne rt props delta now st0 Hj) as H.
  cbv zeta in H. pose proof (moved_height rt st0) as Hy.
  unfold Qleb in H.
  destruct (Qle_bool _ _) eqn:Hland.
  - apply Qle_bool_iff in Hland. rewrite Hy in Hland.
    destruct H as (H1 & H2 & H3). rewrite H1, H2, H3. split.
    + intros Hlt. lra.
    + intros _. repeat split; reflexivity.
  - assert (Hair : ~ vy (movedPosition rt st0) + jumpVelocity st0
                     <= vy (initialPosition props)).
    { intros Hle. apply Qle_bool_iff in Hle. congruence. }
    rewrite Hy in Hair.
    destruct H as (H1 & H2 & H3). rewrite H1, H2, H3, Hy. split.
    + intros _. repeat split; reflexivity.
    + intros Hle. contradiction.
Qed.

Lemma useFrame_onOrAboveGround delta now st :
  onOrAboveGround props st ->
  onOrAboveGround props (useFrame rt props delta now st).
Proof.
  intros [Hlow Hstand]. unfold onOrAboveGround.
  destruct (isJumping st) eqn:Hj.
  - destruct (useFrame_jump_cases delta now st Hj) as [Hair Hland].
    destruct (Qlt_le_dec (groundLevel props) (height st + jumpVelocity st))
      as [Hup | Hdown].
    + destruct (Hair Hup) as (Hy & _ & Hstill). rewrite Hy, Hstill.
      split; [ lra | discriminate ].
    + destruct (Hland Hdown) as (Hy & Hv & _). rewrite Hy, Hv.
      split; [ lra | intros _; split; reflexivity ].
  - destruct (Hstand eq_refl) as [Hy Hv].
    destruct (useFrame_standing delta now st Hj) as (Hp & Hv' & Hj').
    unfold height in *. rewrite Hp, Hv', Hj', (moved_height rt st).
    split; [ lra | intros _; split; assumption ].
Qed.

(** What the events other than frames do to the body of the player. *)
Lemma handleKeyDown_body key st :
  (playerGroup (handleKeyDown key st), isJumping (handleKeyDown key st),
   jumpVelocity (handleKeyDown key st))
  = if (key =? " ") && negb (isJumping st)
    then (playerGroup st, true, jumpForce)
    else (playerGroup st, isJumping st, jumpVelocity st).
Proof. untouched. Qed.

Lemma handle_body_other e st :
  (forall key, e <> KeyDown key) -> (forall delta now, e <> Frame delta now) ->
  (playerGroup (handle rt props e st), isJumping (handle rt props e st),
   jumpVelocity (handle rt props e st))
  = (playerGroup st, isJumping st, jumpVelocity st).
Proof.
  intros Hk Hf.
  destruct e as [key|key|button x y|button|x y|deltaY|delta now];
    simpl handle; try untouched.
  - destruct (Hk key eq_refl).
  - destruct (Hf delta now eq_refl).
Qed.

Lemma aimCameraEffect_body st :
  (playerGroup (aimCameraEffect st), isJumping (aimCameraEffect st),
   jumpVelocity (aimCameraEffect st))
  = (playerGroup st, isJumping st, jumpVelocity st).
Proof. untouched. Qed.

Lemma body_onOrAboveGround st st' :
  (playerGroup st', isJumping st', jumpVelocity st')
  = (playerGroup st, isJumping st, jumpVelocity st) ->
  onOrAboveGround props st -> onOrAboveGround props st'.
Proof.
  intros H. injection H as H1 H2 H3.
  unfold onOrAboveGround, height. rewrite H1, H2, H3. auto.
Qed.

Lemma dispatch_onOrAboveGround e st :
  onOrAboveGround props st -> onOrAboveGround props (dispatch rt props e st).
Proof.
  intros Hinv.
  assert (Hhandle : onOrAboveGround props (handle rt props e st)).
  { destruct e as [key|key|button x y|button|x y|deltaY|delta now];
      try (apply (body_onOrAboveGround st);
           [ apply handle_body_other; discriminate | exact Hinv ]).
    - simpl handle. pose proof (handleKeyDown_body key st) as H.
      destruct ((key =? " ") && negb (isJumping st)).
      + injection H as H1 H2 H3. destruct Hinv as [Hlow _].
        unfold onOrAboveGround, height in *. rewrite H1, H2.
        split; [ exact Hlow | discriminate ].
      + apply (body_onOrAboveGround st); assumption.
    - simpl handle. apply useFrame_onOrAboveGround, Hinv. }
  unfold dispatch, when. destruct (aimDepsChanged _ _); [ | exact Hhandle ].
  apply (body_onOrAboveGround (handle rt props e st));
    [ apply aimCameraEffect_body | exact Hhandle ].
Qed.

(** X10: since mounting the player is never below the ground level (the
    height it was mounted at), and whenever no jump is under way it stands
    exactly on it with no vertical velocity. *)
Theorem player_on_or_above_ground
    (hostCamera : CameraPose) (events : list Event) :
  let st := run rt props events (initialState props hostCamera) in
  vy (initialPosition props) <= vy (pg_position (playerGroup st))
  /\ (isJumping st = false ->
      vy (pg_position (playerGroup st)) == vy (initialPosition props)
      /\ jumpVelocity st == 0).
Proof.
  apply (run_invariant rt props (onOrAboveGround props)).
  - apply dispatch_onOrAboveGround.
  - split; [ apply Qle_refl | intros _; split; reflexivity ].
Qed.

(** *** The arc of a jump *)

Lemma run_snoc events e st :
  run rt props (events ++ [e]) st
  = dispatch rt props e (run rt props events st).
Proof. apply run_app. Qed.

Lemma framesOf_snoc ticks t :
  framesOf (ticks ++ [t]) = framesOf ticks ++ [Frame (fst t) (snd t)].
Proof. unfold framesOf. rewrite map_app. reflexivity. Qed.



End MoreFrames.

(** * Further properties of the projectiles *)

Section MoreProjectiles.

Variable rt : Runtime.
Variable props : PlayerProps.

Lemma dispatch_arsenal e st :
  (forall delta now, e <> Frame delta now) ->
  arsenal (dispatch rt props e st) = arsenal st.
Proof.
  intros He. unfold dispatch, when.
  destruct (aimDepsChanged _ _); [ rewrite aimCameraEffect_arsenal | ];
    apply handle_arsenal, He.
Qed.

Lemma dispatch_bullets e st :
  (forall delta now, e <> Frame delta now) ->
  bullets (dispatch rt props e st) = bullets st.
Proof.
  intros He. pose proof (dispatch_arsenal e st He) as Ha.
  unfold arsenal in Ha. congruence.
Qed.

Lemma dispatch_bulletId e st :
  (forall delta now, e <> Frame delta now) ->
  bulletId (dispatch rt props e st) = bulletId st.
Proof.
  intros He. pose proof (dispatch_arsenal e st He) as Ha.
  unfold arsenal in Ha. congruence.
Qed.

Lemma dispatch_crashed_other e st :
  (forall delta now, e <> Frame delta now) ->
  crashed (dispatch rt props e st) = crashed st.
Proof.
  intros He. pose proof (dispatch_arsenal e st He) as Ha.
  unfold arsenal in Ha. congruence.
Qed.

Lemma Qltb_lt a b : Qltb a b = true -> a < b.
Proof.
  unfold Qltb. intros H. apply Qnot_le_lt. intros Hle.
  apply Qle_bool_iff in Hle. rewrite Hle in H. discriminate.
Qed.

(** *** One frame of the bullets *)

Lemma survivors_cons delta b l :
  survivors rt props delta (b :: l)
  = match updateBullet rt props delta b with
    | TypeError => []
    | Ok (r, _) =>
        if throws rt props delta l then []
        else keepBullet r ++ survivors rt props delta l
    end.
Proof.
  unfold survivors, throws. rewrite (updateBullets_cons rt props).
  destruct (updateBullet rt props delta b) as [[r n]|]; [ | reflexivity ].
  destruct (updateBullets rt props delta l) as [[live|] m]; reflexivity.
Qed.

Lemma throws_cons delta b l :
  throws rt props delta (b :: l)
  = match updateBullet rt props delta b with
    | TypeError => true
    | Ok _ => throws rt props delta l
    end.
Proof.
  unfold throws. rewrite (updateBullets_cons rt props).
  destruct (updateBullet rt props delta b) as [[r n]|]; [ | reflexivity ].
  destruct (updateBullets rt props delta l) as [[live|] m]; reflexivity.
Qed.

Lemma calls_cons delta b l :
  snd (updateBullets rt props delta (b :: l))
  = match updateBullet rt props delta b with
    | TypeError => 0%nat
    | Ok (_, n) => (n + snd (updateBullets rt props delta l))%nat
    end.
Proof.
  rewrite (updateBullets_cons rt props).
  destruct (updateBullet rt props delta b) as [[r n]|]; [ | reflexivity ].
  destruct (updateBullets rt props delta l) as [[live|] m]; reflexivity.
Qed.

(** A bullet is dropped, with at most one call of the callback, or kept
    advanced, with none. *)
Lemma kept_cases delta b r n :
  updateBullet rt props delta b = Ok (r, n) ->
  (keepBullet r = [] /\ (n <= 1)%nat)
  \/ (keepBullet r = [updatedBullet delta b]
      /\ n = 0%nat /\ 0 < b_lifespan b - delta).
Proof.
  rewrite (updateBullet_spec rt props). unfold bossHitNotifications.
  destruct (hitDuringFrame rt props delta b) as [[[|]|]|]; intros H;
    [ | | | discriminate ]; injection H as <- <-; simpl.
  - left. split; [ reflexivity | destruct (onBossHit props); lia ].
  - left. split; [ reflexivity | lia ].
  - destruct (Qltb 0 (b_lifespan b - delta)) eqn:Hlife.
    + right. repeat split. apply Qltb_lt, Hlife.
    + left. split; [ reflexivity | lia ].
Qed.

(** The bullets a frame keeps are bullets it was given, advanced. *)
Lemma kept_origin delta l b' :
  In b' (survivors rt props delta l) ->
  exists b, In b l /\ b' = updatedBullet delta b /\ 0 < b_lifespan b - delta.
Proof.
  induction l as [|b l IH]; [ intros [] | ].
  rewrite survivors_cons.
  destruct (updateBullet rt props delta b) as [[r n]|] eqn:Hone;
    [ | intros [] ].
  destruct (throws rt props delta l); [ intros [] | ].
  intros Hin. apply in_app_or in Hin. destruct Hin as [Hin | Hin].
  - destruct (kept_cases delta b r n Hone) as [[Hk _] | (Hk & _ & Hlife)];
      rewrite Hk in Hin; [ destruct Hin | destruct Hin as [<- | []] ].
    exists b. split; [ left; reflexivity | auto ].
  - destruct (IH Hin) as (b0 & Hb0 & Hrest).
    exists b0. split; [ right; exact Hb0 | exact Hrest ].
Qed.

Lemma kept_Forall (P : Bullet -> Prop) delta l :
  (forall b, P b -> 0 < b_lifespan b - delta -> P (updatedBullet delta b)) ->
  Forall P l -> Forall P (survivors rt props delta l).
Proof.
  intros Hstep Hall. apply Forall_forall. intros b' Hin.
  destruct (kept_origin delta l b' Hin) as (b & Hb & -> & Hlife).
  apply Hstep; [ | exact Hlife ].
  rewrite Forall_forall in Hall. apply Hall, Hb.
Qed.

Lemma kept_sorted delta l :
  StronglySorted lt (map b_id l) ->
  StronglySorted lt (map b_id (survivors rt props delta l)).
Proof.
  induction l as [|b l IH]; intros Hs; [ constructor | ].
  simpl in Hs. apply StronglySorted_inv in Hs. destruct Hs as [Hs Hall].
  pose proof (kept_Forall (fun b0 => (b_id b < b_id b0)%nat) delta l
                (fun b0 H _ => H)) as Hkept.
  rewrite Forall_map in Hall. specialize (Hkept Hall).
  rewrite survivors_cons.
  destruct (updateBullet rt props delta b) as [[r n]|] eqn:Hone;
    [ | constructor ].
  destruct (throws rt props delta l); [ constructor | ].
  destruct (kept_cases delta b r n Hone) as [[Hk _] | (Hk & _ & _)]; rewrite Hk.
  - apply IH, Hs.
  - simpl. constructor; [ apply IH, Hs | ].
    rewrite Forall_map. exact Hkept.
Qed.

Lemma kept_count delta l :
  (snd (updateBullets rt props delta l)
   + List.length (survivors rt props delta l)
   <= List.length l)%nat.
Proof.
  induction l as [|b l IH]; [ apply le_n | ].
  rewrite calls_cons, survivors_cons.
  destruct (updateBullet rt props delta b) as [[r n]|] eqn:Hone;
    [ | simpl; lia ].
  destruct (kept_cases delta b r n Hone) as [[Hk Hn] | (Hk & Hn & _)];
    destruct (throws rt props delta l);
    rewrite ?length_app, ?Hk; simpl List.length; lia.
Qed.

(** What a frame does to a property of the projectile system that the
    other events cannot affect. *)
Lemma arsenal_invariant (P : State -> Prop) :
  (forall st st', arsenal st' = arsenal st -> P st -> P st') ->
  (forall delta now st, P st -> P (useFrame rt props delta now st)) ->
  forall e st, P st -> P (dispatch rt props e st).
Proof.
  intros Hsame Hframe e st H.
  destruct e as [key|key|button x y|button|x y|deltaY|delta now];
    try (apply (Hsame st); [ apply dispatch_arsenal; discriminate | exact H ]).
  rewrite dispatch_Frame. apply Hframe, H.
Qed.

(** *** The ids of the bullets *)

Lemma sorted_snoc (l : list nat) (x : nat) :
  StronglySorted lt l -> Forall (fun y => (y < x)%nat) l ->
  StronglySorted lt (l ++ [x]).
Proof.
  induction l as [|a l IH]; intros Hs Hall; simpl.
  - constructor; constructor.
  - apply StronglySorted_inv in Hs. destruct Hs as [Hs Ha].
    inversion Hall as [|? ? Hax Hl]; subst.
    constructor; [ apply IH; assumption | ].
    apply Forall_app. split; [ exact Ha | constructor; [ exact Hax | constructor ] ].
Qed.

Lemma sorted_NoDup (l : list nat) : StronglySorted lt l -> NoDup l.
Proof.
  induction l as [|a l IH]; intros Hs; [ constructor | ].
  apply StronglySorted_inv in Hs. destruct Hs as [Hs Ha].
  constructor; [ | apply IH, Hs ].
  intros Hin. rewrite Forall_forall in Ha. specialize (Ha a Hin). lia.
Qed.

Lemma useFrame_idsInOrder delta now st :
  idsInOrder st -> idsInOrder (useFrame rt props delta now st).
Proof.
  intros [Hs Hall]. unfold idsInOrder.
  destruct (useFrame_bullets_fired rt props delta now st) as (p & d & Hb).
  rewrite Hb, (useFrame_bulletId rt props).
  assert (Hkept : Forall (fun b => (b_id b < bulletId st)%nat)
                    (survivors rt props delta (bullets st))).
  { apply kept_Forall; [ intros b H _; exact H | exact Hall ]. }
  pose proof (kept_sorted delta (bullets st) Hs) as Hsorted.
  destruct (mayFire now st && _).
  - rewrite map_app. simpl map. split.
    + apply sorted_snoc; [ exact Hsorted | ].
      rewrite Forall_map. exact Hkept.
    + apply Forall_app. split.
      * eapply Forall_impl; [ | exact Hkept ]. simpl. intros; lia.
      * constructor; [ simpl; lia | constructor ].
  - rewrite app_nil_r. split; assumption.
Qed.

(** X12: the bullets are always listed in the order they were spawned in,
    with strictly increasing ids, all of them below the id the next bullet
    will take; so no two live bullets share an id (the id is the React key
    of the bullet). *)
Theorem bullet_ids_unique (hostCamera : CameraPose) (events : list Event) :
  let st := run rt props events (initialState props hostCamera) in
  StronglySorted lt (map b_id (bullets st))
  /\ Forall (fun b => (b_id b < bulletId st)%nat) (bullets st)
  /\ NoDup (map b_id (bullets st)).
Proof.
  intros st.
  assert (H : idsInOrder st).
  { apply (run_invariant rt props idsInOrder).
    - apply arsenal_invariant.
      + intros s s' Ha. unfold arsenal in Ha. unfold idsInOrder.
        replace (bullets s') with (bullets s) by congruence.
        replace (bulletId s') with (bulletId s) by congruence. auto.
      + apply useFrame_idsInOrder.
    - split; constructor. }
  destruct H as [Hs Hall]. repeat split; try assumption.
  apply sorted_NoDup, Hs.
Qed.

(** *** The calls of the callback *)

Lemma useFrame_callsAccounted delta now st :
  callsAccounted st -> callsAccounted (useFrame rt props delta now st).
Proof.
  unfold callsAccounted. intros H.
  destruct (useFrame_projectiles rt props delta now st)
    as (_ & Hc & _ & Hid & p & d & Hb).
  cbv zeta in *. rewrite Hb, Hc, Hid, length_app.
  pose proof (kept_count delta (bullets st)) as Hk.
  destruct (mayFire now st && _); simpl List.length; lia.
Qed.

(** X13: at every moment the calls of [onBossHit] made so far and the
    bullets still live together number at most the bullets spawned: no
    bullet causes more than one call, and one that caused a call is gone. *)
Theorem one_call_per_spent_bullet
    (hostCamera : CameraPose) (events : list Event) :
  let st := run rt props events (initialState props hostCamera) in
  (bossHitCalls st + List.length (bullets st) <= bulletId st)%nat.
Proof.
  apply (run_invariant rt props callsAccounted).
  - apply arsenal_invariant.
    + intros s s' Ha. unfold arsenal in Ha. unfold callsAccounted.
      replace (bullets s') with (bullets s) by congruence.
      replace (bulletId s') with (bulletId s) by congruence.
      replace (bossHitCalls s') with (bossHitCalls s) by congruence. auto.
    + apply useFrame_callsAccounted.
  - apply le_n.
Qed.

Lemma silent_test b hit n :
  onBossHit props = false \/ bossRef props = None ->
  checkBulletCollision rt props b = Ok (hit, n) -> n = 0%nat.
Proof.
  intros H. rewrite checkBulletCollision_spec.
  destruct H as [H | H].
  - unfold bossHitNotifications. rewrite H.
    destruct (spec_collisionTest rt props b) as [[[|]|]|]; congruence.
  - unfold spec_collisionTest, boxHit. rewrite H.
    destruct (existsb _ _); [ congruence | ].
    destruct (mounted _); [ | congruence ].
    destruct (intersectObjects rt _ _ _ _); congruence.
Qed.

Lemma silent_update delta l :
  onBossHit props = false \/ bossRef props = None ->
  snd (updateBullets rt props delta l) = 0%nat.
Proof.
  intros H. induction l as [|b l IH]; [ reflexivity | ].
  rewrite calls_cons, IH. unfold updateBullet.
  pose proof (silent_test b) as H1.
  pose proof (silent_test (updatedBullet delta b)) as H2.
  destruct (checkBulletCollision rt props b) as [[hit1 n1]|];
    [ | reflexivity ].
  rewrite (H1 hit1 n1 H eq_refl).
  destruct hit1; [ reflexivity | ].
  destruct (checkBulletCollision rt props (updatedBullet delta b))
    as [[hit2 n2]|]; [ | reflexivity ].
  rewrite (H2 hit2 n2 H eq_refl). destruct hit2; reflexivity.
Qed.

(** X14: mounted without a boss or without the callback (as [App] mounts
    the player), the component never calls [onBossHit], whatever the
    bullets hit. *)
Theorem no_boss_or_callback_no_calls (events : list Event) (st : State) :
  onBossHit props = false \/ bossRef props = None ->
  bossHitCalls (run rt props events st) = bossHitCalls st.
Proof.
  intros H.
  apply (run_invariant rt props (fun s => bossHitCalls s = bossHitCalls st));
    [ | reflexivity ].
  apply arsenal_invariant.
  - intros s s' Ha Hs. unfold arsenal in Ha. congruence.
  - intros delta now s Hs.
    destruct (useFrame_projectiles rt props delta now s) as (_ & Hc & _).
    rewrite Hc, silent_update, Nat.add_0_r; assumption.
Qed.

(** *** Lifespan and speed *)

Lemma useFrame_inFlight delta now st :
  0 <= delta ->
  Forall inFlight (bullets st) ->
  Forall inFlight (bullets (useFrame rt props delta now st)).
Proof.
  intros Hd Hall.
  destruct (useFrame_bullets_fired rt props delta now st) as (p & d & Hb).
  rewrite Hb. apply Forall_app. split.
  - apply kept_Forall; [ | exact Hall ].
    intros b (Hv & Hpos & Hle) Hlife. unfold inFlight.
    cbn [updatedBullet b_velocity b_lifespan].
    split; [ exact Hv | split; [ exact Hlife | lra ] ].
  - destruct (mayFire now st && _); constructor; [ | constructor ].
    unfold inFlight. cbn [b_velocity b_lifespan].
    split; [ reflexivity | split; [ reflexivity | apply Qle_refl ] ].
Qed.

Lemma run_inFlight events st :
  forwardInTime events ->
  Forall inFlight (bullets st) ->
  Forall inFlight (bullets (run rt props events st)).
Proof.
  intros Hfw. revert st.
  induction Hfw as [|e events He _ IH]; intros st H; [ exact H | ].
  simpl. apply IH.
  destruct e as [key|key|button x y|button|x y|deltaY|delta now];
    try (rewrite dispatch_bullets by discriminate; exact H).
  rewrite dispatch_Frame. apply useFrame_inFlight; assumption.
Qed.

(** X15: as long as no frame is handed a negative elapsed time, every live
    bullet has the speed 20 it was spawned with and a lifespan in
    [(0, 1.5]]. *)
Theorem live_bullets_in_flight (hostCamera : CameraPose) (events : list Event) :
  forwardInTime events ->
  Forall (fun b => b_velocity b = 20
                   /\ 0 < b_lifespan b /\ b_lifespan b <= 1.5)
    (bullets (run rt props events (initialState props hostCamera))).
Proof.
  intros Hfw. apply (run_inFlight events _ Hfw). constructor.
Qed.

(** *** Flight *)

Lemma flown_step delta b : flown delta b (updatedBullet delta b).
Proof.
  unfold flown. cbn. repeat split; reflexivity.
Qed.

Lemma flown_zero b : flown 0 b b.
Proof.
  unfold flown, veq, add, multiplyScalar. cbn.
  repeat split; try reflexivity; ring.
Qed.

Lemma flown_trans t1 t2 b b1 b' :
  flown t1 b b1 -> flown t2 b1 b' -> flown (t1 + t2) b b'.
Proof.
  intros (Hi & Hd & Hv & Hl & Hx & Hy & Hz)
         (Hi' & Hd' & Hv' & Hl' & Hx' & Hy' & Hz').
  unfold flown, veq. rewrite Hd, Hv in *.
  unfold add, multiplyScalar in *. cbn [vx vy vz] in *.
  repeat split; try congruence.
  - rewrite Hl', Hl. ring.
  - rewrite Hx', Hx. ring.
  - rewrite Hy', Hy. ring.
  - rewrite Hz', Hz. ring.
Qed.

Lemma elapsed_nonneg events : forwardInTime events -> 0 <= elapsed events.
Proof.
  induction 1 as [|e events He _ IH]; [ apply Qle_refl | ].
  destruct e; simpl; try exact IH. lra.
Qed.

(** A bullet both of whose tests miss is kept advanced. *)
Lemma misses_update delta b :
  checkBulletCollision rt props b = Ok (false, 0%nat) ->
  checkBulletCollision rt props (updatedBullet delta b) = Ok (false, 0%nat) ->
  updateBullet rt props delta b = Ok (Some (updatedBullet delta b), 0%nat).
Proof.
  intros H1 H2. unfold updateBullet. rewrite H1, H2. reflexivity.
Qed.

Lemma misses_kept delta l b :
  throws rt props delta l = false ->
  In b l ->
  updateBullet rt props delta b = Ok (Some (updatedBullet delta b), 0%nat) ->
  0 < b_lifespan b - delta ->
  In (updatedBullet delta b) (survivors rt props delta l).
Proof.
  intros Hthrows Hin Hone Hlife. induction l as [|a l IH]; [ destruct Hin | ].
  rewrite throws_cons in Hthrows. rewrite survivors_cons.
  destruct (updateBullet rt props delta a) as [[r n]|] eqn:Ha;
    [ | discriminate ].
  rewrite Hthrows. apply in_or_app.
  destruct Hin as [-> | Hin]; [ left | right; apply IH; assumption ].
  rewrite Hone in Ha. injection Ha as <- <-.
  cbn [keepBullet updatedBullet b_lifespan].
  rewrite Qltb_true by exact Hlife. left. reflexivity.
Qed.

(** A render that has failed stays failed. *)
Lemma dispatch_crashed e st :
  crashed st = true -> crashed (dispatch rt props e st) = true.
Proof.
  intros H.
  destruct e as [key|key|button x y|button|x y|deltaY|delta now];
    try (rewrite dispatch_crashed_other by discriminate; exact H).
  rewrite dispatch_Frame.
  destruct (useFrame_projectiles rt props delta now st) as (Hc & _).
  cbv zeta in Hc. rewrite Hc, H. reflexivity.
Qed.

Lemma run_crashed events st :
  crashed st = true -> crashed (run rt props events st) = true.
Proof.
  revert st. induction events as [|e events IH]; intros st H; [ exact H | ].
  simpl. apply IH, dispatch_crashed, H.
Qed.

(** X16: a live bullet flies in a straight line as long as nothing stops
    it.  Over a run in which no render fails and no frame is handed a
    negative elapsed time, a bullet whose own collision tests all return
    without a hit, whatever else the scene holds, stays live while the
    game time elapsed is below its lifespan, with the same id, direction
    and speed, its lifespan reduced by the elapsed time and its position
    advanced along its direction by speed times elapsed time. *)
Theorem bullet_free_flight (events : list Event) (st : State) (b : Bullet) :
  crashed (run rt props events st) = false ->
  forwardInTime events ->
  In b (bullets st) ->
  missesAlong rt props (frameDeltas events) b ->
  elapsed events < b_lifespan b ->
  exists b', In b' (bullets (run rt props events st))
             /\ flown (elapsed events) b b'.
Proof.
  intros Hrun Hfw. revert st b Hrun.
  induction Hfw as [|e events He Hrest IH]; intros st b Hrun Hin Hmiss Hlife.
  - exists b. split; [ exact Hin | apply flown_zero ].
  - pose proof (elapsed_nonneg events Hrest) as Hpos.
    simpl run in Hrun.
    destruct e as [key|key|button x y|button|x y|deltaY|delta now];
      try (simpl run; simpl elapsed in *; apply IH;
           [ exact Hrun
           | rewrite dispatch_bullets by discriminate; exact Hin
           | exact Hmiss
           | exact Hlife ]).
    simpl elapsed in *. simpl run. rewrite dispatch_Frame in *.
    unfold missesAlong in Hmiss. simpl in Hmiss.
    apply Forall_cons_iff in Hmiss. destruct Hmiss as [Hm1 Hmiss].
    apply Forall_cons_iff in Hmiss. destruct Hmiss as [Hm2 Hmiss].
    assert (Hframe : crashed (useFrame rt props delta now st) = false).
    { destruct (crashed (useFrame rt props delta now st)) eqn:Hc;
        [ | reflexivity ].
      rewrite (run_crashed events _ Hc) in Hrun. discriminate. }
    destruct (useFrame_projectiles rt props delta now st)
      as (Hc & _ & _ & _ & p & d & Hb).
    cbv zeta in *. rewrite Hframe in Hc. symmetry in Hc.
    apply orb_false_elim in Hc. destruct Hc as [_ Hthrows].
    destruct (IH (useFrame rt props delta now st) (updatedBullet delta b))
      as (b' & Hin' & Hfl).
    + exact Hrun.
    + rewrite Hb. apply in_or_app. left.
      apply misses_kept;
        [ exact Hthrows | exact Hin | apply misses_update; assumption | lra ].
    + exact Hmiss.
    + cbn [updatedBullet b_lifespan]. lra.
    + exists b'. split; [ exact Hin' | ].
      apply (flown_trans delta (elapsed events) b (updatedBullet delta b) b');
        [ apply flown_step | exact Hfl ].
Qed.

(** X17: whatever happens, a bullet live after a run either was spawned
    during the run (its id is not below the id counter at the start), or is
    one of the bullets the run started with, flown in a straight line for
    the game time the run let pass. *)
Theorem live_bullets_origin (events : list Event) (st : State) (b' : Bullet) :
  In b' (bullets (run rt props events st)) ->
  (bulletId st <= b_id b')%nat
  \/ exists b, In b (bullets st) /\ flown (elapsed events) b b'.
Proof.
  revert st. induction events as [|e events IH]; intros st Hin.
  - right. exists b'. split; [ exact Hin | apply flown_zero ].
  - simpl run in Hin.
    assert (Hmono : (bulletId st <= bulletId (dispatch rt props e st))%nat).
    { destruct (dispatch_fire rt props e st)
        as [[Hsame _] | (d0 & n0 & _ & _ & _ & [Hnext | Hsame])]; lia. }
    destruct (IH _ Hin) as [Hnew | (b1 & Hin1 & Hfl)]; [ left; lia | ].
    destruct e as [key|key|button x y|button|x y|deltaY|delta now];
      try (right; exists b1; split;
           [ rewrite dispatch_bullets in Hin1 by discriminate; exact Hin1
           | exact Hfl ]).
    rewrite dispatch_Frame in Hin1.
    destruct (useFrame_bullets_fired rt props delta now st) as (p & d & Hb).
    rewrite Hb in Hin1. apply in_app_or in Hin1.
    destruct Hin1 as [Hkept | Hfired].
    + destruct (kept_origin delta (bullets st) b1 Hkept) as (b & Hb0 & -> & _).
      right. exists b. split; [ exact Hb0 | ]. simpl elapsed.
      apply (flown_trans delta (elapsed events) b (updatedBullet delta b) b');
        [ apply flown_step | exact Hfl ].
    + left. destruct Hfl as (Hid & _).
      destruct (mayFire now st && _); [ | destruct Hfired ].
      destruct Hfired as [<- | []]. simpl in Hid. lia.
Qed.

(** *** The fire button *)

Lemma handle_trigger e st :
  (isFiring (handle rt props e st), isMouseDown (handle rt props e st))
  = match e with
    | MouseDown button _ _ =>
        if (button =? 0)%Z then (true, true) else (isFiring st, isMouseDown st)
    | MouseUp button =>
        if (button =? 0)%Z then (false, false) else (isFiring st, isMouseDown st)
    | _ => (isFiring st, isMouseDown st)
    end.
Proof.
  destruct e as [key|key|button x y|button|x y|deltaY|delta now]; simpl handle.
  - untouched.
  - untouched.
  - unfold handleMouseDown, when.
    destruct (button =? 0)%Z; [ reflexivity | ].
    destruct (button =? 2)%Z; reflexivity.
  - unfold handleMouseUp, when.
    destruct (button =? 0)%Z; [ reflexivity | ].
    destruct (button =? 2)%Z; reflexivity.
  - unfold handleMouseMove, when.
    destruct (isMouseDown st) eqn:Hd; simpl; rewrite ?Hd; reflexivity.
  - untouched.
  - pose proof (useFrame_controls rt props delta now st) as Hc.
    unfold controls in Hc. congruence.
Qed.

Lemma aimCameraEffect_trigger st :
  (isFiring (aimCameraEffect st), isMouseDown (aimCameraEffect st))
  = (isFiring st, isMouseDown st).
Proof. untouched. Qed.

Lemma dispatch_trigger e st :
  (isFiring (dispatch rt props e st), isMouseDown (dispatch rt props e st))
  = (isFiring (handle rt props e st), isMouseDown (handle rt props e st)).
Proof.
  unfold dispatch, when. destruct (aimDepsChanged _ _); [ | reflexivity ].
  apply aimCameraEffect_trigger.
Qed.

Lemma dispatch_fire_drag e st :
  isFiring st = isMouseDown st ->
  isFiring (dispatch rt props e st) = isMouseDown (dispatch rt props e st).
Proof.
  intros H. pose proof (dispatch_trigger e st) as Hd.
  rewrite handle_trigger in Hd.
  destruct e as [key|key|button x y|button|x y|deltaY|delta now];
    try destruct (button =? 0)%Z; congruence.
Qed.

(** X18: the left button both turns the view and fires: at every moment
    the component is firing exactly when it is tracking a drag. *)
Theorem firing_iff_dragging (hostCamera : CameraPose) (events : list Event) :
  let st := run rt props events (initialState props hostCamera) in
  isFiring st = isMouseDown st.
Proof.
  apply (run_invariant rt props (fun s => isFiring s = isMouseDown s)).
  - apply dispatch_fire_drag.
  - reflexivity.
Qed.

Lemma dispatch_not_firing e st :
  isFirePress e = false ->
  isFiring st = false ->
  isFiring (dispatch rt props e st) = false
  /\ bulletId (dispatch rt props e st) = bulletId st
  /\ (bullets st = [] -> bullets (dispatch rt props e st) = []).
Proof.
  intros He Hf.
  assert (Hfire : isFiring (dispatch rt props e st) = false).
  { pose proof (dispatch_trigger e st) as Hd. rewrite handle_trigger in Hd.
    destruct e as [key|key|button x y|button|x y|deltaY|delta now];
      simpl in He; try rewrite He in Hd;
      try destruct (button =? 0)%Z; congruence. }
  split; [ exact Hfire | ].
  destruct e as [key|key|button x y|button|x y|deltaY|delta now];
    try (rewrite dispatch_bulletId, dispatch_bullets by discriminate;
         split; [ reflexivity | auto ]).
  rewrite dispatch_Frame, (useFrame_bulletId rt props).
  destruct (useFrame_bullets_fired rt props delta now st) as (p & d & Hb).
  rewrite Hb. unfold mayFire. rewrite Hf. cbn [andb].
  split; [ reflexivity | intros ->; reflexivity ].
Qed.

(** X19: no bullet is ever spawned before the fire button is pressed:
    after a run without a press of the left button there is no bullet and
    the id counter is still 0. *)
Theorem no_bullet_without_fire_press
    (hostCamera : CameraPose) (events : list Event) :
  forallb (fun e => negb (isFirePress e)) events = true ->
  let st := run rt props events (initialState props hostCamera) in
  bullets st = [] /\ bulletId st = 0%nat.
Proof.
  intros Hev st. subst st.
  assert (H : forall s,
             isFiring s = false /\ bullets s = [] /\ bulletId s = 0%nat ->
             let s' := run rt props events s in
             isFiring s' = false /\ bullets s' = [] /\ bulletId s' = 0%nat).
  { induction events as [|e events IH]; intros s Hs; [ exact Hs | ].
    simpl in Hev. apply andb_prop in Hev. destruct Hev as [He Hev].
    apply negb_true_iff in He.
    destruct Hs as (Hf & Hb & Hi).
    destruct (dispatch_not_firing e s He Hf) as (Hf' & Hi' & Hb').
    simpl. apply (IH Hev). repeat split; [ exact Hf' | auto | congruence ]. }
  apply (H (initialState props hostCamera)). repeat split.
Qed.

End MoreProjectiles.

(** * Further properties of the camera *)

Section MoreCamera.

Variable rt : Runtime.
Variable props : PlayerProps.

Lemma frame_fire_view now st0 st : view (frame_fire rt now st0 st) = view st.
Proof. untouched. Qed.

Lemma frame_bullets_view delta st :
  view (frame_bullets rt props delta st) = view st.
Proof. untouched. Qed.

Lemma frame_move_camera st0 st :
  (cameraCurrentPosition (frame_move rt st0 st), camera (frame_move rt st0 st))
  = (cameraCurrentPosition st, camera st).
Proof. untouched. Qed.

Lemma frame_jump_camera st0 st :
  (cameraCurrentPosition (frame_jump props st0 st),
   camera (frame_jump props st0 st))
  = (cameraCurrentPosition st, camera st).
Proof. untouched. Qed.

Lemma oriented_camera st0 :
  (cameraCurrentPosition (oriented st0), camera (oriented st0))
  = (cameraCurrentPosition st0, camera st0).
Proof. unfold oriented. untouched. Qed.

(** The camera fields when the camera step of a frame starts. *)
Lemma before_camera_step st0 :
  let st := set_player_rotation_y (rotationY st0)
              (frame_jump props st0 (frame_move rt st0 (oriented st0))) in
  cameraCurrentPosition st = cameraCurrentPosition st0
  /\ camera st = camera st0.
Proof.
  intros st. subst st.
  pose proof (frame_jump_camera st0 (frame_move rt st0 (oriented st0))) as Hj.
  pose proof (frame_move_camera st0 (oriented st0)) as Hm.
  pose proof (oriented_camera st0) as Ho.
  split.
  - transitivity (cameraCurrentPosition
                    (frame_jump props st0 (frame_move rt st0 (oriented st0))));
      [ reflexivity | congruence ].
  - transitivity (camera (frame_jump props st0 (frame_move rt st0 (oriented st0))));
      [ reflexivity | congruence ].
Qed.

(** *** AIM mode *)

Lemma useFrame_aim_camera delta now st :
  isAiming st = true ->
  position (camera (useFrame rt props delta now st)) = position (camera st).
Proof.
  intros Ha. unfold useFrame. fold (oriented st).
  destruct (before_camera_step st) as [_ Hc]. cbv zeta in Hc.
  remember (set_player_rotation_y (rotationY st)
              (frame_jump props st (frame_move rt st (oriented st))))
    as s eqn:Hs. clear Hs.
  pose proof (frame_fire_view now st
                (frame_bullets rt props delta (frame_camera rt st s))) as Hf.
  pose proof (frame_bullets_view delta (frame_camera rt st s)) as Hb.
  unfold view in Hf, Hb.
  replace (camera (frame_fire rt now st
                     (frame_bullets rt props delta (frame_camera rt st s))))
    with (camera (frame_camera rt st s)) by congruence.
  unfold frame_camera. rewrite Ha. simpl. rewrite Hc. reflexivity.
Qed.

Lemma handle_aim_fixed e st :
  keepsAimCamera e = true ->
  isAiming st = true ->
  aimDeps (handle rt props e st) = aimDeps st
  /\ position (camera (handle rt props e st)) = position (camera st).
Proof.
  intros He Ha.
  destruct e as [key|key|button x y|button|x y|deltaY|delta now];
    simpl in He; simpl handle.
  - apply negb_true_iff in He.
    unfold handleKeyDown, when. rewrite He. unfold aimDeps. split; untouched.
  - apply negb_true_iff in He.
    unfold handleKeyUp, when. rewrite He. unfold aimDeps. split; untouched.
  - unfold handleMouseDown, when. rewrite He. split; reflexivity.
  - unfold handleMouseUp, when. rewrite He. split; reflexivity.
  - discriminate.
  - unfold handleWheel, when. rewrite Ha. split; reflexivity.
  - split; [ | apply useFrame_aim_camera, Ha ].
    pose proof (useFrame_controls rt props delta now st) as Hc.
    unfold controls in Hc. unfold aimDeps. congruence.
Qed.

(** X20: in AIM mode the camera is placed by the aim-camera effect only:
    over frames, key events other than [Shift], wheel events and
    left-button events it stays where it is, even while the player walks
    or jumps away from it. *)
Theorem aim_camera_stays_put (events : list Event) (st : State) :
  isAiming st = true ->
  forallb keepsAimCamera events = true ->
  isAiming (run rt props events st) = true
  /\ position (camera (run rt props events st)) = position (camera st).
Proof.
  revert st. induction events as [|e events IH]; intros st Ha Hev.
  - split; [ exact Ha | reflexivity ].
  - simpl in Hev. apply andb_prop in Hev. destruct Hev as [He Hev].
    destruct (handle_aim_fixed e st He Ha) as [Hdeps Hpos].
    simpl run. rewrite (dispatch_same_deps rt props e st Hdeps).
    assert (Ha' : isAiming (handle rt props e st) = true).
    { unfold aimDeps in Hdeps. congruence. }
    destruct (IH _ Ha' Hev) as [Ha'' Hpos'].
    split; [ exact Ha'' | congruence ].
Qed.

(** *** Third-person view *)

(** A third-person frame: the camera moves a tenth of the way from where
    it is to the orbit point of the player's new position. *)
Lemma useFrame_third_person delta now st :
  isAiming st = false ->
  let st' := useFrame rt props delta now st in
  cameraCurrentPosition st'
  = lerp (cameraCurrentPosition st)
         (add (pg_position (playerGroup st')) (orbitOffset rt st))
         cameraSmoothing
  /\ position (camera st') = cameraCurrentPosition st'.
Proof.
  intros Ha st'. subst st'. unfold useFrame. fold (oriented st).
  destruct (before_camera_step st) as [Hp _]. cbv zeta in Hp.
  remember (set_player_rotation_y (rotationY st)
              (frame_jump props st (frame_move rt st (oriented st))))
    as s eqn:Hs. clear Hs.
  pose proof (frame_fire_view now st
                (frame_bullets rt props delta (frame_camera rt st s))) as Hf.
  pose proof (frame_bullets_view delta (frame_camera rt st s)) as Hb.
  unfold view in Hf, Hb.
  remember (frame_fire rt now st
              (frame_bullets rt props delta (frame_camera rt st s)))
    as final eqn:Hfinal. clear Hfinal.
  assert (H : view final = view (frame_camera rt st s))
    by (unfold view; congruence).
  unfold view in H. injection H as H1 H2 H3. rewrite H1, H2, H3.
  unfold frame_camera, orbitOffset. rewrite Ha. simpl. rewrite Hp.
  split; reflexivity.
Qed.

Lemma useFrame_idle delta now st :
  idle st ->
  idle (useFrame rt props delta now st)
  /\ pg_position (playerGroup (useFrame rt props delta now st))
     = pg_position (playerGroup st).
Proof.
  intros (Hw & Ha & Hs & Hd & Hj).
  pose proof (useFrame_controls rt props delta now st) as Hc.
  unfold controls in Hc.
  destruct (useFrame_standing rt props delta now st Hj) as (Hp & _ & Hj').
  split.
  - unfold idle. replace (keys (useFrame rt props delta now st)) with (keys st)
      by congruence. auto.
  - rewrite Hp. unfold movedPosition, frame_move, when.
    rewrite Hw, Ha, Hs, Hd. apply oriented_position.
Qed.

Lemma orbitOffset_frame delta now st :
  orbitOffset rt (useFrame rt props delta now st) = orbitOffset rt st.
Proof.
  pose proof (useFrame_controls rt props delta now st) as Hc.
  unfold controls in Hc. unfold orbitOffset.
  replace (rotationY (useFrame rt props delta now st)) with (rotationY st)
    by congruence.
  replace (cameraDistance (useFrame rt props delta now st))
    with (cameraDistance st) by congruence.
  replace (isCrouching (useFrame rt props delta now st)) with (isCrouching st)
    by congruence.
  reflexivity.
Qed.

(** X21: in third-person view with the player at rest, each frame leaves
    the camera nine tenths of its distance from the orbit point
    ([cameraSmoothing] is 0.1, per frame and whatever the elapsed time):
    after [n] frames the gap is the initial gap times [0.9 ^ n], and the
    camera is where the smoothed position is. *)
Theorem camera_closes_in (st : State) (ticks : list (Q * Q)) :
  isAiming st = false ->
  idle st ->
  let st' := run rt props (framesOf ticks) st in
  sub (cameraCurrentPosition st') (orbitTarget rt st)
  =v= multiplyScalar (sub (cameraCurrentPosition st) (orbitTarget rt st))
                     (decay (List.length ticks))
  /\ (ticks <> [] -> position (camera st') = cameraCurrentPosition st').
Proof.
  intros Ha Hidle st'. subst st'.
  assert (H : let st' := run rt props (framesOf ticks) st in
              isAiming st' = false /\ idle st'
              /\ orbitTarget rt st' = orbitTarget rt st
              /\ sub (cameraCurrentPosition st') (orbitTarget rt st)
                 =v= multiplyScalar
                       (sub (cameraCurrentPosition st) (orbitTarget rt st))
                       (decay (List.length ticks))
              /\ (ticks <> [] ->
                  position (camera st') = cameraCurrentPosition st')).
  { induction ticks as [|t ticks IH] using rev_ind.
    - cbv zeta. change (run rt props (framesOf []) st) with st.
      change (decay (List.length (@nil (Q * Q)))) with 1.
      split; [ exact Ha | ]. split; [ exact Hidle | ].
      split; [ reflexivity | ]. split; [ | intros Hne; destruct (Hne eq_refl) ].
      unfold veq, sub, multiplyScalar. cbn [vx vy vz].
      repeat split; ring.
    - cbv zeta in IH. destruct IH as (IHa & IHidle & IHt & IHgap & _).
      rewrite framesOf_snoc, (run_snoc rt props), dispatch_Frame.
      set (before := run rt props (framesOf ticks) st) in *.
      cbv zeta.
      destruct (useFrame_third_person (fst t) (snd t) before IHa) as [Hcur Hcam].
      destruct (useFrame_idle (fst t) (snd t) before IHidle) as [Hidle' Hpos].
      pose proof (useFrame_controls rt props (fst t) (snd t) before) as Hc.
      unfold controls in Hc.
      assert (Htarget : orbitTarget rt (useFrame rt props (fst t) (snd t) before)
                        = orbitTarget rt st).
      { unfold orbitTarget. rewrite orbitOffset_frame, Hpos. exact IHt. }
      split; [ congruence | ]. split; [ exact Hidle' | ].
      split; [ exact Htarget | ]. split; [ | intros _; exact Hcam ].
      rewrite Hcur, Hpos. fold (orbitTarget rt before). rewrite IHt.
      rewrite length_app, Nat.add_1_r. simpl decay.
      destruct IHgap as (Hx & Hy & Hz).
      unfold veq, sub, multiplyScalar, lerp, cameraSmoothing in *.
      cbn [vx vy vz] in *.
      set (c := cameraCurrentPosition before) in *.
      set (o := orbitTarget rt st) in *.
      set (c0 := cameraCurrentPosition st) in *.
      set (k := decay (List.length ticks)) in *.
      repeat split.
      + setoid_replace (vx c + (vx o - vx c) * 0.1 - vx o)
          with ((1 - 0.1) * (vx c - vx o)) by ring.
        rewrite Hx. ring.
      + setoid_replace (vy c + (vy o - vy c) * 0.1 - vy o)
          with ((1 - 0.1) * (vy c - vy o)) by ring.
        rewrite Hy. ring.
      + setoid_replace (vz c + (vz o - vz c) * 0.1 - vz o)
          with ((1 - 0.1) * (vz c - vz o)) by ring.
        rewrite Hz. ring. }
  destruct H as (_ & _ & _ & Hgap & Hcam). split; assumption.
Qed.

End MoreCamera.

(** * Further properties of the walk and of the recoil *)

Section MoreWalk.

Variable rt : Runtime.
Variable props : PlayerProps.

(** *** The length of a step *)

Lemma step_length (fx fz rx rz p q : Q) :
  fx * fx + fz * fz == 1 -> rx * rx + rz * rz == 1 ->
  fx * rx + fz * rz == 0 ->
  (p * fx + q * rx) * (p * fx + q * rx) + 0 * 0
  + (p * fz + q * rz) * (p * fz + q * rz)
  == p * p + q * q.
Proof.
  intros Hf Hr Ho.
  transitivity (p * p * (fx * fx + fz * fz) + q * q * (rx * rx + rz * rz)
                + 2 * p * q * (fx * rx + fz * rz)); [ ring | ].
  rewrite Hf, Hr, Ho. ring.
Qed.

(** X22: the contributions of the keys add up without being normalized:
    for a player on the ground the squared length of the step of a frame
    is the sum of the squares of what the keys ask for along the two
    axes, so a diagonal step (one key of each axis) has squared length
    twice the squared speed: it is longer than a straight step by a
    factor of the square root of 2. *)
Theorem diagonal_step_longer (delta now : Q) (st0 : State) :
  lengthSq (frameForward rt st0) == 1 ->
  lengthSq (frameRight rt st0) == 1 ->
  isJumping st0 = false ->
  let d := frameDisplacement rt props delta now st0 in
  lengthSq d == along st0 * along st0 + across st0 * across st0
  /\ (xorb (key_w (keys st0)) (key_s (keys st0)) = true ->
      xorb (key_a (keys st0)) (key_d (keys st0)) = true ->
      lengthSq d == 2 * (speed st0 * speed st0)).
Proof.
  intros Hf Hr Hj d.
  assert (Hlen : lengthSq d == along st0 * along st0 + across st0 * across st0).
  { subst d.
    destruct (frame_walk rt props delta now st0) as [Hx Hz].
    destruct (walk_components rt st0) as [Wx Wz]. cbv zeta in Wx, Wz.
    fold (along st0) in Wx, Wz. fold (across st0) in Wx, Wz.
    pose proof (forward_level rt st0) as Fy.
    pose proof (right_level rt st0) as Ry.
    pose proof (right_orthogonal rt st0) as Ho.
    assert (Hy : vy (frameDisplacement rt props delta now st0) == 0).
    { destruct (useFrame_standing rt props delta now st0 Hj) as (Hp & _).
      unfold frameDisplacement, sub. cbn [vy]. rewrite Hp, (moved_height rt st0).
      ring. }
    unfold dot, lengthSq in *. rewrite Hx, Hz, Hy, Wx, Wz.
    rewrite Fy, Ry in Ho. rewrite Fy in Hf. rewrite Ry in Hr.
    apply step_length.
    - rewrite <- Hf. ring.
    - rewrite <- Hr. ring.
    - rewrite <- Ho. ring. }
  split; [ exact Hlen | ].
  intros Hws Had. rewrite Hlen. unfold along, across.
  destruct (key_w (keys st0)), (key_s (keys st0)); try discriminate;
    destruct (key_a (keys st0)), (key_d (keys st0)); try discriminate; ring.
Qed.

(** *** The direction of a step *)

Lemma frame_fire_facing now st0 st :
  (playerGroup (frame_fire rt now st0 st),
   initialRotationSet (frame_fire rt now st0 st))
  = (playerGroup st, initialRotationSet st).
Proof. untouched. Qed.

Lemma frame_bullets_facing delta st :
  (playerGroup (frame_bullets rt props delta st),
   initialRotationSet (frame_bullets rt props delta st))
  = (playerGroup st, initialRotationSet st).
Proof. untouched. Qed.

Lemma frame_camera_facing st0 st :
  (playerGroup (frame_camera rt st0 st),
   initialRotationSet (frame_camera rt st0 st))
  = (playerGroup st, initialRotationSet st).
Proof. untouched. Qed.

Lemma frame_jump_initialRotationSet st0 st :
  initialRotationSet (frame_jump props st0 st) = initialRotationSet st.
Proof. untouched. Qed.

Lemma frame_move_initialRotationSet st0 st :
  initialRotationSet (frame_move rt st0 st) = initialRotationSet st.
Proof. untouched. Qed.

Lemma oriented_initialRotationSet st0 : initialRotationSet (oriented st0) = true.
Proof.
  unfold oriented, when. destruct (initialRotationSet st0) eqn:H; simpl; auto.
Qed.

(** After a frame the group faces the yaw the frame was given. *)
Lemma useFrame_facing delta now st :
  pg_rotation_y (playerGroup (useFrame rt props delta now st)) = rotationY st
  /\ initialRotationSet (useFrame rt props delta now st) = true.
Proof.
  unfold useFrame. fold (oriented st).
  remember (frame_jump props st (frame_move rt st (oriented st))) as s eqn:Hs.
  assert (Hi : initialRotationSet s = true).
  { subst s. rewrite frame_jump_initialRotationSet,
      frame_move_initialRotationSet. apply oriented_initialRotationSet. }
  clear Hs.
  pose proof (frame_fire_facing now st
                (frame_bullets rt props delta
                   (frame_camera rt st
                      (set_player_rotation_y (rotationY st) s)))) as Hf.
  pose proof (frame_bullets_facing delta
                (frame_camera rt st
                   (set_player_rotation_y (rotationY st) s))) as Hb.
  pose proof (frame_camera_facing st
                (set_player_rotation_y (rotationY st) s)) as Hc.
  remember (frame_fire rt now st
              (frame_bullets rt props delta
                 (frame_camera rt st
                    (set_player_rotation_y (rotationY st) s)))) as final.
  assert (H : (playerGroup final, initialRotationSet final)
              = (playerGroup (set_player_rotation_y (rotationY st) s),
                 initialRotationSet (set_player_rotation_y (rotationY st) s)))
    by congruence.
  injection H as H1 H2. rewrite H1, H2. simpl. auto.
Qed.

Lemma handle_facing e st :
  isFrame e = false ->
  (playerGroup (handle rt props e st), initialRotationSet (handle rt props e st))
  = (playerGroup st, initialRotationSet st).
Proof.
  destruct e as [key|key|button x y|button|x y|deltaY|delta now];
    simpl isFrame; intros He; [ | | | | | | discriminate ];
    simpl handle; untouched.
Qed.

Lemma aimCameraEffect_facing st :
  (playerGroup (aimCameraEffect st), initialRotationSet (aimCameraEffect st))
  = (playerGroup st, initialRotationSet st).
Proof. untouched. Qed.

Lemma dispatch_facing e st :
  isFrame e = false ->
  (playerGroup (dispatch rt props e st),
   initialRotationSet (dispatch rt props e st))
  = (playerGroup st, initialRotationSet st).
Proof.
  intros He. unfold dispatch, when.
  destruct (aimDepsChanged _ _); [ rewrite aimCameraEffect_facing | ];
    apply handle_facing, He.
Qed.

(** The yaw a frame walks along is the one the frame before it left the
    group with. *)
Lemma frameYaw_after_frame delta now st events :
  forallb (fun e => negb (isFrame e)) events = true ->
  frameYaw (run rt props events (useFrame rt props delta now st))
  = rotationY st.
Proof.
  intros Hev.
  set (next := run rt props events (useFrame rt props delta now st)).
  assert (H : pg_rotation_y (playerGroup next) = rotationY st
              /\ initialRotationSet next = true).
  { subst next. revert Hev.
    generalize (useFrame_facing delta now st).
    generalize (useFrame rt props delta now st) as s.
    induction events as [|e events IH]; intros s Hs Hev; [ exact Hs | ].
    simpl in Hev. apply andb_prop in Hev. destruct Hev as [He Hev].
    apply negb_true_iff in He.
    simpl run. apply IH; [ | exact Hev ].
    pose proof (dispatch_facing e s He) as Hd. injection Hd as H1 H2.
    rewrite H1, H2. exact Hs. }
  destruct H as [Hy Hi]. unfold frameYaw. rewrite Hi. exact Hy.
Qed.

(** X23: a frame walks along the yaw the frame before it was given: the
    group is turned to the current yaw only after the walk of a frame, so
    whatever the pointer does between two frames, the horizontal step of
    the second one is made of what its keys ask for along the forward and
    right vectors of the yaw the first one was given. *)
Theorem walk_follows_previous_yaw
    (delta now delta' now' : Q) (st : State) (events : list Event) :
  forallb (fun e => negb (isFrame e)) events = true ->
  let next := run rt props events (useFrame rt props delta now st) in
  let forward :=
    getPlayerForward rt
      (mkGroup (pg_position (playerGroup next)) (rotationY st)) in
  let right := normalize rt (crossVectors (vec3 0 1 0) forward) in
  let step := frameDisplacement rt props delta' now' next in
  vx step == along next * vx forward + across next * vx right
  /\ vz step == along next * vz forward + across next * vz right.
Proof.
  intros Hev next forward right step. subst step right forward.
  pose proof (frameYaw_after_frame delta now st events Hev) as Hyaw.
  fold next in Hyaw.
  destruct (frame_walk rt props delta' now' next) as [Hx Hz].
  destruct (walk_components rt next) as [Wx Wz]. cbv zeta in Wx, Wz.
  fold (along next) in Wx, Wz. fold (across next) in Wx, Wz.
  unfold frameRight, frameForward in Wx, Wz. rewrite Hyaw in Wx, Wz.
  rewrite Hx, Hz. split; [ exact Wx | exact Wz ].
Qed.

(** *** The recoil *)

Lemma frame_recoil_range delta fires r :
  0 <= delta -> 0 <= r <= 1 -> 0 <= frame_recoil delta fires r <= 1.
Proof.
  intros Hd [H0 H1]. unfold frame_recoil, Math_max.
  destruct fires; [ split; discriminate | ].
  destruct (Qltb 0 r); [ | split; assumption ].
  destruct (Q.max_spec 0 (r - delta * 10)) as [[Hc ->] | [Hc ->]]; lra.
Qed.

(** X24: as long as no frame is handed a negative elapsed time, the
    recoil progress stays between 0 and 1. *)
Theorem recoil_in_unit_interval (events : list Event) (st : State) (r : Q) :
  forwardInTime events ->
  0 <= r <= 1 ->
  0 <= recoilAfter rt props events st r <= 1.
Proof.
  intros Hfw. revert st r.
  induction Hfw as [|e events He _ IH]; intros st r Hr; [ exact Hr | ].
  simpl recoilAfter. apply IH.
  destruct e; try exact Hr. apply frame_recoil_range; assumption.
Qed.

Lemma frame_recoil_idle delta r :
  0 <= delta -> 0 <= r ->
  frame_recoil delta false r == Qmax 0 (r - delta * 10).
Proof.
  intros Hd Hr. unfold frame_recoil, Math_max.
  destruct (Qltb 0 r) eqn:Hpos; [ reflexivity | ].
  assert (Hz : r <= 0).
  { unfold Qltb in Hpos. apply negb_false_iff in Hpos.
    apply Qle_bool_iff in Hpos. exact Hpos. }
  destruct (Q.max_spec 0 (r - delta * 10)) as [[Hc ->] | [Hc ->]]; lra.
Qed.

Lemma recoilAfter_compat events st r r' :
  r == r' -> recoilAfter rt props events st r == recoilAfter rt props events st r'.
Proof.
  revert st r r'. induction events as [|e events IH]; intros st r r' H;
    [ exact H | ].
  simpl recoilAfter. apply IH.
  destruct e; try exact H.
  unfold frame_recoil, Math_max, Qltb.
  destruct (mayFire _ _); [ reflexivity | ].
  rewrite H. destruct (Qle_bool r' 0); simpl; rewrite ?H; reflexivity.
Qed.

(** X25: while the trigger is released the recoil only recovers, at ten
    units per second of game time: after a run without a press of the
    fire button it is what it was less ten times the elapsed time, not
    below 0, so the recoil of a shot is over once a tenth of a second of
    game time has passed. *)
Theorem recoil_recovers (events : list Event) (st : State) (r : Q) :
  isFiring st = false ->
  forallb (fun e => negb (isFirePress e)) events = true ->
  forwardInTime events ->
  0 <= r ->
  recoilAfter rt props events st r == Qmax 0 (r - 10 * elapsed events)
  /\ (r <= 1 -> 1 # 10 <= elapsed events ->
      recoilAfter rt props events st r == 0).
Proof.
  intros Hf Hev Hfw Hr.
  assert (H : recoilAfter rt props events st r
              == Qmax 0 (r - 10 * elapsed events)).
  { revert st r Hf Hev Hr.
    induction Hfw as [|e events He Hrest IH]; intros st r Hf Hev Hr.
    - simpl. destruct (Q.max_spec 0 (r - 10 * 0)) as [[Hc ->] | [Hc ->]]; lra.
    - simpl in Hev. apply andb_prop in Hev. destruct Hev as [Hpress Hev].
      apply negb_true_iff in Hpress.
      destruct (dispatch_not_firing rt props e st Hpress Hf) as (Hf' & _).
      simpl recoilAfter.
      destruct e as [key|key|button x y|button|x y|deltaY|delta now];
        try (simpl elapsed; apply IH; assumption).
      assert (Hidle : mayFire now st = false)
        by (unfold mayFire; rewrite Hf; reflexivity).
      rewrite Hidle.
      rewrite (recoilAfter_compat events _ _ _ (frame_recoil_idle delta r He Hr)).
      rewrite IH; [ | exact Hf' | exact Hev | apply Q.le_max_l ].
      simpl elapsed.
      pose proof (elapsed_nonneg events Hrest) as Hpos.
      destruct (Q.max_spec 0 (r - delta * 10)) as [[Hc ->] | [Hc ->]];
        destruct (Q.max_spec 0 (r - 10 * (delta + elapsed events)))
          as [[Hc' ->] | [Hc' ->]];
        match goal with
        | |- Qmax 0 ?a == _ =>
            destruct (Q.max_spec 0 a) as [[Hc'' ->] | [Hc'' ->]]; lra
        end. }
  split; [ exact H | ].
  intros H1 Hlong. rewrite H.
  destruct (Q.max_spec 0 (r - 10 * elapsed events)) as [[Hc ->] | [Hc ->]]; lra.
Qed.

End MoreWalk.

(** ** Examples of the further properties *)

Section MoreExamples.

Import Sample Scenario Situation.

(** Settles that no frame of a given run is handed a negative time. *)
Ltac forward_in_time :=
  unfold forwardInTime; simpl;
  repeat first [ apply Forall_nil
               | apply Forall_cons; [ first [ exact I | discriminate ] | ] ].

Lemma head_In (A : Type) (x : A) (l : list A) : hd_error l = Some x -> In x l.
Proof.
  destruct l as [|a l]; [ discriminate | ].
  intros H. injection H as ->. left. reflexivity.
Defined.

(** An upper-case letter is not a bound key. *)
Lemma unbound_key_ignored_witness :
  ~ In "W" boundKeys
  /\ dispatch runtime appProps (KeyDown "W") walking = walking
  /\ dispatch runtime appProps (KeyUp "W") walking = walking.
Proof.
  assert (H : ~ In "W" boundKeys).
  { simpl. intros H. repeat destruct H as [H | H]; try discriminate H.
    exact H. }
  split; [ exact H | ].
  exact (unbound_key_ignored runtime appProps "W" walking H).
Defined.

(** Space in the air and on the ground. *)
Lemma jump_key_down_and_up_witness :
  isJumping jumping = true
  /\ dispatch runtime appProps (KeyDown " ") jumping = jumping
  /\ isJumping start = false
  /\ isJumping (dispatch runtime appProps (KeyDown " ") start) = true.
Proof.
  split; [ reflexivity | ].
  split; [ exact (proj1 (jump_key_down_and_up runtime appProps jumping) eq_refl) | ].
  split; [ reflexivity | ].
  exact (proj1 (proj1 (proj2 (jump_key_down_and_up runtime appProps start))
                  eq_refl)).
Defined.

(** A move with the button up, and the middle button. *)
Lemma pointer_events_ignored_witness :
  isMouseDown start = false
  /\ dispatch runtime appProps (MouseMove 30 40) start = start
  /\ dispatch runtime appProps (MouseDown 1 30 40) start = start
  /\ dispatch runtime appProps (MouseUp 1) start = start.
Proof.
  pose proof (pointer_events_ignored runtime appProps start 1 30 40) as [H1 H2].
  split; [ reflexivity | ]. split; [ exact (H1 eq_refl) | ].
  exact (H2 ltac:(discriminate) ltac:(discriminate)).
Defined.

(** A drag by way of a detour. *)
Lemma yaw_follows_pointer_witness :
  let events := [MouseMove 10 0; KeyDown "w"; MouseMove (- (70)) 5] in
  isMouseDown looking = true
  /\ Forall (fun e => isLeftButton e = false) events
  /\ rotationY (run runtime appProps (events ++ [MouseMove 50 0]) looking)
     == rotationY looking - (50 - mouseX looking) * 0.01.
Proof.
  intros events.
  assert (Hd : isMouseDown looking = true) by reflexivity.
  assert (Hev : Forall (fun e => isLeftButton e = false) events)
    by (repeat constructor).
  split; [ exact Hd | ]. split; [ exact Hev | ].
  exact (yaw_follows_pointer runtime appProps looking events 50 0 Hd Hev).
Defined.

(** Ten notches out from the distance after mounting, and ten notches in. *)
Lemma wheel_zoom_witness :
  isAiming start = false
  /\ distanceInRange start
  /\ cameraDistance (run runtime appProps (repeat (Wheel 100) 10) start)
     == Qmin maxCameraDistance
          (cameraDistance start + inject_Z (Z.of_nat 10) * 0.5)
  /\ cameraDistance (run runtime appProps (repeat (Wheel 0) 10) start)
     == Qmax minCameraDistance
          (cameraDistance start - inject_Z (Z.of_nat 10) * 0.5).
Proof.
  assert (Ha : isAiming start = false) by reflexivity.
  assert (Hr : distanceInRange start) by (split; discriminate).
  split; [ exact Ha | ]. split; [ exact Hr | ]. split.
  - exact (proj1 (wheel_zoom runtime appProps start 100 10 Ha Hr) eq_refl).
  - exact (proj2 (wheel_zoom runtime appProps start 0 10 Ha Hr)
             ltac:(discriminate)).
Defined.

(** Entering AIM mode right after mounting. *)
Lemma aim_camera_at_head_witness :
  isAiming start = false
  /\ isCrouching start = false
  /\ position (camera aiming) = headPosition start.
Proof.
  assert (Ha : isAiming start = false) by reflexivity.
  assert (Hc : isCrouching start = false) by reflexivity.
  split; [ exact Ha | ]. split; [ exact Hc | ].
  exact (proj1 (proj2 (aim_camera_at_head runtime appProps start 0 0 Ha
                         (or_introl Hc)))).
Defined.

(** Crouching while aiming. *)
Lemma crouch_lowers_aim_camera_witness :
  let down := dispatch runtime appProps (KeyDown "Shift") aiming in
  isAiming aiming = true
  /\ isCrouching aiming = false
  /\ ~ vy (position (camera aiming)) == 0
  /\ position (camera down)
     = set_vy (vy (position (camera aiming)) - crouchHeight)
         (position (camera aiming)).
Proof.
  intros down.
  assert (Ha : isAiming aiming = true) by reflexivity.
  assert (Hc : isCrouching aiming = false) by reflexivity.
  assert (Hy : ~ vy (position (camera aiming)) == 0) by discriminate.
  split; [ exact Ha | ]. split; [ exact Hc | ]. split; [ exact Hy | ].
  exact (proj1 (crouch_lowers_aim_camera runtime appProps aiming Ha Hc Hy)).
Defined.


(** A bullet that hits the boss of a player mounted without the callback. *)
Lemma no_boss_or_callback_no_calls_witness :
  let st := withBullet false in
  hitDuringFrame runtime (bossProps false) (1 # 60) inside = Ok (Some Boss)
  /\ (onBossHit (bossProps false) = false \/ bossRef (bossProps false) = None)
  /\ bossHitCalls (run runtime (bossProps false) [Frame (1 # 60) 1017] st)
     = bossHitCalls st.
Proof.
  intros st. split; [ reflexivity | ].
  assert (H : onBossHit (bossProps false) = false
              \/ bossRef (bossProps false) = None) by (left; reflexivity).
  split; [ exact H | ].
  exact (no_boss_or_callback_no_calls runtime (bossProps false)
           [Frame (1 # 60) 1017] st H).
Defined.

(** The burst of the rate-of-fire example. *)
Lemma live_bullets_in_flight_witness :
  forwardInTime (MouseDown 0 0 0 :: frames17)
  /\ Forall inFlight
       (bullets (run runtime appProps (MouseDown 0 0 0 :: frames17) start)).
Proof.
  assert (H : forwardInTime (MouseDown 0 0 0 :: frames17)) by forward_in_time.
  split; [ exact H | ].
  exact (live_bullets_in_flight runtime appProps hostCamera
           (MouseDown 0 0 0 :: frames17) H).
Defined.

(** A scene with a boss and a wall out of reach: the first bullet after a
    second of flight. *)
Lemma bullet_free_flight_witness :
  crashed (run runtime rangeProps flight rangeShot) = false
  /\ forwardInTime flight
  /\ In round (bullets rangeShot)
  /\ missesAlong runtime rangeProps (frameDeltas flight) round
  /\ elapsed flight < b_lifespan round
  /\ exists b', In b' (bullets (run runtime rangeProps flight rangeShot))
                /\ flown (elapsed flight) round b'.
Proof.
  assert (Hrun : crashed (run runtime rangeProps flight rangeShot) = false)
    by (vm_compute; reflexivity).
  assert (Hfw : forwardInTime flight) by forward_in_time.
  assert (Hin : In round (bullets rangeShot))
    by (apply head_In; vm_compute; reflexivity).
  assert (Hmiss : missesAlong runtime rangeProps (frameDeltas flight) round)
    by (unfold missesAlong; simpl tested;
        repeat (constructor; [ vm_compute; reflexivity | ]); constructor).
  assert (Hlife : elapsed flight < b_lifespan round) by reflexivity.
  split; [ exact Hrun | ]. split; [ exact Hfw | ]. split; [ exact Hin | ].
  split; [ exact Hmiss | ]. split; [ exact Hlife | ].
  exact (bullet_free_flight runtime rangeProps flight rangeShot round
           Hrun Hfw Hin Hmiss Hlife).
Defined.

(** The first bullet half a second after the shot. *)
Lemma live_bullets_origin_witness :
  In later (bullets (run runtime appProps [Frame (1 # 2) 1500] shot))
  /\ ((bulletId shot <= b_id later)%nat
      \/ exists b, In b (bullets shot)
                   /\ flown (elapsed [Frame (1 # 2) 1500]) b later).
Proof.
  assert (Hin : In later
                  (bullets (run runtime appProps [Frame (1 # 2) 1500] shot)))
    by (apply head_In; vm_compute; reflexivity).
  split; [ exact Hin | ].
  exact (live_bullets_origin runtime appProps [Frame (1 # 2) 1500] shot later
           Hin).
Defined.

(** Everything but the left button. *)
Lemma no_bullet_without_fire_press_witness :
  let events :=
    [KeyDown "w"; MouseDown 2 0 0; Frame (1 # 60) 1000; MouseUp 0;
     MouseMove 5 5; Frame (1 # 60) 2000] in
  forallb (fun e => negb (isFirePress e)) events = true
  /\ bullets (run runtime appProps events start) = []
  /\ bulletId (run runtime appProps events start) = 0%nat.
Proof.
  intros events. split; [ reflexivity | ].
  exact (no_bullet_without_fire_press runtime appProps hostCamera events
           eq_refl).
Defined.

(** Walking, jumping and firing in AIM mode. *)
Lemma aim_camera_stays_put_witness :
  isAiming aiming = true
  /\ forallb keepsAimCamera roaming = true
  /\ isAiming (run runtime appProps roaming aiming) = true
  /\ position (camera (run runtime appProps roaming aiming))
     = position (camera aiming).
Proof.
  split; [ reflexivity | ]. split; [ reflexivity | ].
  exact (aim_camera_stays_put runtime appProps roaming aiming eq_refl eq_refl).
Defined.

(** The first two frames after mounting. *)
Lemma camera_closes_in_witness :
  let ticks := [(1 # 60, 0); (1 # 60, 17)] in
  let st' := run runtime appProps (framesOf ticks) start in
  isAiming start = false
  /\ idle start
  /\ sub (cameraCurrentPosition st') (orbitTarget runtime start)
     =v= multiplyScalar
           (sub (cameraCurrentPosition start) (orbitTarget runtime start))
           (decay 2)
  /\ position (camera st') = cameraCurrentPosition st'.
Proof.
  intros ticks st'.
  assert (Ha : isAiming start = false) by reflexivity.
  assert (Hi : idle start) by (repeat split).
  split; [ exact Ha | ]. split; [ exact Hi | ].
  destruct (camera_closes_in runtime appProps start ticks Ha Hi) as [Hgap Hcam].
  split; [ exact Hgap | ].
  apply Hcam. discriminate.
Defined.

(** W and D held together. *)
Lemma diagonal_step_longer_witness :
  let d := frameDisplacement runtime appProps (1 # 60) 0 diagonal in
  lengthSq (frameForward runtime diagonal) == 1
  /\ lengthSq (frameRight runtime diagonal) == 1
  /\ isJumping diagonal = false
  /\ lengthSq d == 2 * (speed diagonal * speed diagonal).
Proof.
  intros d.
  assert (Hf : lengthSq (frameForward runtime diagonal) == 1) by reflexivity.
  assert (Hr : lengthSq (frameRight runtime diagonal) == 1) by reflexivity.
  assert (Hj : isJumping diagonal = false) by reflexivity.
  split; [ exact Hf | ]. split; [ exact Hr | ]. split; [ exact Hj | ].
  exact (proj2 (diagonal_step_longer runtime appProps (1 # 60) 0 diagonal
                  Hf Hr Hj) eq_refl eq_refl).
Defined.

(** A drag between two frames, W held: the second frame steps straight
    ahead along the yaw of the first, not along the yaw the drag left. *)
Lemma walk_follows_previous_yaw_witness :
  let events := [MouseMove 100 0; KeyDown "w"] in
  let next :=
    run runtime appProps events (useFrame runtime appProps (1 # 60) 0 looking) in
  let axis := fun yaw =>
    getPlayerForward runtime (mkGroup (pg_position (playerGroup next)) yaw) in
  let side := fun yaw =>
    normalize runtime (crossVectors (vec3 0 1 0) (axis yaw)) in
  let step := frameDisplacement runtime appProps (1 # 60) 17 next in
  forallb (fun e => negb (isFrame e)) events = true
  /\ (vx step == along next * vx (axis (rotationY looking))
                 + across next * vx (side (rotationY looking))
      /\ vz step == along next * vz (axis (rotationY looking))
                    + across next * vz (side (rotationY looking)))
  /\ ~ rotationY next == rotationY looking
  /\ ~ vx step == along next * vx (axis (rotationY next))
                  + across next * vx (side (rotationY next)).
Proof.
  intros events next axis side step. split; [ reflexivity | ].
  split.
  - exact (walk_follows_previous_yaw runtime appProps (1 # 60) 0 (1 # 60) 17
             looking events eq_refl).
  - split; vm_compute; discriminate.
Defined.

(** The recoil over the burst of the rate-of-fire example. *)
Lemma recoil_in_unit_interval_witness :
  forwardInTime (MouseDown 0 0 0 :: frames17)
  /\ 0 <= 0 <= 1
  /\ 0 <= recoilAfter runtime appProps (MouseDown 0 0 0 :: frames17) start 0
     <= 1.
Proof.
  assert (H : forwardInTime (MouseDown 0 0 0 :: frames17)) by forward_in_time.
  assert (Hr : 0 <= 0 <= 1) by (split; discriminate).
  split; [ exact H | ]. split; [ exact Hr | ].
  exact (recoil_in_unit_interval runtime appProps
           (MouseDown 0 0 0 :: frames17) start 0 H Hr).
Defined.

(** The recoil of a shot, a tenth of a second after the trigger was
    released. *)
Lemma recoil_recovers_witness :
  let events := [Frame (1 # 20) 1050; KeyDown "w"; Frame (1 # 20) 1100] in
  isFiring released = false
  /\ forallb (fun e => negb (isFirePress e)) events = true
  /\ forwardInTime events
  /\ 0 <= 1
  /\ 1 # 10 <= elapsed events
  /\ recoilAfter runtime appProps events released 1 == 0.
Proof.
  intros events.
  assert (Hf : isFiring released = false) by reflexivity.
  assert (Hfw : forwardInTime events) by forward_in_time.
  assert (H0 : 0 <= 1) by discriminate.
  assert (Hlong : 1 # 10 <= elapsed events) by discriminate.
  split; [ exact Hf | ]. split; [ reflexivity | ]. split; [ exact Hfw | ].
  split; [ exact H0 | ]. split; [ exact Hlong | ].
  exact (proj2 (recoil_recovers runtime appProps events released 1
                  Hf eq_refl Hfw H0) ltac:(discriminate) Hlong).
Defined.

End MoreExamples.
